(** * Basketball registration scraper: extract, persist, notify

    A shallow embedding of [app/lib/basketball-scraper.ts] (the class
    [BasketballRegistrationScraper]: [saveData], [sendEmail], [scrape],
    [start]) and of the read route [app/api/basketball-registrations/route.ts]
    ([GET]), with the properties of the written specification stated and
    proved against it; then of the code around them: the refresh route,
    the dashboard component, and the earlier scraper that keeps the
    snapshot in a file, each with the properties its code shows.

    Strings are byte strings holding UTF-8 text.  Everything the program
    reaches outside itself (the headless browser, the blob store, the mail
    channel, the clock, the process environment) is an oracle of the
    record [Env]; a run threads a [World] (console and call trace, blob
    store, the local variable [page]) through a small state-and-exception
    monad that has JavaScript's [try]/[catch]/[finally]. *)

From Stdlib Require Import String Ascii List Bool Arith ZArith NArith Lia.
From Stdlib Require Import DecimalString.
Import ListNotations.
Open Scope string_scope.

Set Warnings "-register-all".

(* ------------------------------------------------------------------ *)
(** * JavaScript strings *)
(* ------------------------------------------------------------------ *)

Module JsString.

(** A string from its byte values. *)
Definition of_codes (l : list N) : string :=
  string_of_list_ascii (map ascii_of_N l).

(** The characters of a UTF-8 text, one chunk per character: the lead byte
    gives the length of the chunk; a stray byte is a chunk of its own. *)
Definition lead_kind (c : ascii) : nat :=
  let n := N_of_ascii c in
  if (n <? 192)%N then 1
  else if (n <? 224)%N then 2
  else if (n <? 240)%N then 3
  else 4.

Fixpoint chars (s : string) : list string :=
  match s with
  | EmptyString => []
  | String c1 s1 =>
    match lead_kind c1, s1 with
    | 2, String c2 s2 => String c1 (String c2 "") :: chars s2
    | 3, String c2 (String c3 s3) =>
        String c1 (String c2 (String c3 "")) :: chars s3
    | 4, String c2 (String c3 (String c4 s4)) =>
        String c1 (String c2 (String c3 (String c4 ""))) :: chars s4
    | _, _ => String c1 "" :: chars s1
    end
  end.

Definition join (l : list string) : string := fold_right append "" l.

(** ECMAScript WhiteSpace and LineTerminator code points, in UTF-8: what
    [String.prototype.trim] strips. *)
Definition white_space_table : list string :=
  map of_codes
    [ [9]; [10]; [11]; [12]; [13]; [32]            (* TAB LF VT FF CR SP *)
    ; [194; 160]                                   (* U+00A0 *)
    ; [225; 154; 128]                              (* U+1680 *)
    ; [226; 128; 128]; [226; 128; 129]; [226; 128; 130]; [226; 128; 131]
    ; [226; 128; 132]; [226; 128; 133]; [226; 128; 134]; [226; 128; 135]
    ; [226; 128; 136]; [226; 128; 137]; [226; 128; 138]   (* U+2000..U+200A *)
    ; [226; 128; 168]; [226; 128; 169]             (* U+2028 U+2029 *)
    ; [226; 128; 175]                              (* U+202F *)
    ; [226; 129; 159]                              (* U+205F *)
    ; [227; 128; 128]                              (* U+3000 *)
    ; [239; 187; 191] ]%N.                         (* U+FEFF *)

Definition is_white_space (ch : string) : bool :=
  existsb (String.eqb ch) white_space_table.

Fixpoint drop_white (l : list string) : list string :=
  match l with
  | ch :: l' => if is_white_space ch then drop_white l' else l
  | [] => []
  end.

(** [s.trim()] *)
Definition trim (s : string) : string :=
  join (rev (drop_white (rev (drop_white (chars s))))).

(** [x || ''] for [x] a string or [undefined]; the empty string is falsy. *)
Definition or_empty (x : option string) : string :=
  match x with
  | Some s => if String.eqb s "" then "" else s
  | None => ""
  end.

(** Truthiness of a string-or-undefined value. *)
Definition truthy (x : option string) : bool :=
  match x with
  | Some s => negb (String.eqb s "")
  | None => false
  end.

(** [String(n)] for an integer. *)
Definition of_nat (n : nat) : string := NilZero.string_of_uint (Nat.to_uint n).
Definition of_Z (z : Z) : string := NilZero.string_of_int (Z.to_int z).

End JsString.

(* ------------------------------------------------------------------ *)
(** * Data model *)
(* ------------------------------------------------------------------ *)

Record BasketballRegistration := {
  polideportivo : string;
  categoria : string;
  actividad : string;
  subcategoria : string;
  horario : string
}.

Record RegistrationData := {
  timestamp : string;
  registrations : list BasketballRegistration
}.

Definition BLOB_FILENAME : string := "basketball-registrations.json".
Definition SCRAPE_INTERVAL_HOURS : Z := 6.
Definition URL : string :=
  "https://appsb.mardelplata.gob.ar/Consultas/nPolideportivos/Vistas/Inscripciones/InscripcionWeb/InscripcionWeb.aspx".

(* ------------------------------------------------------------------ *)
(** * The result table in the page, and step 6's row extraction *)
(* ------------------------------------------------------------------ *)

Module Dom.

(** The element names that the selectors of the program tell apart;
    every other element is an [OTHER]. *)
Inductive Tag :=
| TABLE | THEAD | TBODY | TFOOT | TR | TD | TH
| OTHER (name : string).

(** A node of the document: a text, or an element with its child nodes. *)
Inductive Node :=
| Text (data : string)
| Element (tag : Tag) (children : list Node).

(** [node.textContent]: the texts under the node, in document order. *)
Fixpoint textContent (n : Node) : string :=
  match n with
  | Text data => data
  | Element _ children => JsString.join (map textContent children)
  end.

Section Among.

Variable under : Node -> list (bool * Node).

(** The elements among some sibling nodes, each followed by the elements
    under it; [first] tells whether no element came before among the
    siblings. *)
Fixpoint among (first : bool) (l : list Node) : list (bool * Node) :=
  match l with
  | [] => []
  | child :: l' =>
      match child with
      | Text _ => among first l'
      | Element _ _ => ((first, child) :: under child ++ among false l')%list
      end
  end.

End Among.

(** The elements under a node, in document order, each with whether it is
    the first element among the children of its parent (what the
    pseudo-class [:first-child] asks). *)
Fixpoint descendants (n : Node) : list (bool * Node) :=
  match n with
  | Text _ => []
  | Element _ children => among descendants true children
  end.

Definition is_tr (n : Node) : bool :=
  match n with Element TR _ => true | _ => false end.

Definition is_td (n : Node) : bool :=
  match n with Element TD _ => true | _ => false end.

(** [querySelectorAll('#MainContent_gvBuscarActXCat tr:not(:first-child)')],
    [table] being the element of that id: every [tr] under it, at any
    depth, that is not the first element child of its parent. *)
Definition querySelectorAll_tr_not_first_child (table : Node) : list Node :=
  map snd (filter (fun fn : bool * Node => is_tr (snd fn) && negb (fst fn))
                  (descendants table)).

(** [row.querySelectorAll('td')]: every [td] under the row, at any depth. *)
Definition querySelectorAll_td (row : Node) : list Node :=
  map snd (filter (fun fn : bool * Node => is_td (snd fn)) (descendants row)).

(** [cols[i]?.textContent?.trim() || ''] *)
Definition cell_text (cols : list Node) (i : nat) : string :=
  JsString.or_empty
    (option_map JsString.trim (option_map textContent (nth_error cols i))).

(** The callback of [rows.map]. *)
Definition row_to_registration (row : Node) : BasketballRegistration :=
  let cols := querySelectorAll_td row in
  {| polideportivo := cell_text cols 1;
     categoria := cell_text cols 2;
     actividad := cell_text cols 3;
     subcategoria := cell_text cols 4;
     horario := cell_text cols 5 |}.

(** The function evaluated in the page by [scrape]'s second
    [page.evaluate]. *)
Definition extractRegistrations (table : Node) : list BasketballRegistration :=
  let rows := querySelectorAll_tr_not_first_child table in
  map row_to_registration rows.

(** ** The specification's reading of the table *)

Definition children (n : Node) : list Node :=
  match n with
  | Element _ l => l
  | Text _ => []
  end.

(** The rows of a table are the [tr] elements under it; the header row
    is the first of them. *)
Definition rows (table : Node) : list Node :=
  map snd (filter (fun fn : bool * Node => is_tr (snd fn)) (descendants table)).

Definition non_header_rows (table : Node) : list Node := tl (rows table).

(** The cells of a row are its [td] children. *)
Definition cells (row : Node) : list Node := filter is_td (children row).

(** [field] is [text] without the white space at its two ends: the
    characters of [text] are white space, then the characters of [field],
    then white space, and [field] neither begins nor ends with white
    space. *)
Definition stripped (text field : string) : Prop :=
  exists pre mid post,
    JsString.chars text = (pre ++ mid ++ post)%list
    /\ field = JsString.join mid
    /\ forallb JsString.is_white_space pre = true
    /\ forallb JsString.is_white_space post = true
    /\ match mid with
       | ch :: _ => JsString.is_white_space ch = false
       | [] => True
       end
    /\ match rev mid with
       | ch :: _ => JsString.is_white_space ch = false
       | [] => True
       end.

(** [field] is what a registration holds for the cell at position [i] of
    a row: the content of that cell, stripped, or the empty string where
    the row has no such cell. *)
Definition reads (row : Node) (i : nat) (field : string) : Prop :=
  match nth_error (cells row) i with
  | Some c => stripped (textContent c) field
  | None => field = ""
  end.

(** No element under the node is a [p]. *)
Definition free_of (p : Node -> bool) (n : Node) : bool :=
  forallb (fun fn : bool * Node => negb (p (snd fn))) (descendants n).

(** A plain row: a [tr] that holds no other [tr], and whose children hold
    no [td] of their own. *)
Definition plain_row (row : Node) : bool :=
  is_tr row && free_of is_tr row && forallb (free_of is_td) (children row).

Definition is_text (n : Node) : bool :=
  match n with Text _ => true | Element _ _ => false end.

Definition elements (l : list Node) : list Node :=
  filter (fun n => negb (is_text n)) l.

(** A GridView: a [table] whose one element is a [tbody], the elements of
    which are plain rows, the header row first; texts may stand between
    the elements. *)
Definition grid_view (table : Node) : bool :=
  match table with
  | Element TABLE l =>
      match elements l with
      | [Element TBODY group] => forallb plain_row (elements group)
      | _ => false
      end
  | _ => false
  end.

End Dom.

(* ------------------------------------------------------------------ *)
(** * [Date.prototype.toISOString] *)
(* ------------------------------------------------------------------ *)

Module JsDate.

Local Open Scope Z_scope.

Definition msPerDay : Z := 86400000.

Definition digit (d : Z) : ascii := ascii_of_N (Z.to_N (48 + d mod 10)).

(** The last [width] decimal digits of [n], most significant first. *)
Fixpoint pad (width : nat) (n : Z) : string :=
  match width with
  | O => ""
  | S w => String (digit (n / 10 ^ Z.of_nat w)) (pad w n)
  end.

(** Year, month (1..12) and day of the month of a day number counted
    from 1970-01-01, in the proleptic Gregorian calendar. *)
Definition civil_from_days (days : Z) : Z * Z * Z :=
  let z := days + 719468 in
  let era := z / 146097 in
  let doe := z - era * 146097 in
  let yoe := (doe - doe / 1460 + doe / 36524 - doe / 146096) / 365 in
  let doy := doe - (365 * yoe + yoe / 4 - yoe / 100) in
  let mp := (5 * doy + 2) / 153 in
  let d := doy - (153 * mp + 2) / 5 + 1 in
  let m := if mp <? 10 then mp + 3 else mp - 9 in
  let y := yoe + era * 400 in
  (if m <=? 2 then y + 1 else y, m, d).

Definition year_string (y : Z) : string :=
  if (0 <=? y) && (y <=? 9999) then pad 4 y
  else (if y <? 0 then "-" else "+") ++ pad 6 (Z.abs y).

(** [new Date(t).toISOString()] for a time value [t] in milliseconds since
    the epoch: [YYYY-MM-DDTHH:mm:ss.sssZ], the year in the expanded form
    outside 0..9999. *)
Definition toISOString (t : Z) : string :=
  let '(y, m, d) := civil_from_days (t / msPerDay) in
  let tod := t mod msPerDay in
  year_string y ++ "-" ++ pad 2 m ++ "-" ++ pad 2 d ++ "T"
    ++ pad 2 (tod / 3600000) ++ ":" ++ pad 2 (tod / 60000 mod 60) ++ ":"
    ++ pad 2 (tod / 1000 mod 60) ++ "." ++ pad 3 (tod mod 1000) ++ "Z".

(** A checker for the ISO-8601 UTC date-time form with four-digit year:
    shape and field ranges. *)
Definition digit_value (c : ascii) : option Z :=
  let n := Z.of_N (N_of_ascii c) in
  if (48 <=? n) && (n <=? 57) then Some (n - 48) else None.

Fixpoint number_of (acc : Z) (l : list ascii) : option Z :=
  match l with
  | [] => Some acc
  | c :: l' =>
    match digit_value c with
    | Some d => number_of (10 * acc + d) l'
    | None => None
    end
  end.

Definition in_range (lo hi : Z) (x : option Z) : bool :=
  match x with
  | Some v => (lo <=? v) && (v <=? hi)
  | None => false
  end.

Definition is_iso8601 (s : string) : bool :=
  match list_ascii_of_string s with
  | [y1; y2; y3; y4; h1; m1; m2; h2; d1; d2; t; hh1; hh2; c1; mm1; mm2; c2;
     s1; s2; dot; f1; f2; f3; z] =>
      in_range 0 9999 (number_of 0 [y1; y2; y3; y4])
      && Ascii.eqb h1 "-" && in_range 1 12 (number_of 0 [m1; m2])
      && Ascii.eqb h2 "-" && in_range 1 31 (number_of 0 [d1; d2])
      && Ascii.eqb t "T" && in_range 0 23 (number_of 0 [hh1; hh2])
      && Ascii.eqb c1 ":" && in_range 0 59 (number_of 0 [mm1; mm2])
      && Ascii.eqb c2 ":" && in_range 0 59 (number_of 0 [s1; s2])
      && Ascii.eqb dot "." && in_range 0 999 (number_of 0 [f1; f2; f3])
      && Ascii.eqb z "Z"
  | _ => false
  end.

(** The day number, counted from 1970-01-01, of a date of the proleptic
    Gregorian calendar. *)
Definition days_from_civil (y m d : Z) : Z :=
  let y' := if m <=? 2 then y - 1 else y in
  let era := y' / 400 in
  let yoe := y' - era * 400 in
  let mp := if m <=? 2 then m + 9 else m - 3 in
  let doy := (153 * mp + 2) / 5 + d - 1 in
  let doe := yoe * 365 + yoe / 4 - yoe / 100 + doy in
  era * 146097 + doe - 719468.

(** The time value that a date-time of the form [YYYY-MM-DDTHH:mm:ss.sssZ]
    denotes, in milliseconds since the epoch: what [new Date(text)] holds
    for the texts that [toISOString] writes. *)
Definition time_value (s : string) : option Z :=
  if is_iso8601 s then
    match list_ascii_of_string s with
    | [y1; y2; y3; y4; _; m1; m2; _; d1; d2; _; hh1; hh2; _; mm1; mm2; _;
       s1; s2; _; f1; f2; f3; _] =>
        match number_of 0 [y1; y2; y3; y4], number_of 0 [m1; m2],
              number_of 0 [d1; d2], number_of 0 [hh1; hh2],
              number_of 0 [mm1; mm2], number_of 0 [s1; s2],
              number_of 0 [f1; f2; f3] with
        | Some y, Some m, Some d, Some hh, Some mm, Some ss, Some ms =>
            Some (days_from_civil y m d * msPerDay
                  + hh * 3600000 + mm * 60000 + ss * 1000 + ms)
        | _, _, _, _, _, _, _ => None
        end
    | _ => None
    end
  else None.

(** The steps of [civil_from_days] within one era of 146097 days: the year
    of the era of a day, the first day of a year of the era, and month and
    day of the month of a day of the year (counted from the first of
    March). *)
Definition year_of_era (doe : Z) : Z :=
  (doe - doe / 1460 + doe / 36524 - doe / 146096) / 365.

Definition first_day (yoe : Z) : Z := 365 * yoe + yoe / 4 - yoe / 100.

Definition month_index (doy : Z) : Z := (5 * doy + 2) / 153.

Definition day_of_month (doy : Z) : Z :=
  doy - (153 * month_index doy + 2) / 5 + 1.

(** A property of every integer of [lo, lo + 2^k), by bisection. *)
Fixpoint all_in (k : nat) (lo : Z) (p : Z -> bool) : bool :=
  match k with
  | O => p lo
  | S k' => all_in k' lo p && all_in k' (lo + 2 ^ Z.of_nat k') p
  end.

(** The first day of year [y] of the era falls in year [y], and the day
    before it in year [y - 1]. *)
Definition year_boundary_ok (y : Z) : bool :=
  (400 <=? y)
  || ((year_of_era (first_day y) =? y)
      && ((y =? 0) || (year_of_era (first_day y - 1) =? y - 1))).

(** Month index and day of the month are in range, and January and
    February are the days of the year from 306 on. *)
Definition day_of_year_ok (doy : Z) : bool :=
  (366 <=? doy)
  || ((0 <=? month_index doy) && (month_index doy <=? 11)
      && (1 <=? day_of_month doy) && (day_of_month doy <=? 31)
      && Bool.eqb (month_index doy <? 10) (doy <? 306)).

End JsDate.
(* ------------------------------------------------------------------ *)
(** * JSON: [JSON.stringify(value, null, 2)] and [JSON.parse] *)
(* ------------------------------------------------------------------ *)

Module Json.

Inductive value :=
| Null
| Bool (b : bool)
| Number (literal : string)
| Str (s : string)
| Arr (items : list value)
| Obj (members : list (string * value)).

Definition dq : string := String "034" "".          (* the double quote *)
Definition backslash : string := String "092" "".
Definition nl : string := String "010" "".          (* line feed *)

Definition hex_digit (n : N) : ascii :=
  if (n <? 10)%N then ascii_of_N (48 + n) else ascii_of_N (87 + n).

(** QuoteJSONString, one character at a time. *)
Definition escape_char (c : ascii) : string :=
  let n := N_of_ascii c in
  if (n =? 34)%N then backslash ++ dq
  else if (n =? 92)%N then backslash ++ backslash
  else if (n =? 8)%N then backslash ++ "b"
  else if (n =? 12)%N then backslash ++ "f"
  else if (n =? 10)%N then backslash ++ "n"
  else if (n =? 13)%N then backslash ++ "r"
  else if (n =? 9)%N then backslash ++ "t"
  else if (n <? 32)%N then
    backslash ++ "u00" ++ String (hex_digit (n / 16)) (String (hex_digit (n mod 16)) "")
  else String c "".

Fixpoint escape (s : string) : string :=
  match s with
  | EmptyString => ""
  | String c s' => escape_char c ++ escape s'
  end.

Definition quote (s : string) : string := dq ++ escape s ++ dq.

Fixpoint join_sep (sep : string) (l : list string) : string :=
  match l with
  | [] => ""
  | [x] => x
  | x :: l' => x ++ sep ++ join_sep sep l'
  end.

(** SerializeJSONProperty: [gap] is the indentation unit (empty for the
    compact form), [indent] the current indentation. *)
Fixpoint serialize (gap indent : string) (v : value) {struct v} : string :=
  match v with
  | Null => "null"
  | Bool true => "true"
  | Bool false => "false"
  | Number literal => literal
  | Str s => quote s
  | Arr [] => "[]"
  | Arr items =>
      let stepback := indent in
      let indent := indent ++ gap in
      let partial := map (serialize gap indent) items in
      if String.eqb gap "" then "[" ++ join_sep "," partial ++ "]"
      else "[" ++ nl ++ indent ++ join_sep ("," ++ nl ++ indent) partial
               ++ nl ++ stepback ++ "]"
  | Obj [] => "{}"
  | Obj members =>
      let stepback := indent in
      let indent := indent ++ gap in
      let partial :=
        map (fun kv : string * value =>
               let '(k, x) := kv in
               quote k ++ (if String.eqb gap "" then ":" else ": ")
                       ++ serialize gap indent x) members in
      if String.eqb gap "" then "{" ++ join_sep "," partial ++ "}"
      else "{" ++ nl ++ indent ++ join_sep ("," ++ nl ++ indent) partial
               ++ nl ++ stepback ++ "}"
  end.

Fixpoint spaces (n : nat) : string :=
  match n with
  | O => ""
  | S n' => String " " (spaces n')
  end.

(** [JSON.stringify(v, null, space)] for a number [space], and
    [JSON.stringify(v)] at [space = 0]. *)
Definition stringify (v : value) (space : nat) : string :=
  serialize (spaces (Nat.min 10 space)) "" v.

(** ** Lexing *)

Inductive token :=
| TLBrace | TRBrace | TLBracket | TRBracket | TColon | TComma
| TString (s : string)
| TWord (w : string).

Inductive mode :=
| Out                                  (* between tokens *)
| InString (acc : string)              (* inside a string literal *)
| InEscape (acc : string)              (* after a backslash *)
| InUnicode (acc : string) (seen : nat) (cp : N)   (* inside \uXXXX *)
| InWord (acc : string).               (* a number or a literal name *)

(** The lexer's state: [None] once the text is rejected; tokens are kept
    latest first. *)
Definition lex_state := option (mode * list token).

Definition snoc (s : string) (c : ascii) : string := s ++ String c "".

Definition hex_value (c : ascii) : option N :=
  let n := N_of_ascii c in
  if (48 <=? n)%N && (n <=? 57)%N then Some (n - 48)%N
  else if (97 <=? n)%N && (n <=? 102)%N then Some (n - 87)%N
  else if (65 <=? n)%N && (n <=? 70)%N then Some (n - 55)%N
  else None.

(** UTF-8 bytes of a code point.  A surrogate that stands on its own is
    no character; the text keeps it as the three bytes of its value. *)
Definition utf8_encode (cp : N) : string :=
  if (cp <? 128)%N then JsString.of_codes [cp]
  else if (cp <? 2048)%N then
    JsString.of_codes [192 + cp / 64; 128 + cp mod 64]%N
  else if (cp <? 65536)%N then
    JsString.of_codes [224 + cp / 4096; 128 + (cp / 64) mod 64; 128 + cp mod 64]%N
  else
    JsString.of_codes [240 + cp / 262144; 128 + (cp / 4096) mod 64;
                       128 + (cp / 64) mod 64; 128 + cp mod 64]%N.

Definition is_low_surrogate (cu : N) : bool :=
  ((56320 <=? cu) && (cu <=? 57343))%N.            (* DC00..DFFF *)

(** The text ends with a high surrogate (D800..DBFF) on its own: the text
    before it, and its value. *)
Definition ends_with_high_surrogate (acc : string) : option (string * N) :=
  match rev (list_ascii_of_string acc) with
  | c3 :: c2 :: c1 :: before =>
      let n1 := N_of_ascii c1 in
      let n2 := N_of_ascii c2 in
      let n3 := N_of_ascii c3 in
      if ((n1 =? 237) && (160 <=? n2) && (n2 <=? 175)
          && (128 <=? n3) && (n3 <=? 191))%N
      then Some (string_of_list_ascii (rev before),
                 (53248 + (n2 - 128) * 64 + (n3 - 128))%N)
      else None
  | _ => None
  end.

(** The code unit of a [\uXXXX] escape added to a text: a low surrogate
    that follows a high one makes one character with it, as the two
    units do in a JavaScript string. *)
Definition append_code_unit (acc : string) (cu : N) : string :=
  if is_low_surrogate cu then
    match ends_with_high_surrogate acc with
    | Some (before, hi) =>
        before ++ utf8_encode (65536 + (hi - 55296) * 1024 + (cu - 56320))%N
    | None => acc ++ utf8_encode cu
    end
  else acc ++ utf8_encode cu.

Definition is_json_space (n : N) : bool :=
  (n =? 32)%N || (n =? 9)%N || (n =? 10)%N || (n =? 13)%N.

(** Characters of numbers and of the names [true], [false], [null]. *)
Definition is_word_char (n : N) : bool :=
  ((48 <=? n)%N && (n <=? 57)%N) || ((97 <=? n)%N && (n <=? 122)%N)
  || (n =? 69)%N || (n =? 43)%N || (n =? 45)%N || (n =? 46)%N.

Definition lex_out (toks : list token) (c : ascii) : lex_state :=
  let n := N_of_ascii c in
  if is_json_space n then Some (Out, toks)
  else if (n =? 123)%N then Some (Out, TLBrace :: toks)
  else if (n =? 125)%N then Some (Out, TRBrace :: toks)
  else if (n =? 91)%N then Some (Out, TLBracket :: toks)
  else if (n =? 93)%N then Some (Out, TRBracket :: toks)
  else if (n =? 58)%N then Some (Out, TColon :: toks)
  else if (n =? 44)%N then Some (Out, TComma :: toks)
  else if (n =? 34)%N then Some (InString "", toks)
  else if is_word_char n then Some (InWord (String c ""), toks)
  else None.

Definition lex_step (st : lex_state) (c : ascii) : lex_state :=
  match st with
  | None => None
  | Some (Out, toks) => lex_out toks c
  | Some (InWord acc, toks) =>
      if is_word_char (N_of_ascii c) then Some (InWord (snoc acc c), toks)
      else lex_out (TWord acc :: toks) c
  | Some (InString acc, toks) =>
      let n := N_of_ascii c in
      if (n =? 34)%N then Some (Out, TString acc :: toks)
      else if (n =? 92)%N then Some (InEscape acc, toks)
      else if (n <? 32)%N then None
      else Some (InString (snoc acc c), toks)
  | Some (InEscape acc, toks) =>
      let n := N_of_ascii c in
      if (n =? 34)%N || (n =? 92)%N || (n =? 47)%N
      then Some (InString (snoc acc c), toks)
      else if (n =? 98)%N then Some (InString (snoc acc "008"), toks)
      else if (n =? 102)%N then Some (InString (snoc acc "012"), toks)
      else if (n =? 110)%N then Some (InString (snoc acc "010"), toks)
      else if (n =? 114)%N then Some (InString (snoc acc "013"), toks)
      else if (n =? 116)%N then Some (InString (snoc acc "009"), toks)
      else if (n =? 117)%N then Some (InUnicode acc 0 0%N, toks)
      else None
  | Some (InUnicode acc seen cp, toks) =>
      match hex_value c with
      | Some h =>
          let cp := (16 * cp + h)%N in
          if Nat.eqb seen 3 then Some (InString (append_code_unit acc cp), toks)
          else Some (InUnicode acc (S seen) cp, toks)
      | None => None
      end
  end.

Fixpoint lex_run (s : string) (st : lex_state) : lex_state :=
  match s with
  | EmptyString => st
  | String c s' => lex_run s' (lex_step st c)
  end.

(** The tokens of a text, in order; [None] on a lexical error. *)
Definition lex (s : string) : option (list token) :=
  match lex_run s (Some (Out, [])) with
  | Some (Out, toks) => Some (rev toks)
  | Some (InWord acc, toks) => Some (rev (TWord acc :: toks))
  | _ => None
  end.

(** ** Parsing *)

(** The JSON number grammar: an optional minus sign, then zero or a
    digit string without leading zero, then an optional fraction, then an
    optional exponent. *)
Definition is_digit (c : ascii) : bool :=
  let n := N_of_ascii c in (48 <=? n)%N && (n <=? 57)%N.

Fixpoint skip_digits (l : list ascii) : list ascii :=
  match l with
  | c :: l' => if is_digit c then skip_digits l' else l
  | [] => []
  end.

Definition digits1 (l : list ascii) : option (list ascii) :=
  match l with
  | c :: l' => if is_digit c then Some (skip_digits l') else None
  | [] => None
  end.

Definition number_exponent (l : list ascii) : bool :=
  match l with
  | [] => true
  | e :: l' =>
      if Ascii.eqb e "e" || Ascii.eqb e "E" then
        let l'' := match l' with
                   | sgn :: r => if Ascii.eqb sgn "+" || Ascii.eqb sgn "-" then r else l'
                   | [] => l'
                   end in
        match digits1 l'' with Some [] => true | _ => false end
      else false
  end.

Definition number_fraction (l : list ascii) : bool :=
  match l with
  | c :: l' =>
      if Ascii.eqb c "." then
        match digits1 l' with Some r => number_exponent r | None => false end
      else number_exponent l
  | [] => true
  end.

Definition is_number (w : string) : bool :=
  let l := list_ascii_of_string w in
  let l := match l with
           | c :: r => if Ascii.eqb c "-" then r else l
           | [] => l
           end in
  match l with
  | c :: r =>
      if Ascii.eqb c "0" then number_fraction r
      else if is_digit c then number_fraction (skip_digits r)
      else false
  | [] => false
  end.

Definition word_value (w : string) : option value :=
  if String.eqb w "null" then Some Null
  else if String.eqb w "true" then Some (Bool true)
  else if String.eqb w "false" then Some (Bool false)
  else if is_number w then Some (Number w)
  else None.

Fixpoint parse_value (fuel : nat) (toks : list token) {struct fuel}
  : option (value * list token) :=
  match fuel with
  | O => None
  | S fuel =>
    match toks with
    | TString s :: rest => Some (Str s, rest)
    | TWord w :: rest =>
        match word_value w with Some v => Some (v, rest) | None => None end
    | TLBracket :: TRBracket :: rest => Some (Arr [], rest)
    | TLBracket :: rest =>
        match parse_elements fuel rest with
        | Some (items, rest') => Some (Arr items, rest')
        | None => None
        end
    | TLBrace :: TRBrace :: rest => Some (Obj [], rest)
    | TLBrace :: rest =>
        match parse_members fuel rest with
        | Some (members, rest') => Some (Obj members, rest')
        | None => None
        end
    | _ => None
    end
  end
with parse_elements (fuel : nat) (toks : list token) {struct fuel}
  : option (list value * list token) :=
  match fuel with
  | O => None
  | S fuel =>
    match parse_value fuel toks with
    | Some (v, TComma :: rest) =>
        match parse_elements fuel rest with
        | Some (items, rest') => Some (v :: items, rest')
        | None => None
        end
    | Some (v, TRBracket :: rest) => Some ([v], rest)
    | _ => None
    end
  end
with parse_members (fuel : nat) (toks : list token) {struct fuel}
  : option (list (string * value) * list token) :=
  match fuel with
  | O => None
  | S fuel =>
    match toks with
    | TString k :: TColon :: rest =>
        match parse_value fuel rest with
        | Some (v, TComma :: rest') =>
            match parse_members fuel rest' with
            | Some (members, rest'') => Some ((k, v) :: members, rest'')
            | None => None
            end
        | Some (v, TRBrace :: rest') => Some ([(k, v)], rest')
        | _ => None
        end
    | _ => None
    end
  end.

(** [JSON.parse(text)]; [None] stands for the SyntaxError. *)
Definition parse (text : string) : option value :=
  match lex text with
  | Some toks =>
      match parse_value (S (length toks)) toks with
      | Some (v, []) => Some v
      | _ => None
      end
  | None => None
  end.

(** Property access on a parsed object: the last member of that name. *)
Definition get (k : string) (v : value) : option value :=
  match v with
  | Obj members =>
      option_map snd (find (fun kv => String.eqb (fst kv) k) (rev members))
  | _ => None
  end.

End Json.

(** ** The snapshot document *)

Definition json_of_registration (r : BasketballRegistration) : Json.value :=
  Json.Obj [ ("polideportivo", Json.Str (polideportivo r));
             ("categoria", Json.Str (categoria r));
             ("actividad", Json.Str (actividad r));
             ("subcategoria", Json.Str (subcategoria r));
             ("horario", Json.Str (horario r)) ].

Definition json_of_data (d : RegistrationData) : Json.value :=
  Json.Obj [ ("timestamp", Json.Str (timestamp d));
             ("registrations", Json.Arr (map json_of_registration (registrations d))) ].

(** Reading a parsed document back as [RegistrationData], the way the
    dashboard reads [response.json()]. *)
Definition get_string (k : string) (v : Json.value) : option string :=
  match Json.get k v with
  | Some (Json.Str s) => Some s
  | _ => None
  end.

Definition registration_of_json (v : Json.value) : option BasketballRegistration :=
  match get_string "polideportivo" v, get_string "categoria" v,
        get_string "actividad" v, get_string "subcategoria" v,
        get_string "horario" v with
  | Some p, Some c, Some a, Some s, Some h =>
      Some {| polideportivo := p; categoria := c; actividad := a;
              subcategoria := s; horario := h |}
  | _, _, _, _, _ => None
  end.

Fixpoint all_some {A : Type} (l : list (option A)) : option (list A) :=
  match l with
  | [] => Some []
  | Some a :: l' =>
      match all_some l' with Some r => Some (a :: r) | None => None end
  | None :: _ => None
  end.

Definition data_of_json (v : Json.value) : option RegistrationData :=
  match get_string "timestamp" v, Json.get "registrations" v with
  | Some ts, Some (Json.Arr items) =>
      match all_some (map registration_of_json items) with
      | Some regs => Some {| timestamp := ts; registrations := regs |}
      | None => None
      end
  | _, _ => None
  end.

(** The tokens of the snapshot document, and the separator of its array
    elements. *)
Definition tokens_of_registration (r : BasketballRegistration) : list Json.token :=
  [ Json.TLBrace;
    Json.TString "polideportivo"; Json.TColon; Json.TString (polideportivo r); Json.TComma;
    Json.TString "categoria"; Json.TColon; Json.TString (categoria r); Json.TComma;
    Json.TString "actividad"; Json.TColon; Json.TString (actividad r); Json.TComma;
    Json.TString "subcategoria"; Json.TColon; Json.TString (subcategoria r); Json.TComma;
    Json.TString "horario"; Json.TColon; Json.TString (horario r);
    Json.TRBrace ].

Fixpoint tokens_of_elements (regs : list BasketballRegistration) : list Json.token :=
  match regs with
  | [] => []
  | [r] => tokens_of_registration r
  | r :: regs' => (tokens_of_registration r ++ Json.TComma :: tokens_of_elements regs')
  end.

Definition tokens_of_data (d : RegistrationData) : list Json.token :=
  ([ Json.TLBrace; Json.TString "timestamp"; Json.TColon; Json.TString (timestamp d);
    Json.TComma; Json.TString "registrations"; Json.TColon; Json.TLBracket ]
   ++ tokens_of_elements (registrations d) ++ [Json.TRBracket; Json.TRBrace]).

Definition separator : string := "," ++ Json.nl ++ "    ".

(* ------------------------------------------------------------------ *)
(** * The message of [sendEmail] *)
(* ------------------------------------------------------------------ *)

Record Msg := {
  to : string;
  from : string;
  subject : string;
  html : string
}.

Module Mail.

Definition dq : string := Json.dq.

(** One table row: the template of [registrations.map]. *)
Definition tableRow (item : BasketballRegistration) : string :=
  "
      <tr style=" ++ dq ++ "border-bottom: 1px solid #e0e0e0;" ++ dq ++ ">
        <td style=" ++ dq ++ "padding: 12px; text-align: left;" ++ dq ++ ">" ++ polideportivo item ++ "</td>
        <td style=" ++ dq ++ "padding: 12px; text-align: left;" ++ dq ++ ">" ++ categoria item ++ "</td>
        <td style=" ++ dq ++ "padding: 12px; text-align: left;" ++ dq ++ ">" ++ actividad item ++ "</td>
        <td style=" ++ dq ++ "padding: 12px; text-align: left;" ++ dq ++ ">" ++ subcategoria item ++ "</td>
        <td style=" ++ dq ++ "padding: 12px; text-align: left;" ++ dq ++ ">" ++ horario item ++ "</td>
      </tr>
    ".

(** The footer's link to the snapshot, present when [blobUrl] is truthy. *)
Definition jsonLink (blobUrl : option string) : string :=
  match blobUrl with
  | Some url =>
      if JsString.truthy blobUrl then
        "<p style=" ++ dq ++ "margin: 5px 0;" ++ dq ++ ">🔗 <a href=" ++ dq ++ url ++ dq ++ ">Ver datos en formato JSON</a></p>"
      else ""
  | None => ""
  end.

(** The page for a non-empty set; [fecha] is
    [new Date().toLocaleDateString('es-AR')]. *)
Definition resultsHtml (registrations : list BasketballRegistration)
  (blobUrl : option string) (fecha : string) : string :=
  let tableRows := JsString.join (map tableRow registrations) in
  "
      <!DOCTYPE html>
      <html lang=" ++ dq ++ "es" ++ dq ++ ">
      <head>
        <meta charset=" ++ dq ++ "UTF-8" ++ dq ++ ">
        <meta name=" ++ dq ++ "viewport" ++ dq ++ " content=" ++ dq ++ "width=device-width, initial-scale=1.0" ++ dq ++ ">
        <title>Inscripciones Básquet</title>
      </head>
      <body style=" ++ dq ++ "font-family: 'Arial', sans-serif; margin: 0; padding: 20px; background-color: #f7f7f7;" ++ dq ++ ">
        <div style=" ++ dq ++ "max-width: 800px; margin: 0 auto; background-color: white; border-radius: 10px; box-shadow: 0 2px 10px rgba(0,0,0,0.1);" ++ dq ++ ">
          <!-- Header -->
          <div style=" ++ dq ++ "background-color: #2c3e50; padding: 25px; border-radius: 10px 10px 0 0;" ++ dq ++ ">
            <h1 style=" ++ dq ++ "color: white; margin: 0; font-size: 24px; display: flex; align-items: center; gap: 10px;" ++ dq ++ ">
              🏀 Inscripciones Disponibles
            </h1>
          </div>

          <!-- Content -->
          <div style=" ++ dq ++ "padding: 25px;" ++ dq ++ ">
            <p style=" ++ dq ++ "color: #666; margin-bottom: 25px; font-size: 15px;" ++ dq ++ ">
              Se encontraron <strong>" ++ JsString.of_nat (length registrations) ++ " inscripciones</strong> disponibles 
              para básquet. Fecha de consulta: " ++ fecha ++ "
            </p>

            <!-- Table -->
            <div style=" ++ dq ++ "overflow-x: auto;" ++ dq ++ ">
              <table style=" ++ dq ++ "width: 100%; border-collapse: collapse; margin-bottom: 25px;" ++ dq ++ ">
                <thead>
                  <tr style=" ++ dq ++ "background-color: #f8f9fa; color: #2c3e50;" ++ dq ++ ">
                    <th style=" ++ dq ++ "padding: 15px; text-align: left; min-width: 150px;" ++ dq ++ ">Polideportivo</th>
                    <th style=" ++ dq ++ "padding: 15px; text-align: left;" ++ dq ++ ">Categoría</th>
                    <th style=" ++ dq ++ "padding: 15px; text-align: left;" ++ dq ++ ">Actividad</th>
                    <th style=" ++ dq ++ "padding: 15px; text-align: left;" ++ dq ++ ">Subcategoría</th>
                    <th style=" ++ dq ++ "padding: 15px; text-align: left;" ++ dq ++ ">Horario</th>
                  </tr>
                </thead>
                <tbody>
                  " ++ tableRows ++ "
                </tbody>
              </table>
            </div>

            <!-- Footer -->
            <div style=" ++ dq ++ "border-top: 1px solid #eee; padding-top: 20px; color: #666; font-size: 14px;" ++ dq ++ ">
              <p style=" ++ dq ++ "margin: 5px 0;" ++ dq ++ ">📅 Actualizado automáticamente cada " ++ JsString.of_Z SCRAPE_INTERVAL_HOURS ++ " horas</p>
              <p style=" ++ dq ++ "margin: 5px 0;" ++ dq ++ ">⚠️ Este es un mensaje automático, por favor no responder</p>
              " ++ jsonLink blobUrl ++ "
            </div>
          </div>
        </div>
      </body>
      </html>
    ".

(** The page for an empty set. *)
Definition noResultsHtml : string :=
  "
      <div style=" ++ dq ++ "max-width: 600px; margin: 0 auto; padding: 30px; background-color: #fff3cd; border-radius: 8px; text-align: center;" ++ dq ++ ">
        <h2 style=" ++ dq ++ "color: #856404; margin-top: 0;" ++ dq ++ ">⚠️ No hay inscripciones disponibles</h2>
        <p style=" ++ dq ++ "color: #856404;" ++ dq ++ ">No se encontraron inscripciones de básquet en este momento.</p>
        <p style=" ++ dq ++ "color: #856404;" ++ dq ++ ">Prueba nuevamente más tarde o verifica directamente en el sitio.</p>
      </div>
    ".

Definition htmlContent (registrations : list BasketballRegistration)
  (blobUrl : option string) (fecha : string) : string :=
  if Nat.ltb 0 (length registrations)
  then resultsHtml registrations blobUrl fecha
  else noResultsHtml.

Definition subjectLine (registrations : list BasketballRegistration) : string :=
  "🏀 " ++ (if Nat.ltb 0 (length registrations)
            then "Nuevas Inscripciones Disponibles!"
            else "Sin inscripciones disponibles").

(** The object [msg] built by [sendEmail]. *)
Definition message (recipient sender : string)
  (registrations : list BasketballRegistration) (blobUrl : option string)
  (fecha : string) : Msg :=
  {| to := recipient;
     from := sender;
     subject := subjectLine registrations;
     html := htmlContent registrations blobUrl fecha |}.

End Mail.

(* ------------------------------------------------------------------ *)
(** * The world outside the program *)
(* ------------------------------------------------------------------ *)

(** The awaited calls of the program. *)
Inductive Op :=
| OpLaunch              (* puppeteer.launch *)
| OpNewPage             (* browser.newPage *)
| OpGoto                (* step 1: page.goto *)
| OpClickRadio          (* step 2: page.evaluate, click on the radio button *)
| OpSelectCategoria     (* step 3: page.select *)
| OpSelectActividad     (* step 4: page.select *)
| OpClickSearch         (* step 5: page.click *)
| OpWaitForNavigation   (* step 5: page.waitForNavigation *)
| OpWaitForSelector     (* step 6: page.waitForSelector *)
| OpExtractRows         (* step 6: page.evaluate, the row extraction *)
| OpPut                 (* put of @vercel/blob *)
| OpSend                (* sgMail.send *)
| OpScreenshot          (* page.screenshot *)
| OpClose               (* browser.close *)
| OpList                (* list of @vercel/blob *)
| OpFetch               (* fetch *)
| OpText.               (* response.text *)

(** An exception: the call that threw it and its message. *)
Record Error := { thrown_by : Op; message : string }.

(** The specification's taxonomy, by the call that throws. *)
Definition is_ExtractionError (e : Error) : bool :=
  match thrown_by e with
  | OpGoto | OpClickRadio | OpSelectCategoria | OpSelectActividad
  | OpClickSearch | OpWaitForNavigation | OpWaitForSelector
  | OpExtractRows => true
  | _ => false
  end.

Definition is_StorageError (e : Error) : bool :=
  match thrown_by e with OpPut => true | _ => false end.

Definition is_DeliveryError (e : Error) : bool :=
  match thrown_by e with OpSend => true | _ => false end.

(** How an awaited promise settles. *)
Inductive Settled (A : Type) :=
| Fulfilled (a : A)
| Rejected (reason : string).
Arguments Fulfilled {A} a.
Arguments Rejected {A} reason.

(** What [fetch] resolves to: the status of the response, and what
    [response.text()] settles to. *)
Record Fetched := {
  fetched_status : Z;
  fetched_text : Settled string
}.

(** The environment of one run.  [waitForSelector] rejects (puppeteer's
    TimeoutError) when the element has not appeared within the timeout;
    [send] is asked with the number of earlier attempts of the run. *)
Record Env := {
  RECIPIENT_EMAIL : option string;          (* process.env.RECIPIENT_EMAIL *)
  FROM_EMAIL : option string;               (* process.env.FROM_EMAIL *)
  Date_now : Z;                             (* the clock read by saveData *)
  toLocaleDateString_esAR : string;         (* the date shown in the mail *)
  launch : Settled unit;
  newPage : Settled unit;
  goto : Settled unit;
  clickRadio : Settled unit;
  selectCategoria : Settled unit;
  selectActividad : Settled unit;
  clickSearch : Settled unit;
  waitForNavigation : Settled unit;
  waitForSelector : Settled unit;
  resultsTable : Settled Dom.Node;          (* the element of the table's id, as step 6's evaluate sees it *)
  put : string -> string -> Settled string; (* pathname, body: the blob's url *)
  screenshot : Settled string;
  send : nat -> Msg -> Settled unit;
  close : Settled unit;
  listBlobs : Settled unit;                 (* whether the store can be listed *)
  fetchUrl : string -> Settled Fetched      (* fetch of an address *)
}.

Record Blob := {
  pathname : string;
  url : string;
  content : string;
  contentType : string
}.

(** What a run does, in order: console output, awaited calls, and the
    entries into [saveData] and [sendEmail] with their arguments. *)
Inductive Event :=
| console_log (text : string)
| console_error (text : string) (error : option Error)
| console_table (rows : list BasketballRegistration)
| puppeteer_launch
| browser_newPage
| page_goto (address : string) (timeout : Z)
| page_evaluate_click (selector : string)
| setTimeout (ms : Z)
| page_select (selector value : string)
| page_click (selector : string)
| page_waitForNavigation
| page_waitForSelector (selector : string) (timeout : Z)
| page_evaluate_rows (selector : string)
| page_screenshot
| blob_put (name body type : string)
| sgMail_send (msg : Msg)
| browser_close
| blob_list
| http_fetch (address : string)
| response_text
| setInterval (ms : Z)
| unhandledRejection (error : Error)
| call_saveData (registrations : list BasketballRegistration)
| call_sendEmail (registrations : list BasketballRegistration)
                 (blobUrl : option string).

(** The state threaded through a run: the trace so far (oldest first),
    the blob store, the messages the mail channel accepted, and the local
    variable [page] of [scrape]. *)
Record World := {
  trace : list Event;
  blobs : list Blob;
  outbox : list Msg;
  page : bool                 (* [page] is assigned *)
}.

Definition empty_world : World :=
  {| trace := []; blobs := []; outbox := []; page := false |}.

(* ------------------------------------------------------------------ *)
(** * Asynchronous code: state and exceptions *)
(* ------------------------------------------------------------------ *)

Inductive Completion (A : Type) :=
| Normal (a : A)
| Throw (e : Error).
Arguments Normal {A} a.
Arguments Throw {A} e.

Definition M (A : Type) : Type := World -> Completion A * World.

Definition ret {A : Type} (a : A) : M A := fun w => (Normal a, w).

Definition throw {A : Type} (e : Error) : M A := fun w => (Throw e, w).

Definition bind {A B : Type} (m : M A) (k : A -> M B) : M B :=
  fun w =>
    match m w with
    | (Normal a, w') => k a w'
    | (Throw e, w') => (Throw e, w')
    end.

Notation "x <- m ;; k" := (bind m (fun x => k))
  (at level 61, m at next level, right associativity).
Notation "m ;; k" := (bind m (fun _ => k))
  (at level 61, right associativity).

(** [try { body } catch (error) { handler }] *)
Definition tryCatch {A : Type} (body : M A) (handler : Error -> M A) : M A :=
  fun w =>
    match body w with
    | (Normal a, w') => (Normal a, w')
    | (Throw e, w') => handler e w'
    end.

(** [try { body } finally { final }]: [final] always runs; its own
    exception replaces the completion of [body]. *)
Definition tryFinally {A : Type} (body : M A) (final : M unit) : M A :=
  fun w =>
    match body w with
    | (c, w') =>
      match final w' with
      | (Normal _, w'') => (c, w'')
      | (Throw e, w'') => (Throw e, w'')
      end
    end.

(** The elementary changes of the world. *)
Definition add_event (w : World) (e : Event) : World :=
  {| trace := trace w ++ [e]; blobs := blobs w; outbox := outbox w;
     page := page w |}.

Definition set_page (w : World) (b : bool) : World :=
  {| trace := trace w; blobs := blobs w; outbox := outbox w; page := b |}.

(** A fulfilled [put] replaces the blob of that pathname. *)
Definition put_blob (w : World) (b : Blob) : World :=
  {| trace := trace w;
     blobs := b :: filter (fun b' => negb (String.eqb (pathname b') (pathname b)))
                          (blobs w);
     outbox := outbox w; page := page w |}.

Definition add_outbox (w : World) (m : Msg) : World :=
  {| trace := trace w; blobs := blobs w; outbox := outbox w ++ [m];
     page := page w |}.

Definition emit (e : Event) : M unit :=
  fun w => (Normal tt, add_event w e).

(** The promise of a call settles: its value, or its rejection thrown. *)
Definition settle {A : Type} (op : Op) (s : Settled A) : M A :=
  match s with
  | Fulfilled a => ret a
  | Rejected reason => throw {| thrown_by := op; message := reason |}
  end.

(** [await] of a call: the call is made, which is recorded, then its
    promise settles. *)
Definition await {A : Type} (op : Op) (e : Event) (s : Settled A) : M A :=
  emit e ;;
  settle op s.

Definition log (text : string) : M unit := emit (console_log text).

Definition log_error (text : string) (error : option Error) : M unit :=
  emit (console_error text error).

Definition assign_page (b : bool) : M unit :=
  fun w => (Normal tt, set_page w b).

Definition read_page : M bool := fun w => (Normal (page w), w).

Definition store (b : Blob) : M unit :=
  fun w => (Normal tt, put_blob w b).

Definition deliver (m : Msg) : M unit :=
  fun w => (Normal tt, add_outbox w m).

(** Logical time: the number of events so far. *)
Definition logical_time : M nat :=
  fun w => (Normal (length (trace w)), w).

(** [put(name, body, { access: 'public', contentType })] *)
Definition blob_put_call (env : Env) (name body type : string) : M string :=
  location <- await OpPut (blob_put name body type) (put env name body) ;;
  store {| pathname := name; url := location; content := body;
           contentType := type |} ;;
  ret location.

(** [sgMail.send(msg)] *)
Definition sgMail_send_call (env : Env) (msg : Msg) : M unit :=
  now <- logical_time ;;
  await OpSend (sgMail_send msg) (send env now msg) ;;
  deliver msg.

(* ------------------------------------------------------------------ *)
(** * [BasketballRegistrationScraper] *)
(* ------------------------------------------------------------------ *)

Definition nl : string := Json.nl.

(** [saveData(registrations)] *)
Definition saveData (env : Env) (registrations : list BasketballRegistration)
  : M string :=
  emit (call_saveData registrations) ;;
  tryCatch
    (let data := {| timestamp := JsDate.toISOString (Date_now env);
                    registrations := registrations |} in
     location <- blob_put_call env BLOB_FILENAME
                   (Json.stringify (json_of_data data) 2) "application/json" ;;
     log ("✓ Data saved successfully to " ++ location) ;;
     ret location)
    (fun error =>
       log_error "✗ Error saving data:" (Some error) ;;
       throw error).

(** The object [msg] of [sendEmail] in the environment [env]. *)
Definition message_for (env : Env) (registrations : list BasketballRegistration)
  (blobUrl : option string) : Msg :=
  Mail.message (JsString.or_empty (RECIPIENT_EMAIL env))
    (JsString.or_empty (FROM_EMAIL env))
    registrations blobUrl (toLocaleDateString_esAR env).

(** [sendEmail(registrations, blobUrl?)] *)
Definition sendEmail (env : Env) (registrations : list BasketballRegistration)
  (blobUrl : option string) : M unit :=
  emit (call_sendEmail registrations blobUrl) ;;
  if negb (JsString.truthy (RECIPIENT_EMAIL env))
     || negb (JsString.truthy (FROM_EMAIL env))
  then
    log_error "✗ Missing email configuration" None ;;
    ret tt
  else
    let msg := message_for env registrations blobUrl in
    tryCatch
      (sgMail_send_call env msg ;;
       log "✓ Email sent successfully")
      (fun error =>
         log_error "✗ Error sending email:" (Some error) ;;
         throw error).

(** Steps 1 to 6 of the [try] block of [scrape]: the browsing script up
    to the extracted rows. *)
Definition extraction_steps (env : Env) : M (list BasketballRegistration) :=
  await OpNewPage browser_newPage (newPage env) ;;
  assign_page true ;;
  log "▸ Browser initialized" ;;
  (* Step 1 *)
  log "▸ Navigating to page..." ;;
  await OpGoto (page_goto URL 60000) (goto env) ;;
  log "✓ Page loaded" ;;
  (* Step 2 *)
  log ("▸ Selecting " ++ Json.dq ++ "Por Categoría" ++ Json.dq ++ "...") ;;
  await OpClickRadio (page_evaluate_click "#MainContent_TipoBusqueda_1")
        (clickRadio env) ;;
  emit (setTimeout 3000) ;;
  log "✓ Option selected" ;;
  (* Step 3 *)
  log "▸ Selecting DEPORTE category..." ;;
  await OpSelectCategoria (page_select "#MainContent_ddlCategoria" "1")
        (selectCategoria env) ;;
  emit (setTimeout 3000) ;;
  log "✓ Category selected" ;;
  (* Step 4 *)
  log "▸ Selecting BASQUET activity..." ;;
  await OpSelectActividad (page_select "#MainContent_ddlActividad" "16")
        (selectActividad env) ;;
  emit (setTimeout 3000) ;;
  log "✓ Activity selected" ;;
  (* Step 5: both promises are created, then Promise.all is awaited *)
  log "▸ Clicking Search button..." ;;
  emit (page_click "#MainContent_btnBuscarCat") ;;
  emit page_waitForNavigation ;;
  match clickSearch env, waitForNavigation env with
  | Rejected reason, _ =>
      throw {| thrown_by := OpClickSearch; message := reason |}
  | Fulfilled _, Rejected reason =>
      throw {| thrown_by := OpWaitForNavigation; message := reason |}
  | Fulfilled _, Fulfilled _ => ret tt
  end ;;
  log "✓ Search performed" ;;
  (* Step 6 *)
  log "▸ Looking for results..." ;;
  await OpWaitForSelector
        (page_waitForSelector "#MainContent_gvBuscarActXCat" 10000)
        (waitForSelector env) ;;
  log "✓ Results table found" ;;
  table <- await OpExtractRows
             (page_evaluate_rows "#MainContent_gvBuscarActXCat tr:not(:first-child)")
             (resultsTable env) ;;
  ret (Dom.extractRegistrations table).

(** The [try] block of [scrape]: steps 1 to 6, then the report on the
    console and step 7. *)
Definition try_block (env : Env) : M unit :=
  registrations <- extraction_steps env ;;
  log (nl ++ "=== RESULTS FOUND ===") ;;
  log ("▸ Total registrations: " ++ JsString.of_nat (length registrations)) ;;
  emit (console_table registrations) ;;
  (* Step 7 *)
  blobUrl <- saveData env registrations ;;
  sendEmail env registrations (Some blobUrl).

(** The inner [try]/[catch] of the [catch] block: the screenshot is taken
    and stored; an exception of either call is reported and dropped. *)
Definition capture_screenshot (env : Env) : M unit :=
  tryCatch
    (image <- await OpScreenshot page_screenshot (screenshot env) ;;
     location <- blob_put_call env "error-screenshot.png" image "image/png" ;;
     log ("▸ Error screenshot saved to " ++ location))
    (fun screenshotError =>
       log_error "✗ Error saving screenshot:" (Some screenshotError)).

(** The [catch] block of [scrape]. *)
Definition catch_block (env : Env) (error : Error) : M unit :=
  log_error (nl ++ "=== ERROR ===") None ;;
  log_error ("✗ Error during process: " ++ message error) None ;;
  has_page <- read_page ;;
  if (has_page : bool) then
    capture_screenshot env ;;
    sendEmail env [] None
  else ret tt.

(** The [finally] block of [scrape]. *)
Definition finally_block (env : Env) : M unit :=
  await OpClose browser_close (close env) ;;
  log (nl ++ "=== Process completed ===") ;;
  log "▸ Browser closed".

(** [scrape()] *)
Definition scrape (env : Env) : M unit :=
  log (nl ++ "=== Starting scraping process ===") ;;
  await OpLaunch puppeteer_launch (launch env) ;;
  assign_page false ;;
  tryFinally (tryCatch (try_block env) (catch_block env)) (finally_block env).

(** [scrape()] as its caller sees it: the call runs up to the first
    [await] and returns its promise; the rest runs once the promise of
    the launch has settled. *)
Definition scrape_until_first_await : M unit :=
  log (nl ++ "=== Starting scraping process ===") ;;
  emit puppeteer_launch.

Definition scrape_from_first_await (env : Env) : M unit :=
  settle OpLaunch (launch env) ;;
  assign_page false ;;
  tryFinally (tryCatch (try_block env) (catch_block env)) (finally_block env).


(** [start()]: [env] is the environment of the immediate run. *)
Definition start (env : Env) : M unit :=
  scrape env ;;
  emit (setInterval (SCRAPE_INTERVAL_HOURS * 60 * 60 * 1000)) ;;
  log ("Scheduled to run every " ++ JsString.of_Z SCRAPE_INTERVAL_HOURS ++ " hours").

(** The timer's later runs, one environment per tick, up to the run that
    ends the process; the timer fires only once it is registered. *)
Definition is_setInterval (e : Event) : bool :=
  match e with setInterval _ => true | _ => false end.



(* ------------------------------------------------------------------ *)
(** * The read route: [GET /api/basketball-registrations] *)
(* ------------------------------------------------------------------ *)

Record Response := {
  status : Z;
  body : string;
  headers : list (string * string)
}.

Definition error_body (text : string) : string :=
  Json.stringify (Json.Obj [("error", Json.Str text)]) 0.

Definition json_response (code : Z) (text : string) : Response :=
  {| status := code; body := error_body text;
     headers := [("Content-Type", "application/json")] |}.

Definition find_blob (name : string) : M (option Blob) :=
  fun w => (Normal (find (fun blob => String.eqb (pathname blob) name) (blobs w)), w).

Definition GET (env : Env) : M Response :=
  tryCatch
    (await OpList blob_list (listBlobs env) ;;
     found <- find_blob BLOB_FILENAME ;;
     match found with
     | None => ret (json_response 404 "No data found")
     | Some regBlob =>
         response <- await OpFetch (http_fetch (url regBlob))
                       (fetchUrl env (url regBlob)) ;;
         data <- await OpText response_text (fetched_text response) ;;
         ret {| status := 200; body := data;
                headers := [("Content-Type", "application/json");
                            ("Cache-Control", "no-cache")] |}
     end)
    (fun error => ret (json_response 500 "Failed to fetch data")).


(* ------------------------------------------------------------------ *)
(** * Observing a run *)
(* ------------------------------------------------------------------ *)

(** How steps 1 to 6 complete; the world plays no part in it. *)
Definition extraction (env : Env) : Completion (list BasketballRegistration) :=
  fst (extraction_steps env empty_world).

(** The events added to the trace, and the messages the mail channel
    accepted, between a world and a later one. *)
Definition events_since (w0 w' : World) : list Event :=
  skipn (length (trace w0)) (trace w').

Definition delivered_since (w0 w' : World) : list Msg :=
  skipn (length (outbox w0)) (outbox w').

(** The events of a run of [scrape] from [w], and the messages accepted
    during it. *)
Definition run_events (env : Env) (w : World) : list Event :=
  events_since w (snd (scrape env w)).

Definition run_delivered (env : Env) (w : World) : list Msg :=
  delivered_since w (snd (scrape env w)).

(** The messages handed to [sgMail.send]. *)
Definition sent_messages (evs : list Event) : list Msg :=
  flat_map (fun e => match e with sgMail_send m => [m] | _ => [] end) evs.

(** The calls of [sendEmail], with their arguments. *)
Definition notify_calls (evs : list Event)
  : list (list BasketballRegistration * option string) :=
  flat_map (fun e => match e with
                     | call_sendEmail regs blobUrl => [(regs, blobUrl)]
                     | _ => []
                     end) evs.

(** The bodies written under a pathname. *)
Definition writes_to (name : string) (evs : list Event) : list string :=
  flat_map (fun e => match e with
                     | blob_put n body _ => if String.eqb n name then [body] else []
                     | _ => []
                     end) evs.

Definition is_close (e : Event) : bool :=
  match e with browser_close => true | _ => false end.

Definition is_console (e : Event) : bool :=
  match e with
  | console_log _ | console_error _ _ | console_table _ => true
  | _ => false
  end.

(** The persisted snapshot, if any. *)
Definition snapshot (w : World) : option Blob :=
  find (fun blob => String.eqb (pathname blob) BLOB_FILENAME) (blobs w).

(** Both addresses are configured. *)
Definition configured (env : Env) : bool :=
  JsString.truthy (RECIPIENT_EMAIL env) && JsString.truthy (FROM_EMAIL env).

(** The message of an empty set. *)
Definition no_results_message (env : Env) : Msg := message_for env [] None.

(** The snapshot [saveData] builds for a registration sequence, and the
    document it writes. *)
Definition snapshot_data (env : Env) (regs : list BasketballRegistration)
  : RegistrationData :=
  {| timestamp := JsDate.toISOString (Date_now env); registrations := regs |}.

Definition snapshot_body (env : Env) (regs : list BasketballRegistration) : string :=
  Json.stringify (json_of_data (snapshot_data env regs)) 2.

(** Reading a document back: [JSON.parse], then the fields of
    [RegistrationData]. *)
Definition load (text : string) : option RegistrationData :=
  match Json.parse text with
  | Some v => data_of_json v
  | None => None
  end.

(** The [try] and [catch] blocks of [scrape] together. *)
Definition try_and_catch (env : Env) : M unit :=
  tryCatch (try_block env) (catch_block env).

(** The events of steps 1 to 6. *)
Definition browsing (e : Event) : bool :=
  match e with
  | console_log _ | browser_newPage | page_goto _ _ | page_evaluate_click _
  | setTimeout _ | page_select _ _ | page_click _ | page_waitForNavigation
  | page_waitForSelector _ _ | page_evaluate_rows _ => true
  | _ => false
  end.

(** Events among which nothing is sent, no notification is called, the
    snapshot is not written and the browser is not closed. *)
Record quiet (evs : list Event) : Prop := {
  quiet_sent : sent_messages evs = [];
  quiet_calls : notify_calls evs = [];
  quiet_writes : writes_to BLOB_FILENAME evs = [];
  quiet_close : filter is_close evs = [];
  quiet_timer : existsb is_setInterval evs = false
}.

(** The first event of a run, and the world in which the [try] block
    starts once the browser is launched. *)
Definition starting : Event :=
  console_log (nl ++ "=== Starting scraping process ===").

Definition world_after_launch (w : World) : World :=
  set_page (add_event (add_event w starting) puppeteer_launch) false.

(** The diagnostic capture throws: the screenshot, or the write of it. *)
Definition capture_fails (env : Env) : Prop :=
  (exists reason, screenshot env = Rejected reason)
  \/ (exists image reason,
        screenshot env = Fulfilled image
        /\ put env "error-screenshot.png" image = Rejected reason).

(** The script up to the search (steps 1 to 5) goes through. *)
Definition search_performed (env : Env) : Prop :=
  newPage env = Fulfilled tt /\ goto env = Fulfilled tt
  /\ clickRadio env = Fulfilled tt /\ selectCategoria env = Fulfilled tt
  /\ selectActividad env = Fulfilled tt /\ clickSearch env = Fulfilled tt
  /\ waitForNavigation env = Fulfilled tt.

(* ------------------------------------------------------------------ *)
(** * Sample environments *)
(* ------------------------------------------------------------------ *)

Module Sample.

Definition th (s : string) : Dom.Node := Dom.Element Dom.TH [Dom.Text s].

Definition td (s : string) : Dom.Node := Dom.Element Dom.TD [Dom.Text s].

Definition header : Dom.Node :=
  Dom.Element Dom.TR
    [th ""; th "Polideportivo"; th "Categoría"; th "Actividad";
     th "Subcategoría"; th "Horario"].

Definition row1 : Dom.Node :=
  Dom.Element Dom.TR
    [td "ver"; td " Libertad "; td "DEPORTE"; td "BASQUET"; td " Sub 13";
     td "Lun 18:00 "].

Definition row2 : Dom.Node :=
  Dom.Element Dom.TR [td "ver"; td "Colinas"; td "DEPORTE"; td "BASQUET"].

(** A GridView with two result rows, and one with the header only. *)
Definition two_rows : Dom.Node :=
  Dom.Element Dom.TABLE
    [Dom.Element Dom.TBODY
       [header; Dom.Text Json.nl; row1; Dom.Text Json.nl; row2; Dom.Text Json.nl]].

Definition header_only : Dom.Node :=
  Dom.Element Dom.TABLE [Dom.Element Dom.TBODY [header; Dom.Text Json.nl]].

(** The same two result rows, the header in a row group of its own. *)
Definition grouped : Dom.Node :=
  Dom.Element Dom.TABLE
    [Dom.Element Dom.THEAD [header]; Dom.Element Dom.TBODY [row1; row2]].

Definition blob_url (name body : string) : Settled string :=
  Fulfilled ("https://blob.example/" ++ name).

Definition accept (t : nat) (m : Msg) : Settled unit := Fulfilled tt.
Definition store_down (name body : string) : Settled string :=
  Rejected "store unavailable".

(** An environment in which every call succeeds but for the given ones. *)
Definition env (recipient : option string) (navigation selector : Settled unit)
  (table : Dom.Node) (put_outcome : string -> string -> Settled string)
  (shot : Settled string) (send_outcome : nat -> Msg -> Settled unit) : Env :=
  {| RECIPIENT_EMAIL := recipient;
     FROM_EMAIL := Some "scraper@example.org";
     Date_now := 1793557800123;
     toLocaleDateString_esAR := "1/11/2026";
     launch := Fulfilled tt;
     newPage := Fulfilled tt;
     goto := navigation;
     clickRadio := Fulfilled tt;
     selectCategoria := Fulfilled tt;
     selectActividad := Fulfilled tt;
     clickSearch := Fulfilled tt;
     waitForNavigation := Fulfilled tt;
     waitForSelector := selector;
     resultsTable := Fulfilled table;
     put := put_outcome;
     screenshot := shot;
     send := send_outcome;
     close := Fulfilled tt;
     listBlobs := Fulfilled tt;
     fetchUrl := fun _ => Rejected "fetch failed" |}.

Definition someone : option string := Some "coach@example.org".
Definition timeout : Settled unit :=
  Rejected "TimeoutError: Waiting for selector failed: 10000ms exceeded".

(** Two result rows, everything works. *)
Definition found : Env :=
  env someone (Fulfilled tt) (Fulfilled tt) two_rows blob_url (Fulfilled "PNG") accept.

(** The table holds its header only. *)
Definition nothing_found : Env :=
  env someone (Fulfilled tt) (Fulfilled tt) header_only blob_url (Fulfilled "PNG") accept.

(** The result table does not appear within the timeout. *)
Definition table_missing : Env :=
  env someone (Fulfilled tt) timeout header_only blob_url (Fulfilled "PNG") accept.

(** The page cannot be loaded. *)
Definition unreachable : Env :=
  env someone (Rejected "net::ERR_NAME_NOT_RESOLVED") (Fulfilled tt) two_rows
      blob_url (Fulfilled "PNG") accept.

(** The page cannot be loaded and the screenshot fails too. *)
Definition unreachable_no_capture : Env :=
  env someone (Rejected "net::ERR_NAME_NOT_RESOLVED") (Fulfilled tt) two_rows
      blob_url (Rejected "Target closed") accept.


(** Two result rows, the blob store rejects every write. *)
Definition store_rejects : Env :=
  env someone (Fulfilled tt) (Fulfilled tt) two_rows store_down (Fulfilled "PNG") accept.

(** Two result rows, no recipient configured. *)
Definition no_recipient : Env :=
  env None (Fulfilled tt) (Fulfilled tt) two_rows blob_url (Fulfilled "PNG") accept.

End Sample.

(* ------------------------------------------------------------------ *)
(** * More sample environments *)
(* ------------------------------------------------------------------ *)

Module Cases.

(** [Sample.found] with another outcome of the launch and of the closing
    of the browser. *)
Definition browser (launched closed : Settled unit) : Env :=
  {| RECIPIENT_EMAIL := RECIPIENT_EMAIL Sample.found;
     FROM_EMAIL := FROM_EMAIL Sample.found;
     Date_now := Date_now Sample.found;
     toLocaleDateString_esAR := toLocaleDateString_esAR Sample.found;
     launch := launched;
     newPage := newPage Sample.found;
     goto := goto Sample.found;
     clickRadio := clickRadio Sample.found;
     selectCategoria := selectCategoria Sample.found;
     selectActividad := selectActividad Sample.found;
     clickSearch := clickSearch Sample.found;
     waitForNavigation := waitForNavigation Sample.found;
     waitForSelector := waitForSelector Sample.found;
     resultsTable := resultsTable Sample.found;
     put := put Sample.found;
     screenshot := screenshot Sample.found;
     send := send Sample.found;
     close := closed;
     listBlobs := listBlobs Sample.found;
     fetchUrl := fetchUrl Sample.found |}.

(** The browser cannot be launched. *)
Definition no_browser : Env :=
  browser (Rejected "Failed to launch the browser process") (Fulfilled tt).

(** Everything works but the closing of the browser. *)
Definition close_fails : Env :=
  browser (Fulfilled tt) (Rejected "Protocol error: Connection closed").

(** [Sample.found] as the read route meets it: the download of every
    address answers with the given status and text. *)
Definition reader (code : Z) (text : string) : Env :=
  {| RECIPIENT_EMAIL := RECIPIENT_EMAIL Sample.found;
     FROM_EMAIL := FROM_EMAIL Sample.found;
     Date_now := Date_now Sample.found;
     toLocaleDateString_esAR := toLocaleDateString_esAR Sample.found;
     launch := launch Sample.found;
     newPage := newPage Sample.found;
     goto := goto Sample.found;
     clickRadio := clickRadio Sample.found;
     selectCategoria := selectCategoria Sample.found;
     selectActividad := selectActividad Sample.found;
     clickSearch := clickSearch Sample.found;
     waitForNavigation := waitForNavigation Sample.found;
     waitForSelector := waitForSelector Sample.found;
     resultsTable := resultsTable Sample.found;
     put := put Sample.found;
     screenshot := screenshot Sample.found;
     send := send Sample.found;
     close := close Sample.found;
     listBlobs := Fulfilled tt;
     fetchUrl := fun _ => Fulfilled {| fetched_status := code;
                                       fetched_text := Fulfilled text |} |}.

(** A store that holds one blob the program knows nothing of. *)
Definition notes : Blob :=
  {| pathname := "notes.txt"; url := "https://blob.example/notes.txt";
     content := "keep"; contentType := "text/plain" |}.

Definition with_notes : World :=
  {| trace := []; blobs := [notes]; outbox := []; page := false |}.

(** A store that holds a snapshot. *)
Definition stored : Blob :=
  {| pathname := BLOB_FILENAME;
     url := "https://blob.example/basketball-registrations.json";
     content := "{}"; contentType := "application/json" |}.

Definition with_snapshot : World :=
  {| trace := []; blobs := [stored]; outbox := []; page := false |}.

End Cases.

(* ------------------------------------------------------------------ *)
(** * More observations *)
(* ------------------------------------------------------------------ *)

(** The blob stored under a pathname, if any. *)
Definition blob_named (name : string) (w : World) : option Blob :=
  find (fun blob => String.eqb (pathname blob) name) (blobs w).

(** A relation between the world a program starts in and the world it
    leaves, kept from every start. *)
Definition keeps {A : Type} (R : World -> World -> Prop) (m : M A) : Prop :=
  forall w, R w (snd (m w)).

(** Relations that every step outside the blob store keeps. *)
Record stable (R : World -> World -> Prop) : Prop := {
  stable_refl : forall w, R w w;
  stable_trans : forall a b c, R a b -> R b c -> R a c;
  stable_event : forall w e, R w (add_event w e);
  stable_page : forall w b, R w (set_page w b);
  stable_outbox : forall w m, R w (add_outbox w m)
}.

(** The blob of one pathname is left as it was. *)
Definition same_blob (name : string) (w w' : World) : Prop :=
  blob_named name w' = blob_named name w.

(** A text occurs in another. *)
Definition contains (text part : string) : Prop :=
  exists before after, text = before ++ part ++ after.

(** A text begins, or ends, with a white space character. *)
Definition begins_with_white_space (s : string) : bool :=
  match JsString.chars s with
  | ch :: _ => JsString.is_white_space ch
  | [] => false
  end.

Definition ends_with_white_space (s : string) : bool :=
  match rev (JsString.chars s) with
  | ch :: _ => JsString.is_white_space ch
  | [] => false
  end.

(** The registration of a row without cells to read. *)
Definition blank_registration : BasketballRegistration :=
  {| polideportivo := ""; categoria := ""; actividad := "";
     subcategoria := ""; horario := "" |}.

(* ------------------------------------------------------------------ *)
(** * The refresh route: [GET /api/basketball-refresh] *)
(* ------------------------------------------------------------------ *)

Module Refresh.

(** [JSON.stringify({ status, message })] *)
Definition outcome_body (status message : string) : string :=
  Json.stringify
    (Json.Obj [("status", Json.Str status); ("message", Json.Str message)]) 0.

(** What is left of the run once [scrape()] has returned its promise,
    with the handler that [.catch(error => ...)] gives that promise. *)
Definition pending_scrape (env : Env) : M unit :=
  tryCatch (scrape_from_first_await env)
    (fun error => log_error "Error during manual scrape:" (Some error)).

(** [GET()]: the run is started and not awaited.  The call [scrape()]
    runs up to its first [await] before the handler goes on, so the
    handler returns its response after the opening line and the launch
    call of the run, together with the rest of the run, still pending. *)
Definition GET (env : Env) : M (Response * M unit) :=
  tryCatch
    (log "Manual scrape initiated via API" ;;
     scrape_until_first_await ;;
     let pending := pending_scrape env in
     ret ({| status := 200;
             body := outcome_body "success" "Basketball data refresh initiated";
             headers := [("Content-Type", "application/json")] |},
          pending))
    (fun error =>
       log_error "Error triggering manual scrape:" (Some error) ;;
       ret ({| status := 500;
               body := outcome_body "error"
                         "Failed to trigger basketball data refresh";
               headers := [("Content-Type", "application/json")] |},
            ret tt)).

(** A request followed to its end: the response is made, then the pending
    run settles. *)
Definition request (env : Env) : M Response :=
  answer <- GET env ;;
  snd answer ;;
  ret (fst answer).

End Refresh.

(* ------------------------------------------------------------------ *)
(** * The dashboard component *)
(* ------------------------------------------------------------------ *)

Module Dashboard.

(** The four [useState] cells.  [data] is [null] at first, then what
    [response.json()] gave, kept as it came (a [null] as well): the
    annotation [RegistrationData] checks nothing at run time. *)
Record State := {
  data : Json.value;
  loading : bool;
  error : option string;
  refreshing : bool
}.

Definition initial : State :=
  {| data := Json.Null; loading := true; error := None; refreshing := false |}.

(** Why [fetchData] entered its [catch]: [fetch] rejected, the response
    was not [ok], or its body was not JSON. *)
Inductive Failure :=
| FetchRejected (reason : string)
| NotOk (status : Z)
| NotJson.

(** [response.ok] *)
Definition ok (response : Response) : bool :=
  ((200 <=? status response) && (status response <=? 299))%Z.

Definition LOAD_ERROR : string :=
  "Failed to load registration data. Please try again.".

(** [fetchData], up to its first [await]: [setLoading(true)]. *)
Definition fetchData_begin (s : State) : State :=
  {| data := data s; loading := true; error := error s;
     refreshing := refreshing s |}.

(** The [try] block of [fetchData] once [fetch] has settled. *)
Definition fetchData_try (answer : Settled Response) : Failure + Json.value :=
  match answer with
  | Rejected reason => inl (FetchRejected reason)
  | Fulfilled response =>
      if negb (ok response) then inl (NotOk (status response))
      else match Json.parse (body response) with
           | Some result => inr result
           | None => inl NotJson
           end
  end.

(** [fetchData], from the settling of [fetch] on: the state it leaves,
    and what its [catch] wrote with [console.error], if anything.  [s] is
    the state at that time. *)
Definition fetchData_settle (answer : Settled Response) (s : State)
  : State * option Failure :=
  match fetchData_try answer with
  | inr result =>
      ({| data := result; loading := false; error := None;
          refreshing := false |}, None)
  | inl failure =>
      ({| data := data s; loading := false; error := Some LOAD_ERROR;
          refreshing := false |}, Some failure)
  end.

(** [handleRefresh]: [setRefreshing(true)], then [fetchData()]. *)
Definition handleRefresh (s : State) : State :=
  fetchData_begin
    {| data := data s; loading := loading s; error := error s;
       refreshing := true |}.

(** The interval of the automatic refresh, in milliseconds. *)
Definition AUTO_REFRESH_MS : Z := 30 * 60 * 1000.

(** What happens to the component: it is mounted ([fetchData()] and the
    interval), the interval fires, the button is clicked (the click
    reaches [handleRefresh] when the button is not disabled), a pending
    [fetch] settles. *)
Inductive Action :=
| Mount
| Tick
| Click
| Settle (answer : Settled Response).

Definition button_disabled (s : State) : bool := loading s || refreshing s.

Definition step (s : State) (a : Action) : State :=
  match a with
  | Mount | Tick => fetchData_begin s
  | Click => if button_disabled s then s else handleRefresh s
  | Settle answer => fst (fetchData_settle answer s)
  end.

Definition after (actions : list Action) : State :=
  fold_left step actions initial.

(** ** The rendered page *)

(** One card of the grid: the texts it shows. *)
Record Card := {
  heading : string;       (* reg.subcategoria *)
  place : string;         (* reg.polideportivo *)
  category : string;      (* reg.categoria *)
  schedule : string       (* reg.horario *)
}.

Definition card (reg : BasketballRegistration) : Card :=
  {| heading := subcategoria reg; place := polideportivo reg;
     category := categoria reg; schedule := horario reg |}.

(** The part of the page under the title bar. *)
Inductive Main :=
| Spinner                         (* "Cargando inscripciones..." *)
| ErrorBox (text : string)
| EmptyNotice                     (* "No hay inscripciones de básquet ..." *)
| Grid (cards : list Card).

Record View := {
  updated : option string;        (* the argument of formatDate, when shown *)
  disabled : bool;                (* the button *)
  spinning : bool;                (* the button's icon *)
  main : Main
}.

(** [data] read at the type the component gives it: [Some None] for
    [null], [None] for a value of another shape, on which the component
    is not followed. *)
Definition typed (d : Json.value) : option (option RegistrationData) :=
  match d with
  | Json.Null => Some None
  | v => option_map Some (data_of_json v)
  end.

Definition render (s : State) : option View :=
  match typed (data s) with
  | None => None
  | Some d =>
      Some
        {| updated :=
             match d with
             | Some d' =>
                 if JsString.truthy (Some (timestamp d'))
                 then Some (timestamp d') else None
             | None => None
             end;
           disabled := button_disabled s;
           spinning := refreshing s;
           main :=
             if loading s && negb (refreshing s) then Spinner
             else if JsString.truthy (error s)
             then ErrorBox (JsString.or_empty (error s))
             else match d with
                  | Some d' =>
                      if Nat.eqb (length (registrations d')) 0 then EmptyNotice
                      else Grid (map card (registrations d'))
                  | None => Grid []
                  end |}
  end.

(** [fetch('/api/basketball-registrations')] answered by the read
    route in the world [w]. *)
Definition served (env : Env) (w : World) : Settled Response :=
  match fst (GET env w) with
  | Normal response => Fulfilled response
  | Throw e => Rejected (message e)
  end.

End Dashboard.

(* ------------------------------------------------------------------ *)
(** * The earlier scraper: the snapshot in a file *)
(* ------------------------------------------------------------------ *)

(** [app/api/basketball-registrations/route.ts] as it stands in the
    repository: the scraper class with the snapshot written to the local
    file system, the start of the scraper when the module is loaded, and
    the read route that reads the file. *)
Module Legacy.

(** [path.join('public', 'data', 'basketball-registrations.json')] and
    its [path.dirname], on a POSIX host. *)
Definition DATA_FILE_PATH : string := "public/data/basketball-registrations.json".
Definition DATA_DIRECTORY : string := "public/data".

Module Mail.

Definition dq : string := Json.dq.

Definition tableRow (item : BasketballRegistration) : string :=
  "
        <tr>
          <td>" ++ polideportivo item ++ "</td>
          <td>" ++ categoria item ++ "</td>
          <td>" ++ actividad item ++ "</td>
          <td>" ++ subcategoria item ++ "</td>
          <td>" ++ horario item ++ "</td>
        </tr>
      ".

(** [fecha] is [new Date().toLocaleString()]. *)
Definition resultsHtml (registrations : list BasketballRegistration)
  (fecha : string) : string :=
  let tableRows := JsString.join (map tableRow registrations) in
  "
        <h2>Inscripciones disponibles para Básquet</h2>
        <p>Fecha de consulta: " ++ fecha ++ "</p>
        <table border=" ++ dq ++ "1" ++ dq ++ " cellpadding=" ++ dq ++ "5" ++ dq ++ " style=" ++ dq ++ "border-collapse: collapse; width: 100%;" ++ dq ++ ">
          <tr style=" ++ dq ++ "background-color: #f2f2f2;" ++ dq ++ ">
            <th>Polideportivo</th>
            <th>Categoría</th>
            <th>Actividad</th>
            <th>Subcategoría</th>
            <th>Horario</th>
          </tr>
          " ++ tableRows ++ "
        </table>
      ".

Definition htmlContent (registrations : list BasketballRegistration)
  (fecha : string) : string :=
  if Nat.ltb 0 (length registrations)
  then resultsHtml registrations fecha
  else "<p>No se encontraron inscripciones disponibles</p>".

Definition message (recipient sender : string)
  (registrations : list BasketballRegistration) (fecha : string) : Msg :=
  {| to := recipient;
     from := sender;
     subject := "Notificación de Inscripciones de Básquet";
     html := htmlContent registrations fecha |}.

End Mail.

(** The awaited calls. *)
Inductive Op :=
| OpLaunch | OpNewPage | OpGoto | OpClickRadio | OpSelectCategoria
| OpSelectActividad | OpClickSearch | OpWaitForNavigation | OpWaitForSelector
| OpExtractRows
| OpMkdir               (* fs.mkdir *)
| OpWriteFile           (* fs.writeFile *)
| OpReadFile            (* fs.readFile *)
| OpSend | OpScreenshot | OpClose.

Record Error := { thrown_by : Op; message : string }.

(** The environment of one run; [readFile] tells whether an existing
    file can be read. *)
Record Env := {
  RECIPIENT_EMAIL : option string;
  FROM_EMAIL : option string;
  Date_now : Z;
  toLocaleString : string;
  launch : Settled unit;
  newPage : Settled unit;
  goto : Settled unit;
  clickRadio : Settled unit;
  selectCategoria : Settled unit;
  selectActividad : Settled unit;
  clickSearch : Settled unit;
  waitForNavigation : Settled unit;
  waitForSelector : Settled unit;
  resultsTable : Settled Dom.Node;
  mkdir : Settled unit;
  writeFile : string -> string -> Settled unit;   (* path, data *)
  readFile : string -> Settled unit;
  screenshot : Settled string;
  send : nat -> Msg -> Settled unit;
  close : Settled unit
}.

Inductive Event :=
| console_log (text : string)
| console_error (text : string) (error : option Error)
| console_table (rows : list BasketballRegistration)
| puppeteer_launch
| browser_newPage
| page_goto (address : string) (timeout : Z)
| page_evaluate_click (selector : string)
| setTimeout (ms : Z)
| page_select (selector value : string)
| page_click (selector : string)
| page_waitForNavigation
| page_waitForSelector (selector : string) (timeout : Z)
| page_evaluate_rows (selector : string)
| page_screenshot (path : string)
| fs_mkdir (path : string)
| fs_writeFile (path data : string)
| fs_readFile (path : string)
| sgMail_send (msg : Msg)
| browser_close
| setInterval (ms : Z)
| call_saveData (registrations : list BasketballRegistration)
| call_sendEmail (registrations : list BasketballRegistration).

(** The trace, the files on the disk (path and content, latest first),
    the accepted messages and the variable [page]. *)
Record World := {
  trace : list Event;
  files : list (string * string);
  outbox : list Msg;
  page : bool
}.

Definition empty_world : World :=
  {| trace := []; files := []; outbox := []; page := false |}.

Inductive Completion (A : Type) :=
| Normal (a : A)
| Throw (e : Error).
Arguments Normal {A} a.
Arguments Throw {A} e.

Definition M (A : Type) : Type := World -> Completion A * World.

Definition ret {A : Type} (a : A) : M A := fun w => (Normal a, w).

Definition throw {A : Type} (e : Error) : M A := fun w => (Throw e, w).

Definition bind {A B : Type} (m : M A) (k : A -> M B) : M B :=
  fun w =>
    match m w with
    | (Normal a, w') => k a w'
    | (Throw e, w') => (Throw e, w')
    end.

Declare Scope legacy_scope.
Delimit Scope legacy_scope with legacy.
Notation "x <- m ;; k" := (bind m (fun x => k))
  (at level 61, m at next level, right associativity) : legacy_scope.
Notation "m ;; k" := (bind m (fun _ => k))
  (at level 61, right associativity) : legacy_scope.
Local Open Scope legacy_scope.

Definition tryCatch {A : Type} (body : M A) (handler : Error -> M A) : M A :=
  fun w =>
    match body w with
    | (Normal a, w') => (Normal a, w')
    | (Throw e, w') => handler e w'
    end.

Definition tryFinally {A : Type} (body : M A) (final : M unit) : M A :=
  fun w =>
    match body w with
    | (c, w') =>
      match final w' with
      | (Normal _, w'') => (c, w'')
      | (Throw e, w'') => (Throw e, w'')
      end
    end.

Definition add_event (w : World) (e : Event) : World :=
  {| trace := trace w ++ [e]; files := files w; outbox := outbox w;
     page := page w |}.

Definition set_page (w : World) (b : bool) : World :=
  {| trace := trace w; files := files w; outbox := outbox w; page := b |}.

(** A written file replaces the file of that path. *)
Definition put_file (w : World) (path data : string) : World :=
  {| trace := trace w;
     files := (path, data)
              :: filter (fun f => negb (String.eqb (fst f) path)) (files w);
     outbox := outbox w; page := page w |}.

Definition add_outbox (w : World) (m : Msg) : World :=
  {| trace := trace w; files := files w; outbox := outbox w ++ [m];
     page := page w |}.

Definition file_at (path : string) (w : World) : option string :=
  option_map snd (find (fun f => String.eqb (fst f) path) (files w)).

Definition emit (e : Event) : M unit :=
  fun w => (Normal tt, add_event w e).

Definition await {A : Type} (op : Op) (e : Event) (s : Settled A) : M A :=
  emit e ;;
  match s with
  | Fulfilled a => ret a
  | Rejected reason => throw {| thrown_by := op; message := reason |}
  end.

Definition log (text : string) : M unit := emit (console_log text).

Definition log_error (text : string) (error : option Error) : M unit :=
  emit (console_error text error).

Definition assign_page (b : bool) : M unit :=
  fun w => (Normal tt, set_page w b).

Definition read_page : M bool := fun w => (Normal (page w), w).

Definition write (path data : string) : M unit :=
  fun w => (Normal tt, put_file w path data).

Definition deliver (m : Msg) : M unit :=
  fun w => (Normal tt, add_outbox w m).

Definition logical_time : M nat :=
  fun w => (Normal (length (trace w)), w).

(** [fs.writeFile(path, data)] *)
Definition fs_writeFile_call (env : Env) (path data : string) : M unit :=
  await OpWriteFile (fs_writeFile path data) (writeFile env path data) ;;
  write path data.

(** [fs.readFile(path, 'utf-8')]: a file that is not there cannot be
    read. *)
Definition fs_readFile_call (env : Env) (path : string) : M string :=
  await OpReadFile (fs_readFile path) (readFile env path) ;;
  fun w =>
    match file_at path w with
    | Some data => (Normal data, w)
    | None =>
        (Throw {| thrown_by := OpReadFile;
                  message := "ENOENT: no such file or directory" |}, w)
    end.

(** [page.screenshot({ path })]: the image is written to the path. *)
Definition page_screenshot_call (env : Env) (path : string) : M unit :=
  image <- await OpScreenshot (page_screenshot path) (screenshot env) ;;
  write path image.

Definition sgMail_send_call (env : Env) (msg : Msg) : M unit :=
  now <- logical_time ;;
  await OpSend (sgMail_send msg) (send env now msg) ;;
  deliver msg.

Definition nl : string := Json.nl.

(** [saveData(registrations)] *)
Definition saveData (env : Env) (registrations : list BasketballRegistration)
  : M unit :=
  emit (call_saveData registrations) ;;
  tryCatch
    (await OpMkdir (fs_mkdir DATA_DIRECTORY) (mkdir env) ;;
     let data := {| timestamp := JsDate.toISOString (Date_now env);
                    registrations := registrations |} in
     fs_writeFile_call env DATA_FILE_PATH (Json.stringify (json_of_data data) 2) ;;
     log "✓ Data saved successfully")
    (fun error =>
       log_error "✗ Error saving data:" (Some error) ;;
       throw error).

Definition message_for (env : Env) (registrations : list BasketballRegistration)
  : Msg :=
  Mail.message (JsString.or_empty (RECIPIENT_EMAIL env))
    (JsString.or_empty (FROM_EMAIL env))
    registrations (toLocaleString env).

(** [sendEmail(registrations)] *)
Definition sendEmail (env : Env) (registrations : list BasketballRegistration)
  : M unit :=
  emit (call_sendEmail registrations) ;;
  if negb (JsString.truthy (RECIPIENT_EMAIL env))
     || negb (JsString.truthy (FROM_EMAIL env))
  then
    log_error "✗ Missing email configuration" None ;;
    ret tt
  else
    let msg := message_for env registrations in
    tryCatch
      (sgMail_send_call env msg ;;
       log "✓ Email sent successfully")
      (fun error =>
         log_error "✗ Error sending email:" (Some error) ;;
         throw error).

(** Steps 1 to 6 of the [try] block of [scrape]. *)
Definition extraction_steps (env : Env) : M (list BasketballRegistration) :=
  await OpNewPage browser_newPage (newPage env) ;;
  assign_page true ;;
  log "▸ Browser initialized" ;;
  log "▸ Navigating to page..." ;;
  await OpGoto (page_goto URL 60000) (goto env) ;;
  log "✓ Page loaded" ;;
  log ("▸ Selecting " ++ Json.dq ++ "Por Categoría" ++ Json.dq ++ "...") ;;
  await OpClickRadio (page_evaluate_click "#MainContent_TipoBusqueda_1")
        (clickRadio env) ;;
  emit (setTimeout 3000) ;;
  log "✓ Option selected" ;;
  log "▸ Selecting DEPORTE category..." ;;
  await OpSelectCategoria (page_select "#MainContent_ddlCategoria" "1")
        (selectCategoria env) ;;
  emit (setTimeout 3000) ;;
  log "✓ Category selected" ;;
  log "▸ Selecting BASQUET activity..." ;;
  await OpSelectActividad (page_select "#MainContent_ddlActividad" "16")
        (selectActividad env) ;;
  emit (setTimeout 3000) ;;
  log "✓ Activity selected" ;;
  log "▸ Clicking Search button..." ;;
  emit (page_click "#MainContent_btnBuscarCat") ;;
  emit page_waitForNavigation ;;
  match clickSearch env, waitForNavigation env with
  | Rejected reason, _ =>
      throw {| thrown_by := OpClickSearch; message := reason |}
  | Fulfilled _, Rejected reason =>
      throw {| thrown_by := OpWaitForNavigation; message := reason |}
  | Fulfilled _, Fulfilled _ => ret tt
  end ;;
  log "✓ Search performed" ;;
  log "▸ Looking for results..." ;;
  await OpWaitForSelector
        (page_waitForSelector "#MainContent_gvBuscarActXCat" 10000)
        (waitForSelector env) ;;
  log "✓ Results table found" ;;
  table <- await OpExtractRows
             (page_evaluate_rows "#MainContent_gvBuscarActXCat tr:not(:first-child)")
             (resultsTable env) ;;
  ret (Dom.extractRegistrations table).

Definition try_block (env : Env) : M unit :=
  registrations <- extraction_steps env ;;
  log (nl ++ "=== RESULTS FOUND ===") ;;
  log ("▸ Total registrations: " ++ JsString.of_nat (length registrations)) ;;
  emit (console_table registrations) ;;
  saveData env registrations ;;
  sendEmail env registrations.

(** The [catch] block of [scrape]: the screenshot is awaited with no
    [try] of its own. *)
Definition catch_block (env : Env) (error : Error) : M unit :=
  log_error (nl ++ "=== ERROR ===") None ;;
  log_error ("✗ Error during process: " ++ message error) None ;;
  has_page <- read_page ;;
  if (has_page : bool) then
    page_screenshot_call env "error-screenshot.png" ;;
    log "▸ Error screenshot saved as error-screenshot.png" ;;
    sendEmail env []
  else ret tt.

Definition finally_block (env : Env) : M unit :=
  await OpClose browser_close (close env) ;;
  log (nl ++ "=== Process completed ===") ;;
  log "▸ Browser closed".

(** [scrape()] *)
Definition scrape (env : Env) : M unit :=
  log (nl ++ "=== Starting scraping process ===") ;;
  await OpLaunch puppeteer_launch (launch env) ;;
  assign_page false ;;
  tryFinally (tryCatch (try_block env) (catch_block env)) (finally_block env).

(** [start()] *)
Definition start (env : Env) : M unit :=
  scrape env ;;
  emit (setInterval (SCRAPE_INTERVAL_HOURS * 60 * 60 * 1000)) ;;
  log ("Scheduled to run every " ++ JsString.of_Z SCRAPE_INTERVAL_HOURS ++ " hours").

(** The module's own statements: [scraper.start().catch(console.error)]. *)
Definition on_load (env : Env) : M unit :=
  tryCatch (start env) (fun error => log_error "" (Some error)).

(** [GET()] *)
Definition GET (env : Env) : M Response :=
  tryCatch
    (data <- fs_readFile_call env DATA_FILE_PATH ;;
     ret {| status := 200; body := data;
            headers := [("Content-Type", "application/json");
                        ("Cache-Control", "no-cache")] |})
    (fun error => ret (json_response 500 "Failed to fetch data")).

(** ** Observations *)

Definition events_since (w0 w' : World) : list Event :=
  skipn (length (trace w0)) (trace w').

Definition run_events (env : Env) (w : World) : list Event :=
  events_since w (snd (scrape env w)).

Definition notify_calls (evs : list Event) : list (list BasketballRegistration) :=
  flat_map (fun e => match e with call_sendEmail regs => [regs] | _ => [] end) evs.

Definition sent_messages (evs : list Event) : list Msg :=
  flat_map (fun e => match e with sgMail_send m => [m] | _ => [] end) evs.

Definition extraction (env : Env) : Completion (list BasketballRegistration) :=
  fst (extraction_steps env empty_world).

Definition browsing (e : Event) : bool :=
  match e with
  | console_log _ | browser_newPage | page_goto _ _ | page_evaluate_click _
  | setTimeout _ | page_select _ _ | page_click _ | page_waitForNavigation
  | page_waitForSelector _ _ | page_evaluate_rows _ => true
  | _ => false
  end.

Definition snapshot_body (env : Env) (regs : list BasketballRegistration) : string :=
  Json.stringify
    (json_of_data {| timestamp := JsDate.toISOString (Date_now env);
                     registrations := regs |}) 2.

Definition is_setInterval (e : Event) : bool :=
  match e with setInterval _ => true | _ => false end.

(** A program adds to the trace, from every start, only events that
    satisfy [P]. *)
Definition adds (P : Event -> bool) (w w' : World) : Prop :=
  exists evs, trace w' = (trace w ++ evs)%list /\ forallb P evs = true.

Definition always {A : Type} (P : Event -> bool) (m : M A) : Prop :=
  forall w, adds P w (snd (m w)).

(** ** Sample environments *)

Definition sample (navigation : Settled unit) (shot : Settled string) : Env :=
  {| RECIPIENT_EMAIL := Some "coach@example.org";
     FROM_EMAIL := Some "scraper@example.org";
     Date_now := 1793557800123;
     toLocaleString := "1/11/2026, 10:30:00";
     launch := Fulfilled tt;
     newPage := Fulfilled tt;
     goto := navigation;
     clickRadio := Fulfilled tt;
     selectCategoria := Fulfilled tt;
     selectActividad := Fulfilled tt;
     clickSearch := Fulfilled tt;
     waitForNavigation := Fulfilled tt;
     waitForSelector := Fulfilled tt;
     resultsTable := Fulfilled Sample.two_rows;
     mkdir := Fulfilled tt;
     writeFile := fun _ _ => Fulfilled tt;
     readFile := fun _ => Fulfilled tt;
     screenshot := shot;
     send := fun _ _ => Fulfilled tt;
     close := Fulfilled tt |}.

Definition works : Env := sample (Fulfilled tt) (Fulfilled "PNG").

(** The page cannot be loaded. *)
Definition unreachable : Env :=
  sample (Rejected "net::ERR_NAME_NOT_RESOLVED") (Fulfilled "PNG").

Definition unreachable_no_capture : Env :=
  sample (Rejected "net::ERR_NAME_NOT_RESOLVED") (Rejected "Target closed").

End Legacy.

(* ================================================================== *)
(** * Properties *)
(* ================================================================== *)

(* ------------------------------------------------------------------ *)
(** ** The snapshot document: written, lexed, parsed *)
(* ------------------------------------------------------------------ *)

Module JsonFacts.
Import Json.
Local Open Scope string_scope.

Lemma lex_run_app s1 s2 st : lex_run (s1 ++ s2) st = lex_run s2 (lex_run s1 st).
Proof. revert st. induction s1 as [|c s1 IH]; intro st; simpl; auto. Qed.

Lemma append_nil_r (a : string) : (a ++ "")%string = a.
Proof. induction a; simpl; congruence. Qed.

Lemma append_assoc (a b c : string) : ((a ++ b) ++ c = a ++ b ++ c)%string.
Proof. induction a; simpl; congruence. Qed.

(** An escaped surrogate pair is read as the one character it writes,
    and a low surrogate on its own is kept as it is. *)
Lemma parse_surrogate_pair :
  parse (dq ++ backslash ++ "ud83c" ++ backslash ++ "udfc0" ++ dq)
  = Some (Str "🏀")
  /\ parse (dq ++ "a" ++ backslash ++ "udfc0" ++ dq)
     = Some (Str ("a" ++ utf8_encode 57280)).
Proof. split; vm_compute; reflexivity. Qed.

Lemma lex_escape_char c acc toks :
  lex_run (escape_char c) (Some (InString acc, toks))
  = Some (InString (snoc acc c), toks).
Proof.
  destruct c as [[] [] [] [] [] [] [] []]; reflexivity.
Qed.

Lemma lex_escape s : forall acc toks,
  lex_run (escape s) (Some (InString acc, toks))
  = Some (InString (acc ++ s), toks).
Proof.
  induction s as [|c s IH]; intros acc toks; simpl escape.
  - simpl. f_equal. f_equal. f_equal. induction acc; simpl; congruence.
  - rewrite lex_run_app, lex_escape_char, IH. unfold snoc.
    now rewrite append_assoc.
Qed.

Lemma lex_quote s toks rest :
  lex_run (quote s ++ rest) (Some (Out, toks))
  = lex_run rest (Some (Out, TString s :: toks)).
Proof.
  unfold quote. rewrite !lex_run_app. f_equal.
  change (lex_run dq (Some (Out, toks))) with (Some (InString "", toks)).
  rewrite lex_escape. reflexivity.
Qed.

#[local] Opaque quote.

Section Punctuation.
Variables (rest : string) (toks : list token).

Lemma lex_space :
  lex_run (String " " rest) (Some (Out, toks)) = lex_run rest (Some (Out, toks)).
Proof. reflexivity. Qed.

Lemma lex_newline :
  lex_run (String "010" rest) (Some (Out, toks)) = lex_run rest (Some (Out, toks)).
Proof. reflexivity. Qed.

Lemma lex_lbrace :
  lex_run (String "{" rest) (Some (Out, toks))
  = lex_run rest (Some (Out, TLBrace :: toks)).
Proof. reflexivity. Qed.

Lemma lex_rbrace :
  lex_run (String "}" rest) (Some (Out, toks))
  = lex_run rest (Some (Out, TRBrace :: toks)).
Proof. reflexivity. Qed.

Lemma lex_lbracket :
  lex_run (String "[" rest) (Some (Out, toks))
  = lex_run rest (Some (Out, TLBracket :: toks)).
Proof. reflexivity. Qed.

Lemma lex_rbracket :
  lex_run (String "]" rest) (Some (Out, toks))
  = lex_run rest (Some (Out, TRBracket :: toks)).
Proof. reflexivity. Qed.

Lemma lex_colon :
  lex_run (String ":" rest) (Some (Out, toks))
  = lex_run rest (Some (Out, TColon :: toks)).
Proof. reflexivity. Qed.

Lemma lex_comma :
  lex_run (String "," rest) (Some (Out, toks))
  = lex_run rest (Some (Out, TComma :: toks)).
Proof. reflexivity. Qed.

End Punctuation.

Ltac lex_go :=
  unfold nl;
  repeat first [ progress cbn [append]
               | rewrite lex_quote | rewrite lex_space | rewrite lex_newline
               | rewrite lex_lbrace | rewrite lex_rbrace | rewrite lex_lbracket
               | rewrite lex_rbracket | rewrite lex_colon | rewrite lex_comma ].

Lemma lex_registration r toks rest :
  lex_run (serialize "  " "    " (json_of_registration r) ++ rest) (Some (Out, toks))
  = lex_run rest (Some (Out, (rev (tokens_of_registration r) ++ toks)%list)).
Proof.
  unfold json_of_registration.
  cbn [serialize map String.eqb Ascii.eqb Bool.eqb join_sep].
  repeat rewrite append_assoc.
  lex_go.
  reflexivity.
Qed.

Lemma lex_separator rest toks :
  lex_run (separator ++ rest) (Some (Out, toks))
  = lex_run rest (Some (Out, TComma :: toks)).
Proof. reflexivity. Qed.

Lemma lex_elements regs : forall toks rest,
  regs <> [] ->
  lex_run (join_sep separator
             (map (serialize "  " "    ") (map json_of_registration regs)) ++ rest)
          (Some (Out, toks))
  = lex_run rest (Some (Out, (rev (tokens_of_elements regs) ++ toks)%list)).
Proof.
  induction regs as [|r regs IH]; intros toks rest Hne; [congruence|].
  destruct regs as [|r' regs].
  - cbn [map join_sep tokens_of_elements]. apply lex_registration.
  - remember (r' :: regs) as l eqn:Hl.
    assert (Hj : join_sep separator
                   (map (serialize "  " "    ") (map json_of_registration (r :: l)))
                 = serialize "  " "    " (json_of_registration r)
                     ++ separator
                     ++ join_sep separator
                          (map (serialize "  " "    ") (map json_of_registration l))).
    { subst l. reflexivity. }
    assert (Ht : tokens_of_elements (r :: l)
                 = (tokens_of_registration r ++ TComma :: tokens_of_elements l)%list).
    { subst l. reflexivity. }
    rewrite Hj, Ht. repeat rewrite append_assoc.
    rewrite lex_registration, lex_separator, IH by (subst l; discriminate).
    f_equal. f_equal. f_equal.
    rewrite rev_app_distr. cbn [rev]. now rewrite <- !app_assoc.
Qed.

Lemma serialize_obj_cons gap indent m ms :
  serialize gap indent (Obj (m :: ms))
  = let partial :=
      map (fun kv : string * value =>
             let '(k, x) := kv in
             quote k ++ (if String.eqb gap "" then ":" else ": ")
                     ++ serialize gap (indent ++ gap) x) (m :: ms) in
    if String.eqb gap "" then "{" ++ join_sep "," partial ++ "}"
    else "{" ++ nl ++ (indent ++ gap)
             ++ join_sep ("," ++ nl ++ (indent ++ gap)) partial
             ++ nl ++ indent ++ "}".
Proof. reflexivity. Qed.

Lemma serialize_arr_cons gap indent x xs :
  serialize gap indent (Arr (x :: xs))
  = let partial := map (serialize gap (indent ++ gap)) (x :: xs) in
    if String.eqb gap "" then "[" ++ join_sep "," partial ++ "]"
    else "[" ++ nl ++ (indent ++ gap)
             ++ join_sep ("," ++ nl ++ (indent ++ gap)) partial
             ++ nl ++ indent ++ "]".
Proof. reflexivity. Qed.

Lemma serialize_data_nonempty ts r regs :
  stringify (json_of_data {| timestamp := ts; registrations := r :: regs |}) 2
  = "{" ++ nl ++ "  " ++ quote "timestamp" ++ ": " ++ quote ts ++ "," ++ nl
        ++ "  " ++ quote "registrations" ++ ": " ++ "[" ++ nl ++ "    "
        ++ join_sep separator
             (map (serialize "  " "    ") (map json_of_registration (r :: regs)))
        ++ nl ++ "  " ++ "]" ++ nl ++ "}".
Proof.
  unfold stringify, json_of_data. cbn [Nat.min spaces timestamp registrations].
  rewrite serialize_obj_cons.
  cbv zeta. cbn [map join_sep String.eqb Ascii.eqb Bool.eqb append].
  change (serialize "  " "  " (Str ts)) with (quote ts).
  rewrite serialize_arr_cons.
  cbv zeta. cbn [String.eqb Ascii.eqb Bool.eqb append].
  unfold nl, separator.
  repeat first [progress cbn [append] | rewrite append_assoc].
  reflexivity.
Qed.

Lemma lex_data d :
  lex (stringify (json_of_data d) 2) = Some (tokens_of_data d).
Proof.
  unfold lex, tokens_of_data.
  destruct d as [ts regs]. cbn [timestamp registrations].
  destruct regs as [|r regs].
  - unfold stringify, json_of_data.
    cbn [Nat.min spaces serialize map String.eqb Ascii.eqb Bool.eqb join_sep
         timestamp registrations].
    rewrite <- (append_nil_r (_ ++ "}")) at 1.
    repeat rewrite append_assoc. lex_go. reflexivity.
  - rewrite serialize_data_nonempty.
    remember (r :: regs) as l eqn:Hl.
    lex_go.
    rewrite lex_elements by (subst l; discriminate).
    lex_go. cbn [lex_run rev]. rewrite rev_app_distr, rev_involutive.
    cbn [rev app]. now rewrite <- !app_assoc.
Qed.

Lemma parse_elements_eq f toks :
  parse_elements (S f) toks =
  match parse_value f toks with
  | Some (v, TComma :: rest) =>
      match parse_elements f rest with
      | Some (items, rest') => Some (v :: items, rest')
      | None => None
      end
  | Some (v, TRBracket :: rest) => Some ([v], rest)
  | _ => None
  end.
Proof. reflexivity. Qed.

Lemma parse_members_eq f toks :
  parse_members (S f) toks =
  match toks with
  | TString k :: TColon :: rest =>
      match parse_value f rest with
      | Some (v, TComma :: rest') =>
          match parse_members f rest' with
          | Some (members, rest'') => Some ((k, v) :: members, rest'')
          | None => None
          end
      | Some (v, TRBrace :: rest') => Some ([(k, v)], rest')
      | _ => None
      end
  | _ => None
  end.
Proof. reflexivity. Qed.

Lemma parse_value_eq f toks :
  parse_value (S f) toks =
  match toks with
  | TString s :: rest => Some (Str s, rest)
  | TWord w :: rest =>
      match word_value w with Some v => Some (v, rest) | None => None end
  | TLBracket :: TRBracket :: rest => Some (Arr [], rest)
  | TLBracket :: rest =>
      match parse_elements f rest with
      | Some (items, rest') => Some (Arr items, rest')
      | None => None
      end
  | TLBrace :: TRBrace :: rest => Some (Obj [], rest)
  | TLBrace :: rest =>
      match parse_members f rest with
      | Some (members, rest') => Some (Obj members, rest')
      | None => None
      end
  | _ => None
  end.
Proof. reflexivity. Qed.

(** More fuel does not change a successful parse. *)
Lemma parse_fuel_step (f : nat) :
  (forall toks r, parse_value f toks = Some r -> parse_value (S f) toks = Some r)
  /\ (forall toks r, parse_elements f toks = Some r ->
                     parse_elements (S f) toks = Some r)
  /\ (forall toks r, parse_members f toks = Some r ->
                     parse_members (S f) toks = Some r).
Proof.
  induction f as [|f (IHv & IHe & IHm)].
  - repeat split; intros toks r H; discriminate H.
  - split; [|split]; intros toks r H.
    + rewrite parse_value_eq in H |- *.
      destruct toks as [|t toks]; [discriminate H|].
      destruct t; try discriminate H; try exact H.
      * destruct toks as [|t' toks].
        -- destruct (parse_members f []) as [[ms rest']|] eqn:E; [|discriminate H].
           apply IHm in E. now rewrite E.
        -- destruct t'; try exact H;
             (destruct (parse_members f (_ :: toks)) as [[ms rest']|] eqn:E;
              [|discriminate H]; apply IHm in E; now rewrite E).
      * destruct toks as [|t' toks].
        -- destruct (parse_elements f []) as [[ms rest']|] eqn:E; [|discriminate H].
           apply IHe in E. now rewrite E.
        -- destruct t'; try exact H;
             (destruct (parse_elements f (_ :: toks)) as [[ms rest']|] eqn:E;
              [|discriminate H]; apply IHe in E; now rewrite E).
    + rewrite parse_elements_eq in H |- *.
      destruct (parse_value f toks) as [[v rest']|] eqn:E; [|discriminate H].
      apply IHv in E. rewrite E.
      destruct rest' as [|t rest']; [discriminate H|].
      destruct t; try discriminate H; [exact H|].
      destruct (parse_elements f rest') as [[vs rest'']|] eqn:E2; [|discriminate H].
      apply IHe in E2. now rewrite E2.
    + rewrite parse_members_eq in H |- *.
      destruct toks as [|t toks]; [discriminate H|].
      destruct t; try discriminate H.
      destruct toks as [|t toks]; [discriminate H|].
      destruct t; try discriminate H.
      destruct (parse_value f toks) as [[v rest']|] eqn:E; [|discriminate H].
      apply IHv in E. rewrite E.
      destruct rest' as [|t rest']; [discriminate H|].
      destruct t; try discriminate H; [exact H|].
      destruct (parse_members f rest') as [[vs rest'']|] eqn:E2; [|discriminate H].
      apply IHm in E2. now rewrite E2.
Qed.

Lemma parse_value_fuel f f' toks r :
  parse_value f toks = Some r -> f <= f' -> parse_value f' toks = Some r.
Proof.
  intros H Hle. induction Hle as [|f' _ IH]; [exact H|].
  now apply (proj1 (parse_fuel_step f')).
Qed.

Lemma parse_registration r f rest :
  7 <= f ->
  parse_value f (tokens_of_registration r ++ rest)
  = Some (json_of_registration r, rest).
Proof.
  intros Hf. replace f with (7 + (f - 7)) by lia. reflexivity.
Qed.

Lemma parse_registrations regs : forall k rest,
  regs <> [] ->
  parse_elements (length regs + 7 + k)
    (tokens_of_elements regs ++ TRBracket :: rest)
  = Some (map json_of_registration regs, rest).
Proof.
  induction regs as [|r regs IH]; intros k rest Hne; [congruence|].
  destruct regs as [|r' regs].
  - change (length [r] + 7 + k) with (S (7 + k)).
    rewrite parse_elements_eq. cbn [tokens_of_elements map].
    now rewrite parse_registration by lia.
  - remember (r' :: regs) as l eqn:Hl.
    assert (Ht : tokens_of_elements (r :: l)
                 = (tokens_of_registration r ++ TComma :: tokens_of_elements l)%list).
    { subst l. reflexivity. }
    rewrite Ht.
    change (length (r :: l) + 7 + k) with (S (length l + 7 + k)).
    rewrite parse_elements_eq, <- app_assoc.
    rewrite parse_registration by lia. cbn [app].
    rewrite IH by (subst l; discriminate). reflexivity.
Qed.

Lemma tokens_of_elements_length regs :
  length regs <= length (tokens_of_elements regs).
Proof.
  induction regs as [|r regs IH]; [apply le_n|].
  destruct regs as [|r' regs]; [cbn; lia|].
  remember (r' :: regs) as l.
  assert (Ht : tokens_of_elements (r :: l)
               = (tokens_of_registration r ++ TComma :: tokens_of_elements l)%list).
  { subst l. reflexivity. }
  rewrite Ht, length_app. cbn [length]. lia.
Qed.

Lemma parse_tokens_of_data d :
  parse_value (length (registrations d) + 11) (tokens_of_data d)
  = Some (json_of_data d, []).
Proof.
  destruct d as [ts regs]. unfold tokens_of_data, json_of_data.
  cbn [timestamp registrations].
  destruct regs as [|r regs]; [reflexivity|].
  remember (r :: regs) as l eqn:Hl.
  replace (length l + 11) with (S (S (S (S (length l + 7 + 0))))) by lia.
  cbn [app]. rewrite parse_value_eq, parse_members_eq, parse_value_eq,
    parse_members_eq, parse_value_eq.
  assert (Hc : exists t ts', (tokens_of_elements l ++ [TRBracket; TRBrace])%list
                         = t :: ts' /\ t <> TRBracket).
  { subst l. destruct regs; cbn; eexists; eexists; split; try reflexivity;
      discriminate. }
  destruct Hc as (t & ts' & Hc & Hnot). rewrite Hc.
  destruct t; try congruence; rewrite <- Hc;
    rewrite parse_registrations by (subst l; discriminate); reflexivity.
Qed.

(** Parsing the written document gives the document back. *)
Lemma parse_stringify_data d :
  parse (stringify (json_of_data d) 2) = Some (json_of_data d).
Proof.
  unfold parse. rewrite lex_data.
  rewrite (parse_value_fuel _ (S (length (tokens_of_data d))) _ _
             (parse_tokens_of_data d)); [reflexivity|].
  unfold tokens_of_data. rewrite !length_app. cbn [length].
  pose proof (tokens_of_elements_length (registrations d)). lia.
Qed.

End JsonFacts.

Lemma registration_of_json_of_registration r :
  registration_of_json (json_of_registration r) = Some r.
Proof. destruct r. reflexivity. Qed.

Lemma all_some_registrations regs :
  all_some (map registration_of_json (map json_of_registration regs)) = Some regs.
Proof.
  induction regs as [|r regs IH]; [reflexivity|].
  cbn [map all_some]. now rewrite registration_of_json_of_registration, IH.
Qed.

Lemma data_of_json_of_data d : data_of_json (json_of_data d) = Some d.
Proof.
  destruct d as [ts regs]. unfold data_of_json, json_of_data.
  cbn [timestamp registrations].
  change (get_string "timestamp" _) with (Some ts).
  change (Json.get "registrations" _)
    with (Some (Json.Arr (map json_of_registration regs))).
  cbv beta iota. now rewrite all_some_registrations.
Qed.

(* ------------------------------------------------------------------ *)
(** ** The timestamp *)
(* ------------------------------------------------------------------ *)

Module JsDateFacts.
Import JsDate.
Local Open Scope Z_scope.

Lemma digit_value_digit k : digit_value (digit k) = Some (k mod 10).
Proof.
  unfold digit_value, digit.
  assert (H : 0 <= k mod 10 < 10) by (apply Z.mod_pos_bound; lia).
  rewrite N_ascii_embedding
    by (apply N2Z.inj_lt; rewrite Z2N.id by lia;
        change (Z.of_N 256) with 256; lia).
  rewrite Z2N.id by lia.
  replace (48 <=? 48 + k mod 10) with true by (symmetry; apply Z.leb_le; lia).
  replace (48 + k mod 10 <=? 57) with true by (symmetry; apply Z.leb_le; lia).
  cbn [andb]. f_equal. lia.
Qed.

Lemma number_of_2 n : 0 <= n < 100 ->
  number_of 0 [digit (n / 10 ^ Z.of_nat 1); digit (n / 10 ^ Z.of_nat 0)] = Some n.
Proof.
  intros H. cbn [number_of]. rewrite !digit_value_digit.
  change (10 ^ Z.of_nat 1) with 10. change (10 ^ Z.of_nat 0) with 1.
  f_equal. Z.div_mod_to_equations. lia.
Qed.

Lemma number_of_3 n : 0 <= n < 1000 ->
  number_of 0 [digit (n / 10 ^ Z.of_nat 2); digit (n / 10 ^ Z.of_nat 1);
               digit (n / 10 ^ Z.of_nat 0)] = Some n.
Proof.
  intros H. cbn [number_of]. rewrite !digit_value_digit.
  change (10 ^ Z.of_nat 2) with 100.
  change (10 ^ Z.of_nat 1) with 10. change (10 ^ Z.of_nat 0) with 1.
  f_equal. Z.div_mod_to_equations. lia.
Qed.

Lemma number_of_4 n : 0 <= n < 10000 ->
  number_of 0 [digit (n / 10 ^ Z.of_nat 3); digit (n / 10 ^ Z.of_nat 2);
               digit (n / 10 ^ Z.of_nat 1); digit (n / 10 ^ Z.of_nat 0)] = Some n.
Proof.
  intros H. cbn [number_of]. rewrite !digit_value_digit.
  change (10 ^ Z.of_nat 3) with 1000. change (10 ^ Z.of_nat 2) with 100.
  change (10 ^ Z.of_nat 1) with 10. change (10 ^ Z.of_nat 0) with 1.
  f_equal. Z.div_mod_to_equations. lia.
Qed.

Lemma all_in_sound k : forall lo p,
  all_in k lo p = true -> forall x, lo <= x < lo + 2 ^ Z.of_nat k -> p x = true.
Proof.
  induction k as [|k IH]; intros lo p H x Hx.
  - cbn in *. replace x with lo by lia. exact H.
  - cbn [all_in] in H. apply andb_prop in H as [H1 H2].
    rewrite Nat2Z.inj_succ, Z.pow_succ_r in Hx by lia.
    destruct (Z.lt_ge_cases x (lo + 2 ^ Z.of_nat k)).
    + apply (IH lo p H1). lia.
    + apply (IH _ p H2). lia.
Qed.

Lemma year_boundaries_checked : all_in 9 0 year_boundary_ok = true.
Proof. vm_compute. reflexivity. Qed.

Lemma days_of_year_checked : all_in 9 0 day_of_year_ok = true.
Proof. vm_compute. reflexivity. Qed.

Lemma year_of_era_first_day y :
  0 <= y <= 399 -> year_of_era (first_day y) = y.
Proof.
  intros H.
  assert (Hok : year_boundary_ok y = true).
  { apply (all_in_sound 9 0 _ year_boundaries_checked).
    change (2 ^ Z.of_nat 9) with 512. lia. }
  unfold year_boundary_ok in Hok.
  apply orb_prop in Hok as [Hok | Hok]; [apply Z.leb_le in Hok; lia|].
  apply andb_prop in Hok as [Hok _]. now apply Z.eqb_eq in Hok.
Qed.

Lemma year_of_era_last_day y :
  1 <= y <= 399 -> year_of_era (first_day y - 1) = y - 1.
Proof.
  intros H.
  assert (Hok : year_boundary_ok y = true).
  { apply (all_in_sound 9 0 _ year_boundaries_checked).
    change (2 ^ Z.of_nat 9) with 512. lia. }
  unfold year_boundary_ok in Hok.
  apply orb_prop in Hok as [Hok | Hok]; [apply Z.leb_le in Hok; lia|].
  apply andb_prop in Hok as [_ Hok].
  apply orb_prop in Hok as [Hok | Hok]; apply Z.eqb_eq in Hok; lia.
Qed.

Lemma year_of_era_monotone x y :
  0 <= x <= y -> y < 146097 -> year_of_era x <= year_of_era y.
Proof.
  intros H Hy. unfold year_of_era. apply Z.div_le_mono; [lia|].
  Z.div_mod_to_equations. lia.
Qed.

Lemma year_of_era_bounds doe :
  0 <= doe < 146097 -> 0 <= year_of_era doe <= 399.
Proof. intros H. unfold year_of_era. Z.div_mod_to_equations. lia. Qed.

Lemma first_day_bounds y :
  0 <= y <= 399 -> 0 <= first_day y <= 145731.
Proof. intros H. unfold first_day. Z.div_mod_to_equations. lia. Qed.

Lemma first_day_next y :
  0 <= y -> first_day (y + 1) <= first_day y + 366.
Proof. intros H. unfold first_day. Z.div_mod_to_equations. lia. Qed.

(** A day of the era is one of the at most 366 days of its year. *)
Lemma day_of_year_bounds doe :
  0 <= doe < 146097 ->
  0 <= doe - first_day (year_of_era doe) <= 365.
Proof.
  intros H.
  pose proof (year_of_era_bounds doe H) as Hy.
  pose proof (first_day_bounds _ Hy) as Hf.
  split.
  - destruct (Z.lt_ge_cases doe (first_day (year_of_era doe))) as [Hlt|]; [|lia].
    exfalso.
    assert (H1 : 1 <= year_of_era doe).
    { destruct (Z.eq_dec (year_of_era doe) 0) as [E|]; [|lia].
      rewrite E in Hlt. change (first_day 0) with 0 in Hlt. lia. }
    pose proof (year_of_era_last_day (year_of_era doe) ltac:(lia)) as Hl.
    pose proof (year_of_era_monotone doe (first_day (year_of_era doe) - 1)
                  ltac:(lia) ltac:(lia)).
    lia.
  - destruct (Z.lt_ge_cases (first_day (year_of_era doe) + 365) doe) as [Hlt|];
      [|lia].
    exfalso.
    destruct (Z.eq_dec (year_of_era doe) 399) as [E|N].
    + rewrite E in Hlt. change (first_day 399) with 145731 in Hlt. lia.
    + pose proof (first_day_next (year_of_era doe) ltac:(lia)).
      pose proof (year_of_era_first_day (year_of_era doe + 1) ltac:(lia)) as Hn.
      pose proof (year_of_era_monotone (first_day (year_of_era doe + 1)) doe
                    ltac:(pose proof (first_day_bounds (year_of_era doe + 1)
                                        ltac:(lia)); lia) ltac:(lia)).
      lia.
Qed.

Lemma month_day_bounds doy :
  0 <= doy <= 365 ->
  0 <= month_index doy <= 11 /\ 1 <= day_of_month doy <= 31
  /\ (doy < 306 -> month_index doy < 10).
Proof.
  intros H.
  assert (Hok : day_of_year_ok doy = true).
  { apply (all_in_sound 9 0 _ days_of_year_checked).
    change (2 ^ Z.of_nat 9) with 512. lia. }
  unfold day_of_year_ok in Hok.
  apply orb_prop in Hok as [Hok | Hok]; [apply Z.leb_le in Hok; lia|].
  repeat match goal with
         | H : (_ && _)%bool = true |- _ => apply andb_prop in H as [? ?]
         | H : (_ <=? _) = true |- _ => apply Z.leb_le in H
         end.
  repeat split; lia.
Qed.

Lemma civil_from_days_steps days :
  civil_from_days days =
  let z := days + 719468 in
  let era := z / 146097 in
  let doe := z - era * 146097 in
  let yoe := year_of_era doe in
  let doy := doe - first_day yoe in
  let m := if month_index doy <? 10 then month_index doy + 3
           else month_index doy - 9 in
  (if m <=? 2 then yoe + era * 400 + 1 else yoe + era * 400,
   m, day_of_month doy).
Proof.
  unfold civil_from_days, year_of_era, first_day, day_of_month, month_index.
  cbv zeta. reflexivity.
Qed.

Lemma civil_from_days_bounds days y m d :
  -719468 <= days < 2932897 ->
  civil_from_days days = (y, m, d) ->
  0 <= y <= 9999 /\ 1 <= m <= 12 /\ 1 <= d <= 31.
Proof.
  intros H E. rewrite civil_from_days_steps in E. cbv zeta in E.
  set (z := days + 719468) in *.
  set (doe := z - z / 146097 * 146097) in *.
  assert (Hz : 0 <= z < 3652365) by (unfold z; lia).
  assert (Hera : 0 <= z / 146097 <= 24) by (Z.div_mod_to_equations; lia).
  assert (Hdoe : 0 <= doe < 146097)
    by (unfold doe; Z.div_mod_to_equations; lia).
  pose proof (year_of_era_bounds doe Hdoe) as Hy.
  pose proof (day_of_year_bounds doe Hdoe) as Hdoy.
  destruct (month_day_bounds _ Hdoy) as (Hmp & Hd & Hmarch).
  injection E as <- <- <-.
  split; [|split; [|exact Hd]].
  - destruct (Z.ltb_spec (month_index (doe - first_day (year_of_era doe))) 10)
      as [Hlt | Hge].
    + replace (month_index (doe - first_day (year_of_era doe)) + 3 <=? 2)
        with false by (symmetry; apply Z.leb_gt; lia).
      lia.
    + replace (month_index (doe - first_day (year_of_era doe)) - 9 <=? 2)
        with true by (symmetry; apply Z.leb_le; lia).
      destruct (Z.eq_dec (z / 146097) 24) as [E24 | N24]; [|lia].
      destruct (Z.eq_dec (year_of_era doe) 399) as [E399 | N399]; [|lia].
      exfalso.
      assert (Hlast : doe < 146037) by (unfold doe; lia).
      rewrite E399 in Hmarch, Hge. change (first_day 399) with 145731 in *.
      lia.
  - destruct (Z.ltb_spec (month_index (doe - first_day (year_of_era doe))) 10);
      lia.
Qed.

Lemma in_range_some lo hi v : lo <= v <= hi -> in_range lo hi (Some v) = true.
Proof.
  intros H. unfold in_range. apply andb_true_intro. split; apply Z.leb_le; lia.
Qed.

(** [toISOString] writes a well-formed ISO-8601 date-time for every time
    value of the years 1970 to 9999. *)
Lemma toISOString_iso8601 t :
  0 <= t < 253402300800000 -> is_iso8601 (toISOString t) = true.
Proof.
  intros Ht. unfold toISOString, msPerDay.
  assert (Hd : -719468 <= t / 86400000 < 2932897)
    by (Z.div_mod_to_equations; lia).
  destruct (civil_from_days (t / 86400000)) as [[y m] d] eqn:E.
  destruct (civil_from_days_bounds _ _ _ _ Hd E) as (Hy & Hm & Hday).
  unfold year_string.
  replace ((0 <=? y) && (y <=? 9999))%bool with true
    by (symmetry; apply andb_true_intro; split; apply Z.leb_le; lia).
  set (tod := t mod 86400000).
  assert (Htod : 0 <= tod < 86400000) by (apply Z.mod_pos_bound; lia).
  unfold is_iso8601. cbn [pad append list_ascii_of_string].
  rewrite number_of_4, !number_of_2, number_of_3
    by (Z.div_mod_to_equations; lia).
  rewrite !in_range_some by (Z.div_mod_to_equations; lia).
  reflexivity.
Qed.

(** The day number of the date of a day number is that day number. *)
Lemma days_from_civil_of_civil_from_days days y m d :
  -719468 <= days < 2932897 ->
  civil_from_days days = (y, m, d) ->
  days_from_civil y m d = days.
Proof.
  intros H E. rewrite civil_from_days_steps in E. cbv zeta in E.
  set (z := days + 719468) in *.
  set (era := z / 146097) in *.
  set (doe := z - era * 146097) in *.
  assert (Hdoe : 0 <= doe < 146097)
    by (unfold doe, era; Z.div_mod_to_equations; lia).
  pose proof (year_of_era_bounds doe Hdoe) as Hy.
  pose proof (day_of_year_bounds doe Hdoe) as Hdoy.
  destruct (month_day_bounds _ Hdoy) as (Hmp & Hd & _).
  set (yoe := year_of_era doe) in *.
  set (doy := doe - first_day yoe) in *.
  set (mp := month_index doy) in *.
  assert (Hdm : day_of_month doy = doy - (153 * mp + 2) / 5 + 1) by reflexivity.
  assert (Hfirst : first_day yoe = 365 * yoe + yoe / 4 - yoe / 100)
    by reflexivity.
  unfold days_from_civil.
  destruct (Z.ltb_spec mp 10) as [Hlt | Hge]; injection E as <- <- <-.
  - replace (mp + 3 <=? 2) with false by (symmetry; apply Z.leb_gt; lia).
    cbv zeta.
    replace ((yoe + era * 400) / 400) with era
      by (Z.div_mod_to_equations; lia).
    replace (mp + 3 - 3) with mp by lia.
    replace (yoe + era * 400 - era * 400) with yoe by lia.
    rewrite Hdm. unfold doy in *. unfold doe, z in *. lia.
  - replace (mp - 9 <=? 2) with true by (symmetry; apply Z.leb_le; lia).
    cbv zeta.
    replace ((yoe + era * 400 + 1 - 1) / 400) with era
      by (Z.div_mod_to_equations; lia).
    replace (mp - 9 + 9) with mp by lia.
    replace (yoe + era * 400 + 1 - 1 - era * 400) with yoe by lia.
    rewrite Hdm. unfold doy in *. unfold doe, z in *. lia.
Qed.

(** The text [toISOString] writes denotes the time value it was given,
    for every time value of the years 1970 to 9999. *)
Lemma time_value_toISOString t :
  0 <= t < 253402300800000 -> time_value (toISOString t) = Some t.
Proof.
  intros Ht. unfold time_value. rewrite (toISOString_iso8601 t Ht).
  unfold toISOString, msPerDay.
  assert (Hd : -719468 <= t / 86400000 < 2932897)
    by (Z.div_mod_to_equations; lia).
  destruct (civil_from_days (t / 86400000)) as [[y m] d] eqn:E.
  destruct (civil_from_days_bounds _ _ _ _ Hd E) as (Hy & Hm & Hday).
  pose proof (days_from_civil_of_civil_from_days _ _ _ _ Hd E) as Hdays.
  unfold year_string.
  replace ((0 <=? y) && (y <=? 9999))%bool with true
    by (symmetry; apply andb_true_intro; split; apply Z.leb_le; lia).
  set (tod := t mod 86400000).
  assert (Htod : 0 <= tod < 86400000) by (apply Z.mod_pos_bound; lia).
  cbn [pad append list_ascii_of_string].
  rewrite number_of_4, !number_of_2, number_of_3
    by (Z.div_mod_to_equations; lia).
  rewrite Hdays. f_equal. unfold tod. Z.div_mod_to_equations. lia.
Qed.

End JsDateFacts.

Open Scope list_scope.

(* ------------------------------------------------------------------ *)
(** ** Trimming *)
(* ------------------------------------------------------------------ *)

Section Trim.

Import JsString.

Lemma chars_join_bounded n : forall s, String.length s <= n -> join (chars s) = s.
Proof.
  induction n as [|n IH]; intros s Hs.
  - destruct s; [reflexivity | cbn in Hs; lia].
  - destruct s as [|c1 s1]; [reflexivity|]. cbn [String.length] in Hs.
    cbn [chars].
    assert (Hrec : forall s', String.length s' <= n -> join (chars s') = s')
      by exact IH.
    destruct (lead_kind c1) as [|[|[|[|[|k]]]]];
      [ | | destruct s1 as [|c2 s2]
          | destruct s1 as [|c2 [|c3 s3]]
          | destruct s1 as [|c2 [|c3 [|c4 s4]]] | ];
      cbn [join fold_right append String.length] in *;
      repeat (f_equal; try reflexivity);
      apply Hrec; cbn [String.length]; lia.
Qed.

(** The characters of a text make up the text. *)
Lemma chars_join s : join (chars s) = s.
Proof. apply (chars_join_bounded (String.length s)). apply le_n. Qed.

Lemma forallb_rev_true {A : Type} (p : A -> bool) (l : list A) :
  forallb p l = true -> forallb p (rev l) = true.
Proof.
  rewrite !forallb_forall. intros H x Hx. apply H. now apply in_rev.
Qed.

Lemma drop_white_split l :
  exists pre, l = pre ++ drop_white l /\ forallb is_white_space pre = true.
Proof.
  induction l as [|ch l (pre & Hl & Hpre)]; [now exists []|].
  cbn [drop_white]. destruct (is_white_space ch) eqn:E.
  - exists (ch :: pre). cbn [app forallb]. rewrite E, Hpre.
    split; [now f_equal | reflexivity].
  - now exists [].
Qed.

Lemma drop_white_head l :
  match drop_white l with
  | ch :: _ => is_white_space ch = false
  | [] => True
  end.
Proof.
  induction l as [|ch l IH]; [exact I|].
  cbn [drop_white]. destruct (is_white_space ch) eqn:E; [exact IH | exact E].
Qed.

(** [trim] removes the white space characters at both ends and nothing
    else. *)
Lemma trim_strips_both_ends s :
  exists pre mid post,
    chars s = pre ++ mid ++ post
    /\ trim s = join mid
    /\ forallb is_white_space pre = true
    /\ forallb is_white_space post = true
    /\ match mid with ch :: _ => is_white_space ch = false | [] => True end
    /\ match rev mid with ch :: _ => is_white_space ch = false | [] => True end.
Proof.
  destruct (drop_white_split (chars s)) as (pre & Hs & Hpre).
  set (a := drop_white (chars s)) in *.
  destruct (drop_white_split (rev a)) as (q & Ha & Hq).
  exists pre, (rev (drop_white (rev a))), (rev q).
  assert (Ha' : a = rev (drop_white (rev a)) ++ rev q).
  { rewrite <- rev_app_distr, <- Ha. now rewrite rev_involutive. }
  split; [now rewrite <- Ha'|]. split; [reflexivity|]. split; [exact Hpre|].
  split; [now apply forallb_rev_true|]. split.
  - pose proof (drop_white_head (chars s)) as Hh. fold a in Hh.
    destruct (rev (drop_white (rev a))) as [|ch mid] eqn:E; [exact I|].
    rewrite Ha' in Hh. exact Hh.
  - rewrite rev_involutive. apply drop_white_head.
Qed.

End Trim.

(* ------------------------------------------------------------------ *)
(** ** Row extraction *)
(* ------------------------------------------------------------------ *)

Section Extraction.

Import Dom.

Let tr_not_first (fn : bool * Node) : bool := is_tr (snd fn) && negb (fst fn).
Let any_tr (fn : bool * Node) : bool := is_tr (snd fn).
Let any_td (fn : bool * Node) : bool := is_td (snd fn).

Lemma filter_nothing {A : Type} (p q : A -> bool) (l : list A) :
  forallb (fun x => negb (p x)) l = true ->
  (forall x, q x = true -> p x = true) ->
  filter q l = [].
Proof.
  intros Hl Hq. induction l as [|x l IH]; [reflexivity|].
  cbn [forallb] in Hl. apply andb_prop in Hl as [Hx Hl].
  cbn [filter]. destruct (q x) eqn:E; [|now apply IH].
  apply Hq in E. rewrite E in Hx. discriminate Hx.
Qed.

Lemma among_elements (first : bool) (l : list Node) :
  among descendants first l = among descendants first (elements l).
Proof.
  revert first. induction l as [|n l IH]; intros first; [reflexivity|].
  destruct n as [data|tag cs].
  - cbn [among elements filter is_text negb]. apply IH.
  - change (elements (Element tag cs :: l)) with (Element tag cs :: elements l).
    cbn [among]. now rewrite IH.
Qed.

(** The rows among plain rows that follow an element of their parent are
    these rows themselves. *)
Lemma among_plain_rows (l : list Node) :
  forallb plain_row l = true ->
  map snd (filter tr_not_first (among descendants false l)) = l
  /\ map snd (filter any_tr (among descendants false l)) = l.
Proof.
  induction l as [|row l IH]; intros H; [now split|].
  cbn [forallb] in H. apply andb_prop in H as [Hrow Hl].
  destruct (IH Hl) as [IH1 IH2].
  unfold plain_row in Hrow.
  apply andb_prop in Hrow as [Hrow _]. apply andb_prop in Hrow as [Htr Hfree].
  destruct row as [data|[] cs]; try discriminate Htr.
  unfold free_of in Hfree.
  change (among descendants false (Element TR cs :: l))
    with ((false, Element TR cs)
            :: descendants (Element TR cs) ++ among descendants false l).
  change (filter tr_not_first ((false, Element TR cs) :: ?x))
    with ((false, Element TR cs) :: filter tr_not_first x).
  change (filter any_tr ((false, Element TR cs) :: ?x))
    with ((false, Element TR cs) :: filter any_tr x).
  rewrite !filter_app.
  rewrite (filter_nothing _ tr_not_first _ Hfree),
          (filter_nothing _ any_tr _ Hfree).
  - cbn [app map snd]. now rewrite IH1, IH2.
  - intros x Hx. exact Hx.
  - intros x Hx. unfold tr_not_first in Hx. now apply andb_prop in Hx as [Hx _].
Qed.

(** In a row group of plain rows the selector takes the rows after the
    first, and the rows of the group are all of them. *)
Lemma selection_of_group (l : list Node) :
  forallb plain_row l = true ->
  map snd (filter tr_not_first (among descendants true l)) = tl l
  /\ map snd (filter any_tr (among descendants true l)) = l.
Proof.
  destruct l as [|header body]; [now split|]. intros H.
  cbn [forallb] in H. apply andb_prop in H as [Hrow Hl].
  destruct (among_plain_rows body Hl) as [H1 H2].
  unfold plain_row in Hrow.
  apply andb_prop in Hrow as [Hrow _]. apply andb_prop in Hrow as [Htr Hfree].
  destruct header as [data|[] cs]; try discriminate Htr.
  unfold free_of in Hfree.
  change (among descendants true (Element TR cs :: body))
    with ((true, Element TR cs)
            :: descendants (Element TR cs) ++ among descendants false body).
  change (filter tr_not_first ((true, Element TR cs) :: ?x))
    with (filter tr_not_first x).
  change (filter any_tr ((true, Element TR cs) :: ?x))
    with ((true, Element TR cs) :: filter any_tr x).
  rewrite !filter_app.
  rewrite (filter_nothing _ tr_not_first _ Hfree),
          (filter_nothing _ any_tr _ Hfree).
  - cbn [app map snd tl]. now rewrite H1, H2.
  - intros x Hx. exact Hx.
  - intros x Hx. unfold tr_not_first in Hx. now apply andb_prop in Hx as [Hx _].
Qed.

(** In a GridView the selector takes the rows after the header, and
    these are plain rows. *)
Lemma selection_of_grid_view (table : Node) :
  grid_view table = true ->
  querySelectorAll_tr_not_first_child table = non_header_rows table
  /\ forallb plain_row (non_header_rows table) = true.
Proof.
  unfold grid_view. intros H.
  destruct table as [data|[] l]; try discriminate H.
  destruct (elements l) as [|[data|[] group] [|e more]] eqn:El;
    try discriminate H.
  destruct (selection_of_group (elements group) H) as [H1 H2].
  unfold querySelectorAll_tr_not_first_child, non_header_rows, rows.
  fold tr_not_first. fold any_tr.
  cbn [descendants]. rewrite (among_elements true l), El.
  change (among descendants true [Element TBODY group])
    with ((true, Element TBODY group) :: descendants (Element TBODY group) ++ []).
  rewrite app_nil_r.
  change (filter tr_not_first ((true, Element TBODY group) :: ?x))
    with (filter tr_not_first x).
  change (filter any_tr ((true, Element TBODY group) :: ?x))
    with (filter any_tr x).
  cbn [descendants]. rewrite (among_elements true group), H1, H2.
  split; [reflexivity|].
  destruct (elements group) as [|header body]; [reflexivity|].
  cbn [forallb tl] in *. now apply andb_prop in H as [_ H].
Qed.

(** The [td] elements under some siblings: each sibling that is a [td],
    followed by the [td] elements under it. *)
Lemma td_among (first : bool) (l : list Node) :
  map snd (filter any_td (among descendants first l))
  = flat_map (fun c => (if is_td c then [c] else []) ++ querySelectorAll_td c) l.
Proof.
  revert first. induction l as [|c l IH]; intros first; [reflexivity|].
  destruct c as [data|tag cs].
  - cbn [among flat_map is_td]. rewrite IH. reflexivity.
  - cbn [among flat_map]. cbn [filter]. unfold any_td at 1. cbn [snd].
    unfold querySelectorAll_td at 1. fold any_td.
    destruct (is_td (Element tag cs));
      rewrite filter_app, ?map_cons, map_app, IH; reflexivity.
Qed.

Lemma querySelectorAll_td_children (tag : Tag) (l : list Node) :
  querySelectorAll_td (Element tag l)
  = flat_map (fun c => (if is_td c then [c] else []) ++ querySelectorAll_td c) l.
Proof. apply td_among. Qed.

Lemma free_of_td (c : Node) :
  free_of is_td c = true -> querySelectorAll_td c = [].
Proof.
  intros H. unfold querySelectorAll_td.
  rewrite (filter_nothing _ _ _ H); [reflexivity|]. intros x Hx. exact Hx.
Qed.

(** The cells the program reads in a plain row are the [td] children of
    the row. *)
Lemma plain_row_cells (row : Node) :
  plain_row row = true -> querySelectorAll_td row = cells row.
Proof.
  unfold plain_row. intros H. apply andb_prop in H as [H Hcells].
  apply andb_prop in H as [Htr _].
  destruct row as [data|tag cs]; [discriminate Htr|].
  rewrite querySelectorAll_td_children. unfold cells. cbn [children] in *.
  clear Htr. induction cs as [|c cs IH]; [reflexivity|].
  cbn [forallb] in Hcells. apply andb_prop in Hcells as [Hc Hcs].
  cbn [flat_map filter]. rewrite (free_of_td c Hc), app_nil_r, (IH Hcs).
  now destruct (is_td c).
Qed.

Lemma or_empty_trim (s : string) :
  JsString.or_empty (Some (JsString.trim s)) = JsString.trim s.
Proof.
  simpl. destruct (String.eqb_spec (JsString.trim s) ""); congruence.
Qed.

(** What the program reads at a position of a plain row is the content of
    the cell at that position, stripped, or the empty string. *)
Lemma cell_text_reads (row : Node) (i : nat) :
  plain_row row = true ->
  reads row i (cell_text (querySelectorAll_td row) i).
Proof.
  intros H. rewrite (plain_row_cells row H). unfold reads, cell_text.
  destruct (nth_error (cells row) i) as [c|]; cbn [option_map].
  - rewrite or_empty_trim. apply trim_strips_both_ends.
  - reflexivity.
Qed.

(** C3, as the specification states it, fails: in a table whose header
    row is in a row group of its own, the selector drops the first row of
    the next group as well, so that two rows after the header give one
    registration. *)
Lemma header_group_costs_a_row :
  non_header_rows Sample.grouped = [Sample.row1; Sample.row2]
  /\ extractRegistrations Sample.grouped = [row_to_registration Sample.row2]
  /\ length (extractRegistrations Sample.grouped)
     <> length (non_header_rows Sample.grouped).
Proof.
  split; [reflexivity|]. split; [reflexivity|]. cbn. discriminate.
Qed.

(** C3, amended.  For a GridView (a table of one row group, whose rows
    are plain and the first of which is the header) extraction emits one
    registration per row after the header, in the order of the rows: as
    many registrations as rows after the header, the i-th registration
    holding, for the [td] cells at positions 1 to 5 of the i-th such row,
    the content of the cell without the white space at its two ends, and
    the empty string where the row has no cell at that position. *)
Theorem extraction_one_registration_per_row (table : Node) :
  grid_view table = true ->
  length (extractRegistrations table) = length (non_header_rows table)
  /\ (forall i row,
        nth_error (non_header_rows table) i = Some row ->
        exists r,
          nth_error (extractRegistrations table) i = Some r
          /\ reads row 1 (polideportivo r)
          /\ reads row 2 (categoria r)
          /\ reads row 3 (actividad r)
          /\ reads row 4 (subcategoria r)
          /\ reads row 5 (horario r)).
Proof.
  intros H. destruct (selection_of_grid_view table H) as [Hsel Hplain].
  unfold extractRegistrations. rewrite Hsel.
  split; [apply length_map|].
  intros i row Hrow. exists (row_to_registration row).
  split; [now rewrite nth_error_map, Hrow|].
  assert (Hrow' : plain_row row = true).
  { rewrite forallb_forall in Hplain. apply Hplain.
    now apply nth_error_In with i. }
  unfold row_to_registration.
  cbn [polideportivo categoria actividad subcategoria horario].
  repeat split; now apply cell_text_reads.
Qed.

End Extraction.

Lemma extraction_one_registration_per_row_witness :
  length (Dom.extractRegistrations Sample.two_rows)
  = length (Dom.non_header_rows Sample.two_rows)
  /\ Dom.non_header_rows Sample.two_rows = [Sample.row1; Sample.row2].
Proof.
  split; [|reflexivity].
  exact (proj1 (extraction_one_registration_per_row Sample.two_rows eq_refl)).
Defined.

(* ------------------------------------------------------------------ *)
(** ** Running the blocks of [scrape] *)
(* ------------------------------------------------------------------ *)

(** One step of a monadic program applied to a world. *)
Ltac exec_step :=
  match goal with
  | |- context [emit ?e ?w] => change (emit e w) with (Normal tt, add_event w e)
  | |- context [assign_page ?b ?w] =>
      change (assign_page b w) with (Normal tt, set_page w b)
  | |- context [store ?b ?w] => change (store b w) with (Normal tt, put_blob w b)
  | |- context [deliver ?b ?w] =>
      change (deliver b w) with (Normal tt, add_outbox w b)
  | |- context [logical_time ?w] =>
      change (logical_time w) with (Normal (length (trace w)), w)
  | |- context [fetched_text {| fetched_status := ?c; fetched_text := ?t |}] =>
      change (fetched_text {| fetched_status := c; fetched_text := t |}) with t
  | H : ?s = _ |- context [match ?s with Fulfilled _ => _ | Rejected _ => _ end] =>
      rewrite H
  | |- context [match ?s with Fulfilled _ => _ | Rejected _ => _ end] =>
      destruct s eqn:?
  end.

Ltac exec :=
  cbv beta iota delta [await settle log log_error bind tryCatch tryFinally ret
                       throw];
  repeat (cbv beta iota; exec_step); cbv beta iota.

Ltac units := repeat match goal with u : unit |- _ => destruct u end.

Ltac project :=
  cbn [trace blobs outbox page add_event set_page put_blob add_outbox fst snd].

Ltac project_in H :=
  cbn [trace blobs outbox page add_event set_page put_blob add_outbox fst snd] in H.

Lemma skipn_app_length {A : Type} (a b : list A) :
  skipn (length a) (a ++ b) = b.
Proof. induction a; simpl; auto. Qed.

Lemma skipn_length_self {A : Type} (a : list A) : skipn (length a) a = [].
Proof. induction a; simpl; auto. Qed.

Section Leaves.

Variable env : Env.

Lemma sendEmail_unconfigured regs blobUrl w :
  configured env = false ->
  sendEmail env regs blobUrl w =
  (Normal tt,
   add_event (add_event w (call_sendEmail regs blobUrl))
             (console_error "✗ Missing email configuration" None)).
Proof.
  unfold configured, sendEmail. intros H.
  destruct (JsString.truthy (RECIPIENT_EMAIL env)),
           (JsString.truthy (FROM_EMAIL env));
    try discriminate H; reflexivity.
Qed.

Lemma sendEmail_accepted regs blobUrl w :
  configured env = true ->
  send env (length (trace (add_event w (call_sendEmail regs blobUrl))))
       (message_for env regs blobUrl) = Fulfilled tt ->
  sendEmail env regs blobUrl w =
  (Normal tt,
   add_event
     (add_outbox
        (add_event (add_event w (call_sendEmail regs blobUrl))
                   (sgMail_send (message_for env regs blobUrl)))
        (message_for env regs blobUrl))
     (console_log "✓ Email sent successfully")).
Proof.
  unfold configured, sendEmail. intros H Hs.
  destruct (JsString.truthy (RECIPIENT_EMAIL env)),
           (JsString.truthy (FROM_EMAIL env));
    try discriminate H.
  cbv beta iota zeta delta [negb orb sgMail_send_call]. exec. reflexivity.
Qed.

Lemma sendEmail_rejected regs blobUrl w reason :
  configured env = true ->
  send env (length (trace (add_event w (call_sendEmail regs blobUrl))))
       (message_for env regs blobUrl) = Rejected reason ->
  sendEmail env regs blobUrl w =
  (Throw {| thrown_by := OpSend; message := reason |},
   add_event
     (add_event (add_event w (call_sendEmail regs blobUrl))
                (sgMail_send (message_for env regs blobUrl)))
     (console_error "✗ Error sending email:"
        (Some {| thrown_by := OpSend; message := reason |}))).
Proof.
  unfold configured, sendEmail. intros H Hs.
  destruct (JsString.truthy (RECIPIENT_EMAIL env)),
           (JsString.truthy (FROM_EMAIL env));
    try discriminate H.
  cbv beta iota zeta delta [negb orb sgMail_send_call]. exec. reflexivity.
Qed.

Lemma saveData_fulfilled regs w location :
  put env BLOB_FILENAME (snapshot_body env regs) = Fulfilled location ->
  saveData env regs w =
  (Normal location,
   add_event
     (put_blob
        (add_event (add_event w (call_saveData regs))
           (blob_put BLOB_FILENAME (snapshot_body env regs) "application/json"))
        {| pathname := BLOB_FILENAME; url := location;
           content := snapshot_body env regs;
           contentType := "application/json" |})
     (console_log ("✓ Data saved successfully to " ++ location)%string)).
Proof.
  unfold saveData, snapshot_body, snapshot_data, blob_put_call. intros H.
  exec. reflexivity.
Qed.

Lemma saveData_rejected regs w reason :
  put env BLOB_FILENAME (snapshot_body env regs) = Rejected reason ->
  saveData env regs w =
  (Throw {| thrown_by := OpPut; message := reason |},
   add_event
     (add_event (add_event w (call_saveData regs))
        (blob_put BLOB_FILENAME (snapshot_body env regs) "application/json"))
     (console_error "✗ Error saving data:"
        (Some {| thrown_by := OpPut; message := reason |}))).
Proof.
  unfold saveData, snapshot_body, snapshot_data, blob_put_call. intros H.
  exec. reflexivity.
Qed.

Lemma finally_block_fulfilled w :
  close env = Fulfilled tt ->
  finally_block env w =
  (Normal tt,
   add_event (add_event (add_event w browser_close)
                (console_log (nl ++ "=== Process completed ===")%string))
             (console_log "▸ Browser closed")).
Proof. unfold finally_block. intros H. exec. reflexivity. Qed.

Lemma finally_block_rejected w reason :
  close env = Rejected reason ->
  finally_block env w =
  (Throw {| thrown_by := OpClose; message := reason |},
   add_event w browser_close).
Proof. unfold finally_block. intros H. exec. reflexivity. Qed.

(** Steps 1 to 6 complete as [extraction] says, whatever the world; they
    add browsing events only and leave the store and the outbox alone. *)
Lemma extraction_steps_footprint w :
  exists w' evs,
    extraction_steps env w = (extraction env, w')
    /\ trace w' = trace w ++ evs
    /\ forallb browsing evs = true
    /\ blobs w' = blobs w
    /\ outbox w' = outbox w
    /\ page w' = match newPage env with
                 | Fulfilled _ => true
                 | Rejected _ => page w
                 end.
Proof.
  unfold extraction, extraction_steps. exec.
  all: eexists; eexists; split; [reflexivity|]; project;
    repeat rewrite <- app_assoc; cbn [app];
    split; [reflexivity|]; split; [reflexivity|]; auto.
Qed.

(** Where steps 1 to 6 can stop. *)
Lemma extraction_outcome :
  match extraction env with
  | Normal _ => newPage env = Fulfilled tt
  | Throw e =>
      (thrown_by e = OpNewPage /\ newPage env = Rejected (message e))
      \/ (is_ExtractionError e = true /\ newPage env = Fulfilled tt)
  end.
Proof.
  unfold extraction, extraction_steps. exec; units; cbn [fst]; auto.
Qed.

Lemma find_filter_weaker {A : Type} (p q : A -> bool) (l : list A) :
  (forall x, p x = true -> q x = true) ->
  find p (filter q l) = find p l.
Proof.
  intros Hpq. induction l as [|x l IH]; simpl.
  - reflexivity.
  - destruct (q x) eqn:Hq; simpl.
    + destruct (p x); [reflexivity | exact IH].
    + destruct (p x) eqn:Hp; [|exact IH].
      apply Hpq in Hp. congruence.
Qed.

(** Writing another pathname leaves the snapshot as it is. *)
Lemma snapshot_put_other (w : World) (b : Blob) :
  String.eqb (pathname b) BLOB_FILENAME = false ->
  snapshot (put_blob w b) = snapshot w.
Proof.
  intros Hb. unfold snapshot, put_blob. cbn [blobs find].
  rewrite Hb. apply find_filter_weaker.
  intros x Hx. apply String.eqb_eq in Hx.
  destruct (String.eqb_spec (pathname x) (pathname b)) as [E|E]; [|reflexivity].
  rewrite <- E, Hx in Hb. now rewrite String.eqb_refl in Hb.
Qed.

Lemma snapshot_put_snapshot (w : World) (b : Blob) :
  pathname b = BLOB_FILENAME ->
  snapshot (put_blob w b) = Some b.
Proof.
  intros Hb. unfold snapshot, put_blob. cbn [blobs find].
  now rewrite Hb, String.eqb_refl.
Qed.

(** The screenshot attempt never throws; it writes at most the
    screenshot. *)
Lemma capture_screenshot_footprint w :
  exists w' evs,
    capture_screenshot env w = (Normal tt, w')
    /\ trace w' = trace w ++ page_screenshot :: evs
    /\ quiet evs
    /\ snapshot w' = snapshot w
    /\ outbox w' = outbox w
    /\ page w' = page w.
Proof.
  unfold capture_screenshot, blob_put_call. exec.
  all: eexists; eexists; split; [reflexivity|]; project;
    repeat rewrite <- app_assoc; cbn [app];
    split; [reflexivity|]; split; [now constructor|];
    split; [|split; reflexivity].
  - match goal with
    | |- snapshot (add_event (put_blob ?w0 ?b) ?e) = _ =>
        change (snapshot (add_event (put_blob w0 b) e))
          with (snapshot (put_blob w0 b))
    end.
    now rewrite snapshot_put_other.
  - reflexivity.
  - reflexivity.
Qed.

(** A failing capture is reported on the console. *)
Lemma capture_screenshot_failure w :
  capture_fails env ->
  exists error,
    In (console_error "✗ Error saving screenshot:" (Some error))
       (events_since w (snd (capture_screenshot env w)))
    /\ (thrown_by error = OpScreenshot \/ thrown_by error = OpPut).
Proof.
  intros [[reason H] | (image & reason & H1 & H2)];
    unfold capture_screenshot, blob_put_call, events_since; exec;
    eexists; project; repeat rewrite <- app_assoc;
    rewrite skipn_app_length; cbn; auto.
Qed.

End Leaves.

(* ------------------------------------------------------------------ *)
(** ** The paths through [try] and [catch] *)
(* ------------------------------------------------------------------ *)

(** The events and the deliveries between two worlds. *)
Lemma events_since_app w0 w' evs :
  trace w' = trace w0 ++ evs -> events_since w0 w' = evs.
Proof. unfold events_since. intros ->. apply skipn_app_length. Qed.

Lemma delivered_since_app w0 w' ms :
  outbox w' = outbox w0 ++ ms -> delivered_since w0 w' = ms.
Proof. unfold delivered_since. intros ->. apply skipn_app_length. Qed.

Lemma delivered_since_same w0 w' :
  outbox w' = outbox w0 -> delivered_since w0 w' = [].
Proof. unfold delivered_since. intros ->. apply skipn_length_self. Qed.

Lemma sent_messages_app a b :
  sent_messages (a ++ b) = sent_messages a ++ sent_messages b.
Proof. apply flat_map_app. Qed.

Lemma notify_calls_app a b :
  notify_calls (a ++ b) = notify_calls a ++ notify_calls b.
Proof. apply flat_map_app. Qed.

Lemma writes_to_app n a b :
  writes_to n (a ++ b) = writes_to n a ++ writes_to n b.
Proof. apply flat_map_app. Qed.

Lemma snapshot_add_event w e : snapshot (add_event w e) = snapshot w.
Proof. reflexivity. Qed.

Lemma snapshot_add_outbox w m : snapshot (add_outbox w m) = snapshot w.
Proof. reflexivity. Qed.

Lemma snapshot_set_page w b : snapshot (set_page w b) = snapshot w.
Proof. reflexivity. Qed.

Lemma snapshot_same_blobs w w' : blobs w' = blobs w -> snapshot w' = snapshot w.
Proof. unfold snapshot. now intros ->. Qed.

Lemma browsing_quiet evs : forallb browsing evs = true -> quiet evs.
Proof.
  intros H. rewrite forallb_forall in H.
  assert (Hq : forall l, (forall e, In e l -> browsing e = true) ->
             sent_messages l = [] /\ notify_calls l = []
             /\ writes_to BLOB_FILENAME l = [] /\ filter is_close l = []
             /\ existsb is_setInterval l = false).
  { induction l as [|e l IH]; intros Hl; [now repeat split|].
    destruct (IH (fun x Hx => Hl x (or_intror Hx))) as (I1 & I2 & I3 & I4 & I5).
    pose proof (Hl e (or_introl eq_refl)) as He.
    destruct e; try discriminate He; cbn; now repeat split. }
  destruct (Hq evs H) as (? & ? & ? & ? & ?). now constructor.
Qed.

#[local] Arguments message_for : simpl never.
#[local] Arguments snapshot_body : simpl never.
#[local] Arguments JsString.of_nat : simpl never.
#[local] Arguments append : simpl never.

Ltac step_send :=
  match goal with
  | |- context [sendEmail ?env ?regs ?url ?w] =>
    lazymatch goal with
    | H : configured env = false |- _ =>
        rewrite (sendEmail_unconfigured env regs url w H)
    | H : configured env = true |- _ =>
        let E := fresh "Hsend" in
        destruct (send env (length (trace (add_event w (call_sendEmail regs url))))
                       (message_for env regs url)) as [[]|?] eqn:E;
        [ rewrite (sendEmail_accepted env regs url w H E)
        | rewrite (sendEmail_rejected env regs url w _ H E) ]
    | _ => destruct (configured env) eqn:?
    end
  end.

Ltac step_save :=
  match goal with
  | |- context [saveData ?env ?regs ?w] =>
      let E := fresh "Hput" in
      destruct (put env BLOB_FILENAME (snapshot_body env regs)) eqn:E;
      [ rewrite (saveData_fulfilled env regs w _ E)
      | rewrite (saveData_rejected env regs w _ E) ]
  end.

Ltac step_extraction :=
  match goal with
  | |- context [extraction_steps ?env ?w] =>
      let w1 := fresh "w1" in
      let evs1 := fresh "evs1" in
      let Hx := fresh "Hx" in
      let Ht := fresh "Htrace" in
      let Hq := fresh "Hquiet" in
      let Hb := fresh "Hblobs" in
      let Ho := fresh "Houtbox" in
      let Hp := fresh "Hpage" in
      destruct (extraction_steps_footprint env w)
        as (w1 & evs1 & Hx & Ht & Hq & Hb & Ho & Hp);
      rewrite Hx; clear Hx;
      apply browsing_quiet in Hq; destruct Hq;
      apply snapshot_same_blobs in Hb;
      pose proof (extraction_outcome env);
      destruct (extraction env) eqn:?
  end.

Ltac step_capture :=
  match goal with
  | |- context [capture_screenshot ?env ?w] =>
      let w2 := fresh "w2" in
      let evs2 := fresh "evs2" in
      let Hx := fresh "Hx" in
      let Ht := fresh "Htrace" in
      let Hq := fresh "Hquiet" in
      let Hs := fresh "Hsnap" in
      let Ho := fresh "Houtbox" in
      let Hp := fresh "Hpage" in
      destruct (capture_screenshot_footprint env w)
        as (w2 & evs2 & Hx & Ht & Hq & Hs & Ho & Hp);
      rewrite Hx; clear Hx; destruct Hq;
      project_in Ht; project_in Ho; project_in Hp
  end.

Ltac step_finally :=
  match goal with
  | |- context [finally_block ?env ?w] =>
      let E := fresh "Hclose" in
      destruct (close env) as [[]|?] eqn:E;
      [ rewrite (finally_block_fulfilled env w E)
      | rewrite (finally_block_rejected env w _ E) ]
  end.

Ltac step_page :=
  match goal with
  | |- context [read_page ?w] =>
      change (read_page w) with (Normal (page w), w);
      project;
      repeat match goal with
             | H : page ?w1 = _ |- context [page ?w1] => rewrite H
             end;
      try match goal with
          | |- context [match newPage ?env with _ => _ end] =>
              destruct (newPage env) eqn:?
          end
  end.

Ltac walk_steps :=
  cbv beta iota delta [try_and_catch try_block catch_block];
  repeat (exec; first [step_extraction | step_save | step_send | step_page
                      | step_capture | step_finally]);
  exec.

(** All the paths of [try_and_catch env w0 = (c, w') -> G], the final
    completion and world put in place of [c] and [w'] in [G]. *)
Ltac walk :=
  let G := fresh "G" in
  let HG := fresh "HG" in
  let Hrun := fresh "Hrun" in
  match goal with |- _ -> ?concl => remember concl as G eqn:HG end;
  walk_steps;
  intros Hrun; injection Hrun as <- <-; subst G.

(** Projections of the final world, down to the starting one. *)
Ltac observe :=
  project;
  repeat match goal with
         | H : trace ?w = _ |- context [trace ?w] => rewrite H
         | H : outbox ?w = _ |- context [outbox ?w] => rewrite H
         end;
  repeat rewrite <- app_assoc.

Ltac since :=
  unfold events_since, delivered_since; observe;
  rewrite ?skipn_app_length, ?skipn_length_self.

(** Observations of an explicit event list. *)
Ltac tally :=
  repeat progress
    (repeat first [ rewrite sent_messages_app | rewrite notify_calls_app
                  | rewrite writes_to_app | rewrite filter_app
                  | rewrite existsb_app ];
     repeat match goal with
            | H : sent_messages ?l = _ |- context [sent_messages ?l] => rewrite H
            | H : notify_calls ?l = _ |- context [notify_calls ?l] => rewrite H
            | H : writes_to _ ?l = _ |- context [writes_to _ ?l] => rewrite H
            | H : filter is_close ?l = _ |- context [filter is_close ?l] =>
                rewrite H
            | H : existsb is_setInterval ?l = _
              |- context [existsb is_setInterval ?l] => rewrite H
            end;
     simpl).

(** Membership in an explicit list behind unknown prefixes. *)
Ltac in_list :=
  solve [ repeat first [ left; reflexivity
                       | right
                       | apply in_or_app; right ] ].

(** Membership behind unknown prefixes, a known member given. *)
Ltac in_list_after H :=
  solve [ repeat first [ exact H
                       | left; reflexivity
                       | right
                       | apply in_or_app; right ] ].

(** Hypotheses that contradict one another along a path. *)
Ltac absurd_path :=
  solve [ congruence
        | match goal with
          | H : forall t m, send _ t m = Fulfilled tt,
            E : send _ _ _ = Rejected _ |- _ => rewrite H in E; discriminate E
          end
        | match goal with
          | H : _ /\ _ \/ _ /\ _ |- _ =>
              destruct H as [[? ?] | [? ?]]; congruence
          end ].

Section TryAndCatch.

Variable env : Env.

(** The trace and the outbox only grow. *)
Lemma try_and_catch_extends w0 c w' :
  page w0 = false ->
  try_and_catch env w0 = (c, w') ->
  exists evs ms,
    trace w' = trace w0 ++ evs /\ outbox w' = outbox w0 ++ ms.
Proof.
  intros Hp0. walk.
  all: eexists; eexists; split; [observe; reflexivity|].
  all: observe; first [reflexivity | symmetry; apply app_nil_r].
Qed.

(** The browser is not closed here; at most one message is accepted; an
    exception that leaves the [catch] block is that of a rejected send. *)
Lemma try_and_catch_completion w0 c w' :
  page w0 = false ->
  try_and_catch env w0 = (c, w') ->
  filter is_close (events_since w0 w') = []
  /\ existsb is_setInterval (events_since w0 w') = false
  /\ length (delivered_since w0 w') <= 1
  /\ match c with
     | Normal _ => True
     | Throw e => thrown_by e = OpSend /\ configured env = true
                  /\ exists t m, send env t m = Rejected (message e)
     end.
Proof.
  intros Hp0. walk.
  all: split; [since; tally; reflexivity|].
  all: split; [since; tally; reflexivity|].
  all: split; [since; simpl; lia|].
  all: auto; repeat split; eauto.
Qed.

(** What is handed to the mail channel, and how [sendEmail] is called. *)
Lemma try_and_catch_notifications w0 c w' :
  page w0 = false ->
  try_and_catch env w0 = (c, w') ->
  (forall m, In m (sent_messages (events_since w0 w')) ->
     m = no_results_message env
     \/ exists regs location,
          extraction env = Normal regs
          /\ put env BLOB_FILENAME (snapshot_body env regs) = Fulfilled location
          /\ m = message_for env regs (Some location))
  /\ incl (delivered_since w0 w') (sent_messages (events_since w0 w'))
  /\ match extraction env with
     | Throw _ =>
         notify_calls (events_since w0 w') =
         match newPage env with
         | Fulfilled _ => [([], None)]
         | Rejected _ => []
         end
     | Normal regs =>
         match put env BLOB_FILENAME (snapshot_body env regs) with
         | Rejected _ => notify_calls (events_since w0 w') = [([], None)]
         | Fulfilled location =>
             notify_calls (events_since w0 w') = [(regs, Some location)]
             \/ (notify_calls (events_since w0 w')
                 = [(regs, Some location); ([], None)]
                 /\ exists e, In (console_error "✗ Error sending email:" (Some e))
                                 (events_since w0 w'))
         end
     end
  /\ (In ([], None) (notify_calls (events_since w0 w')) ->
      In page_screenshot (events_since w0 w')).
Proof.
  intros Hp0. walk; try absurd_path.
  all: split; [since; tally; unfold no_results_message; intros m Hm;
               repeat (destruct Hm as [<- | Hm]; eauto 6); contradiction|].
  all: split; [since; tally;
               auto using incl_nil_l, incl_refl, incl_tl with datatypes|].
  all: split;
    [ since; tally; rewrite ?Hput;
      try match goal with H : newPage env = _ |- _ => rewrite H end;
      first [ reflexivity
            | left; reflexivity
            | right; split; [reflexivity|]; eexists; in_list ]
    | since; tally;
      lazymatch goal with
      | |- False -> _ => intros []
      | |- _ => intros [Hc|[]]; first [discriminate Hc | in_list]
      end ].
Qed.

(** What is written under the snapshot's name, and the snapshot left in
    the store. *)
Lemma try_and_catch_storage w0 c w' :
  page w0 = false ->
  try_and_catch env w0 = (c, w') ->
  writes_to BLOB_FILENAME (events_since w0 w') =
    match extraction env with
    | Normal regs => [snapshot_body env regs]
    | Throw _ => []
    end
  /\ snapshot w' =
     match extraction env with
     | Normal regs =>
         match put env BLOB_FILENAME (snapshot_body env regs) with
         | Fulfilled location =>
             Some {| pathname := BLOB_FILENAME; url := location;
                     content := snapshot_body env regs;
                     contentType := "application/json" |}
         | Rejected _ => snapshot w0
         end
     | Throw _ => snapshot w0
     end.
Proof.
  intros Hp0. walk; try absurd_path.
  all: split; [since; tally; reflexivity|].
  all: rewrite ?Hput;
    repeat first [ rewrite snapshot_add_event | rewrite snapshot_add_outbox
                 | rewrite snapshot_set_page
                 | rewrite snapshot_put_snapshot by reflexivity
                 | match goal with
                   | H : snapshot ?w = _ |- context [snapshot ?w] => rewrite H
                   end ];
    reflexivity.
Qed.

(** How many messages are handed over and accepted. *)
Lemma try_and_catch_counts w0 c w' :
  page w0 = false ->
  try_and_catch env w0 = (c, w') ->
  length (sent_messages (events_since w0 w')) <= 2
  /\ (configured env = false ->
      sent_messages (events_since w0 w') = [] /\ c = Normal tt)
  /\ (configured env = true ->
      length (sent_messages (events_since w0 w'))
      = length (notify_calls (events_since w0 w')))
  /\ (forall reason, newPage env = Rejected reason ->
      sent_messages (events_since w0 w') = []
      /\ notify_calls (events_since w0 w') = [])
  /\ (configured env = true -> newPage env = Fulfilled tt ->
      (forall t m, send env t m = Fulfilled tt) ->
      length (sent_messages (events_since w0 w')) = 1
      /\ delivered_since w0 w' = sent_messages (events_since w0 w')
      /\ c = Normal tt).
Proof.
  intros Hp0. walk; try absurd_path.
  all: split; [since; tally; lia|].
  all: split; [intros Hc; try absurd_path; since; tally; auto|].
  all: split; [intros Hc; try absurd_path; since; tally; auto|].
  all: split; [intros ? Hr; try absurd_path; since; tally; auto|].
  all: intros Hc Hn Hall; try absurd_path; since; tally; auto.
Qed.

End TryAndCatch.

(* ------------------------------------------------------------------ *)
(** ** A run of [scrape] *)
(* ------------------------------------------------------------------ *)

Section Run.

Variable env : Env.

Lemma page_after_launch w : page (world_after_launch w) = false.
Proof. reflexivity. Qed.

Lemma scrape_launch_rejected w reason :
  launch env = Rejected reason ->
  scrape env w =
  (Throw {| thrown_by := OpLaunch; message := reason |},
   add_event (add_event w starting) puppeteer_launch).
Proof. unfold scrape. intros H. exec. reflexivity. Qed.

Lemma scrape_launch_fulfilled w :
  launch env = Fulfilled tt ->
  scrape env w =
  tryFinally (try_and_catch env) (finally_block env) (world_after_launch w).
Proof. unfold scrape. intros H. exec. reflexivity. Qed.

(** A run whose browser was launched: the events of [try] and [catch]
    between the two opening events and the closing of the browser, after
    which only the console is written. *)
Lemma run_decomposition w :
  launch env = Fulfilled tt ->
  exists c w' fin,
    try_and_catch env (world_after_launch w) = (c, w')
    /\ run_events env w =
       [starting; puppeteer_launch]
         ++ events_since (world_after_launch w) w' ++ browser_close :: fin
    /\ forallb is_console fin = true
    /\ run_delivered env w = delivered_since (world_after_launch w) w'
    /\ snapshot (snd (scrape env w)) = snapshot w'
    /\ fst (scrape env w) =
       match close env with
       | Fulfilled _ => c
       | Rejected reason => Throw {| thrown_by := OpClose; message := reason |}
       end.
Proof.
  intros Hl. unfold run_events, run_delivered.
  rewrite (scrape_launch_fulfilled w Hl). unfold tryFinally.
  destruct (try_and_catch env (world_after_launch w)) as [c w'] eqn:Hb.
  destruct (try_and_catch_extends env _ c w' (page_after_launch w) Hb)
    as (evs & ms & Ht & Ho).
  exists c, w'.
  rewrite (events_since_app _ _ _ Ht), (delivered_since_app _ _ _ Ho).
  unfold world_after_launch in Ht, Ho. project_in Ht. project_in Ho.
  destruct (close env) as [[]|reason] eqn:Hc;
    [ rewrite (finally_block_fulfilled env w' Hc)
    | rewrite (finally_block_rejected env w' _ Hc) ];
    eexists; (split; [reflexivity|]);
    (split; [since; cbn [app]; reflexivity|]);
    (split; [reflexivity|]);
    (split; [since; reflexivity|]); split; reflexivity.
Qed.

Lemma run_without_browser w reason :
  launch env = Rejected reason ->
  run_events env w = [starting; puppeteer_launch]
  /\ run_delivered env w = []
  /\ snapshot (snd (scrape env w)) = snapshot w
  /\ fst (scrape env w) = Throw {| thrown_by := OpLaunch; message := reason |}.
Proof.
  intros Hl. unfold run_events, run_delivered.
  rewrite (scrape_launch_rejected w _ Hl).
  split; [since; reflexivity|]. split; [since; reflexivity|].
  split; reflexivity.
Qed.

End Run.

Section RunObserved.

Variable env : Env.

Lemma console_quiet fin : forallb is_console fin = true -> quiet fin.
Proof.
  induction fin as [|e fin IH]; intros H; [now constructor|].
  apply andb_prop in H as [He Hfin]. destruct (IH Hfin).
  destruct e; try discriminate He; now constructor.
Qed.

(** The observations of a run are those of its [try] and [catch]. *)
Lemma run_observed w :
  launch env = Fulfilled tt ->
  exists c w',
    try_and_catch env (world_after_launch w) = (c, w')
    /\ sent_messages (run_events env w)
       = sent_messages (events_since (world_after_launch w) w')
    /\ notify_calls (run_events env w)
       = notify_calls (events_since (world_after_launch w) w')
    /\ writes_to BLOB_FILENAME (run_events env w)
       = writes_to BLOB_FILENAME (events_since (world_after_launch w) w')
    /\ (forall e, In e (events_since (world_after_launch w) w') ->
                  In e (run_events env w))
    /\ run_delivered env w = delivered_since (world_after_launch w) w'
    /\ snapshot (snd (scrape env w)) = snapshot w'
    /\ fst (scrape env w) =
       match close env with
       | Fulfilled _ => c
       | Rejected reason => Throw {| thrown_by := OpClose; message := reason |}
       end.
Proof.
  intros Hl.
  destruct (run_decomposition env w Hl)
    as (c & w' & fin & Hb & -> & Hfin & Hd & Hs & Hc).
  apply console_quiet in Hfin. destruct Hfin.
  exists c, w'. split; [exact Hb|].
  split; [tally; now rewrite app_nil_r|].
  split; [tally; now rewrite app_nil_r|].
  split; [tally; now rewrite app_nil_r|].
  split; [intros e He; apply in_or_app; right; apply in_or_app; now left|].
  auto.
Qed.

End RunObserved.

(* ------------------------------------------------------------------ *)
(** ** The notifier *)
(* ------------------------------------------------------------------ *)

(** An empty set renders the same message whatever the link and the
    date. *)
Lemma message_for_empty env blobUrl :
  message_for env [] blobUrl = no_results_message env.
Proof. reflexivity. Qed.

Lemma no_results_message_content env :
  subject (no_results_message env) = "🏀 Sin inscripciones disponibles"
  /\ html (no_results_message env) = Mail.noResultsHtml.
Proof. split; reflexivity. Qed.

Lemma no_results_message_addresses envA envB :
  RECIPIENT_EMAIL envA = RECIPIENT_EMAIL envB ->
  FROM_EMAIL envA = FROM_EMAIL envB ->
  no_results_message envA = no_results_message envB.
Proof.
  unfold no_results_message, message_for, Mail.message. intros -> ->.
  reflexivity.
Qed.

(** A non-empty set has another subject line. *)
Lemma message_for_data_differs env r regs blobUrl :
  message_for env (r :: regs) blobUrl <> no_results_message env.
Proof.
  intros H. apply (f_equal subject) in H. discriminate H.
Qed.

(** C7.  With the recipient or the sender address missing (undefined or
    empty), [sendEmail] returns normally after reporting the missing
    configuration on the console: nothing is handed to the mail channel
    and the outbox is as before, whatever the registrations. *)
Theorem notify_without_addresses_is_silent env regs blobUrl w :
  JsString.truthy (RECIPIENT_EMAIL env) = false
  \/ JsString.truthy (FROM_EMAIL env) = false ->
  fst (sendEmail env regs blobUrl w) = Normal tt
  /\ events_since w (snd (sendEmail env regs blobUrl w))
     = [call_sendEmail regs blobUrl;
        console_error "✗ Missing email configuration" None]
  /\ sent_messages (events_since w (snd (sendEmail env regs blobUrl w))) = []
  /\ outbox (snd (sendEmail env regs blobUrl w)) = outbox w.
Proof.
  intros H.
  assert (Hc : configured env = false).
  { unfold configured. destruct H as [-> | ->]; [reflexivity|].
    apply andb_false_r. }
  rewrite (sendEmail_unconfigured env regs blobUrl w Hc).
  assert (He : events_since w
                 (add_event (add_event w (call_sendEmail regs blobUrl))
                    (console_error "✗ Missing email configuration" None))
               = [call_sendEmail regs blobUrl;
                  console_error "✗ Missing email configuration" None]).
  { since. reflexivity. }
  cbn [fst snd]. rewrite He. repeat split.
Qed.

Lemma notify_without_addresses_is_silent_witness :
  fst (sendEmail Sample.no_recipient (Dom.extractRegistrations Sample.two_rows)
         None empty_world) = Normal tt
  /\ outbox (snd (sendEmail Sample.no_recipient
                    (Dom.extractRegistrations Sample.two_rows) None empty_world))
     = [].
Proof.
  destruct (notify_without_addresses_is_silent Sample.no_recipient
              (Dom.extractRegistrations Sample.two_rows) None empty_world
              (or_introl eq_refl)) as (H1 & _ & _ & H4).
  split; [exact H1 | exact H4].
Defined.

(* ------------------------------------------------------------------ *)
(** ** The failure path *)
(* ------------------------------------------------------------------ *)

(** C6.  When the diagnostic capture throws (the screenshot or the write
    of it), the [catch] block reports it on the console and goes on to
    call [sendEmail] with an empty registration set: from any world in
    which the page exists, the [catch] block completes as that call does;
    and in a run whose extraction fails, [sendEmail] is called exactly
    once, with an empty set and no link, after the screenshot attempt. *)
Theorem capture_failure_does_not_block_notification env :
  capture_fails env ->
  (forall error w,
      page w = true ->
      exists w1 reported,
        catch_block env error w = sendEmail env [] None w1
        /\ In (console_error "✗ Error saving screenshot:" (Some reported))
              (events_since w w1)
        /\ notify_calls (events_since w w1) = []
        /\ outbox w1 = outbox w)
  /\ (forall w e,
        launch env = Fulfilled tt ->
        extraction env = Throw e ->
        is_ExtractionError e = true ->
        notify_calls (run_events env w) = [([], None)]
        /\ In page_screenshot (run_events env w)).
Proof.
  intros Hcap. split.
  - intros error w Hp. unfold catch_block. exec.
    change (read_page ?w0) with (Normal (page w0), w0). project.
    rewrite Hp. cbv beta iota.
    match goal with
    | |- context [capture_screenshot env ?w0] =>
        destruct (capture_screenshot_failure env w0 Hcap) as (reported & Hin & _);
        destruct (capture_screenshot_footprint env w0)
          as (w2 & evs2 & Hx & Ht & Hq & _ & Ho & _)
    end.
    rewrite Hx in Hin |- *. cbn [snd] in Hin. destruct Hq.
    rewrite (events_since_app _ _ _ Ht) in Hin.
    project_in Ht. project_in Ho.
    exists w2, reported. split; [reflexivity|].
    split; [since; in_list_after Hin|].
    split; [since; tally; reflexivity | exact Ho].
  - intros w e Hl He Hx.
    destruct (run_observed env w Hl) as (c & w' & Hb & _ & -> & _ & Hin & _).
    destruct (try_and_catch_notifications env _ c w' (page_after_launch w) Hb)
      as (_ & _ & Hcalls & Hshot).
    rewrite He in Hcalls. pose proof (extraction_outcome env) as Ho.
    rewrite He in Ho. destruct Ho as [[Ho _] | [_ Ho]].
    + destruct e as [op msg]. cbn in Ho. subst op. discriminate Hx.
    + rewrite Ho in Hcalls. split; [exact Hcalls|].
      apply Hin, Hshot. rewrite Hcalls. now left.
Qed.

Lemma capture_failure_does_not_block_notification_witness :
  notify_calls (run_events Sample.unreachable_no_capture empty_world)
  = [([], None)].
Proof.
  assert (Hcap : capture_fails Sample.unreachable_no_capture).
  { left. exists "Target closed". reflexivity. }
  destruct (capture_failure_does_not_block_notification
              Sample.unreachable_no_capture Hcap) as [_ H].
  destruct (H empty_world
              {| thrown_by := OpGoto; message := "net::ERR_NAME_NOT_RESOLVED" |}
              eq_refl eq_refl eq_refl) as [H1 _].
  exact H1.
Defined.

(* ------------------------------------------------------------------ *)
(** ** Release of the browser *)
(* ------------------------------------------------------------------ *)

(** C9.  In a run whose browser was launched, whatever the outcome of
    extraction, storage, notification and of the closing itself,
    [browser.close()] is called exactly once: the events of the run are
    some events without a close, then the close, then console output
    only. *)
Theorem browser_closed_exactly_once env w :
  launch env = Fulfilled tt ->
  exists before after,
    run_events env w = before ++ browser_close :: after
    /\ filter is_close before = []
    /\ forallb is_console after = true
    /\ length (filter is_close (run_events env w)) = 1.
Proof.
  intros Hl.
  destruct (run_decomposition env w Hl)
    as (c & w' & fin & Hb & Hrun & Hfin & _).
  destruct (try_and_catch_completion env _ c w' (page_after_launch w) Hb)
    as (Hclose & _).
  exists ([starting; puppeteer_launch]
            ++ events_since (world_after_launch w) w'), fin.
  assert (Hq : filter is_close fin = []) by (now destruct (console_quiet fin Hfin)).
  split; [now rewrite Hrun, <- app_assoc|].
  split; [tally; reflexivity|].
  split; [exact Hfin|].
  rewrite Hrun. tally. reflexivity.
Qed.

Lemma browser_closed_exactly_once_witness :
  length (filter is_close (run_events Sample.store_rejects empty_world)) = 1.
Proof.
  destruct (browser_closed_exactly_once Sample.store_rejects empty_world eq_refl)
    as (before & after & _ & _ & _ & H).
  exact H.
Defined.

(* ------------------------------------------------------------------ *)
(** ** One message per run *)
(* ------------------------------------------------------------------ *)

(** C5, as the specification states it, fails: a run without recipient
    hands nothing to the mail channel. *)
Lemma run_without_recipient_sends_nothing :
  length (sent_messages (run_events Sample.no_recipient empty_world)) <> 1
  /\ length (run_delivered Sample.no_recipient empty_world) <> 1.
Proof. split; vm_compute; discriminate. Qed.

(** C5, amended.  A run delivers at most one message and hands at most
    two to the mail channel.  It hands over none when an address is
    missing, when the browser cannot be launched or when the page cannot
    be opened.  It hands over exactly one, which is delivered, when the
    browser is launched, the page is opened, both addresses are set and
    the channel accepts what it is given: whether rows were found, none
    were found, or extraction failed. *)
Theorem at_most_one_message_per_run env w :
  length (run_delivered env w) <= 1
  /\ length (sent_messages (run_events env w)) <= 2
  /\ (configured env = false -> sent_messages (run_events env w) = [])
  /\ ((exists reason, launch env = Rejected reason)
      \/ (exists reason, newPage env = Rejected reason) ->
      sent_messages (run_events env w) = [])
  /\ (launch env = Fulfilled tt -> newPage env = Fulfilled tt ->
      configured env = true ->
      (forall t m, send env t m = Fulfilled tt) ->
      length (sent_messages (run_events env w)) = 1
      /\ run_delivered env w = sent_messages (run_events env w)).
Proof.
  destruct (launch env) as [[]|reason] eqn:Hl.
  - destruct (run_observed env w Hl)
      as (c & w' & Hb & -> & _ & _ & _ & -> & _).
    destruct (try_and_catch_completion env _ c w' (page_after_launch w) Hb)
      as (_ & _ & Hlen & _).
    destruct (try_and_catch_counts env _ c w' (page_after_launch w) Hb)
      as (Hsent & Hunconf & _ & Hnopage & Hone).
    split; [exact Hlen|]. split; [exact Hsent|].
    split; [intros Hc; now apply Hunconf|].
    split.
    + intros [[r Hr] | [r Hr]]; [discriminate Hr | now apply (Hnopage r)].
    + intros _ Hn Hc Hall. destruct (Hone Hc Hn Hall) as (H1 & H2 & _). auto.
  - destruct (run_without_browser env w reason Hl) as (Hev & Hd & _).
    rewrite Hev, Hd. cbn.
    split; [lia|]. split; [lia|]. split; [reflexivity|].
    split; [reflexivity|]. intros H; discriminate H.
Qed.

Lemma at_most_one_message_per_run_witness :
  length (sent_messages (run_events Sample.unreachable empty_world)) = 1
  /\ run_delivered Sample.unreachable empty_world
     = sent_messages (run_events Sample.unreachable empty_world).
Proof.
  destruct (at_most_one_message_per_run Sample.unreachable empty_world)
    as (_ & _ & _ & _ & H).
  exact (H eq_refl eq_refl eq_refl (fun t m => eq_refl)).
Defined.

(* ------------------------------------------------------------------ *)
(** ** Exceptions and the scheduler *)
(* ------------------------------------------------------------------ *)

Section Scheduler.

Variable env : Env.

Lemma scrape_trace w : trace (snd (scrape env w)) = (trace w ++ run_events env w)%list.
Proof.
  unfold run_events.
  destruct (launch env) as [[]|reason] eqn:Hl.
  - rewrite (scrape_launch_fulfilled env w Hl). unfold tryFinally.
    destruct (try_and_catch env (world_after_launch w)) as [c w'] eqn:Hb.
    destruct (try_and_catch_extends env _ c w' (page_after_launch w) Hb)
      as (evs & ms & Ht & _).
    unfold world_after_launch in Ht. project_in Ht.
    destruct (close env) as [[]|reason] eqn:Hc;
      [ rewrite (finally_block_fulfilled env w' Hc)
      | rewrite (finally_block_rejected env w' _ Hc) ];
      since; reflexivity.
  - rewrite (scrape_launch_rejected env w _ Hl). since. reflexivity.
Qed.



Lemma start_after_failed_run w e :
  fst (scrape env w) = Throw e ->
  start env w = (Throw e, snd (scrape env w)).
Proof.
  unfold start. intros H. unfold bind at 1.
  destruct (scrape env w) as [c w1]. cbn [fst snd] in *. now subst c.
Qed.

End Scheduler.






(* ------------------------------------------------------------------ *)
(** ** Empty results and failures *)
(* ------------------------------------------------------------------ *)

(** C1, as the specification states it, fails: a run that finds the
    header only and a run whose page cannot be loaded hand the very same
    message to the mail channel. *)
Lemma empty_and_failed_runs_indistinguishable :
  extraction Sample.nothing_found = Normal []
  /\ extraction Sample.unreachable
     = Throw {| thrown_by := OpGoto; message := "net::ERR_NAME_NOT_RESOLVED" |}
  /\ sent_messages (run_events Sample.nothing_found empty_world)
     = sent_messages (run_events Sample.unreachable empty_world)
  /\ sent_messages (run_events Sample.nothing_found empty_world)
     = [no_results_message Sample.nothing_found].
Proof.
  split; [vm_compute; reflexivity|]. split; [vm_compute; reflexivity|].
  split; vm_compute; reflexivity.
Qed.

(** C1, amended.  A run whose extraction succeeds with zero registrations
    and a run whose extraction fails both call [sendEmail] with an empty
    set only, and with the same addresses every message they hand to the
    mail channel is the same one: the message of an empty set, with
    the subject and the body of "no results"; with both addresses set
    each of the two runs does hand it over. *)
Theorem empty_and_failed_runs_send_the_same_message envA envB wA wB e :
  launch envA = Fulfilled tt -> extraction envA = Normal [] ->
  launch envB = Fulfilled tt -> extraction envB = Throw e ->
  is_ExtractionError e = true ->
  RECIPIENT_EMAIL envA = RECIPIENT_EMAIL envB ->
  FROM_EMAIL envA = FROM_EMAIL envB ->
  (forall regs blobUrl,
      In (regs, blobUrl) (notify_calls (run_events envA wA)) -> regs = [])
  /\ notify_calls (run_events envB wB) = [([], None)]
  /\ (forall mA mB,
        In mA (sent_messages (run_events envA wA)) ->
        In mB (sent_messages (run_events envB wB)) ->
        mA = mB
        /\ subject mA = "🏀 Sin inscripciones disponibles"
        /\ html mA = Mail.noResultsHtml)
  /\ (configured envA = true ->
      sent_messages (run_events envA wA) <> []
      /\ sent_messages (run_events envB wB) <> []).
Proof.
  intros HlA HxA HlB HxB He Hr Hf.
  destruct (run_observed envA wA HlA)
    as (cA & wA' & HbA & -> & -> & _).
  destruct (run_observed envB wB HlB)
    as (cB & wB' & HbB & -> & -> & _).
  destruct (try_and_catch_notifications envA _ cA wA' (page_after_launch wA) HbA)
    as (HsentA & _ & HcallsA & _).
  destruct (try_and_catch_notifications envB _ cB wB' (page_after_launch wB) HbB)
    as (HsentB & _ & HcallsB & _).
  destruct (try_and_catch_counts envA _ cA wA' (page_after_launch wA) HbA)
    as (_ & _ & HlenA & _).
  destruct (try_and_catch_counts envB _ cB wB' (page_after_launch wB) HbB)
    as (_ & _ & HlenB & _).
  rewrite HxA in HcallsA. rewrite HxB in HcallsB.
  assert (HpB : newPage envB = Fulfilled tt).
  { pose proof (extraction_outcome envB) as Ho. rewrite HxB in Ho.
    destruct Ho as [[Ho _] | [_ Ho]]; [|exact Ho].
    destruct e as [op msg]. cbn in Ho. subst op. discriminate He. }
  rewrite HpB in HcallsB.
  assert (HA : forall m, In m (sent_messages
                                 (events_since (world_after_launch wA) wA')) ->
                         m = no_results_message envA).
  { intros m Hm. destruct (HsentA m Hm) as [-> | (regs & loc & Hx & _ & ->)];
      [reflexivity|].
    rewrite HxA in Hx. injection Hx as <-. apply message_for_empty. }
  assert (HB : forall m, In m (sent_messages
                                 (events_since (world_after_launch wB) wB')) ->
                         m = no_results_message envB).
  { intros m Hm. destruct (HsentB m Hm) as [-> | (regs & loc & Hx & _)];
      [reflexivity|]. rewrite HxB in Hx. discriminate Hx. }
  split; [|split; [exact HcallsB|split]].
  - intros regs blobUrl Hin.
    destruct (put envA BLOB_FILENAME (snapshot_body envA [])) as [loc|reason].
    + destruct HcallsA as [Hc | [Hc _]]; rewrite Hc in Hin;
        repeat (destruct Hin as [Hin | Hin];
                [injection Hin as <- <-; reflexivity|]); contradiction.
    + rewrite HcallsA in Hin. destruct Hin as [Hin | []].
      injection Hin as <- <-. reflexivity.
  - intros mA mB HmA HmB. rewrite (HA mA HmA), (HB mB HmB).
    split; [now apply no_results_message_addresses|].
    apply no_results_message_content.
  - intros Hc.
    assert (HcB : configured envB = true).
    { unfold configured in *. now rewrite <- Hr, <- Hf. }
    specialize (HlenA Hc). specialize (HlenB HcB). rewrite HcallsB in HlenB.
    split.
    + intros Hnil. rewrite Hnil in HlenA.
      destruct (put envA BLOB_FILENAME (snapshot_body envA [])).
      * destruct HcallsA as [Hx | [Hx _]]; rewrite Hx in HlenA;
          discriminate HlenA.
      * rewrite HcallsA in HlenA. discriminate HlenA.
    + intros Hnil. rewrite Hnil in HlenB. discriminate HlenB.
Qed.

Lemma empty_and_failed_runs_send_the_same_message_witness :
  no_results_message Sample.nothing_found
  = no_results_message Sample.table_missing
  /\ sent_messages (run_events Sample.nothing_found empty_world) <> []
  /\ sent_messages (run_events Sample.table_missing empty_world) <> [].
Proof.
  destruct (empty_and_failed_runs_send_the_same_message
              Sample.nothing_found Sample.table_missing empty_world empty_world
              {| thrown_by := OpWaitForSelector;
                 message := "TimeoutError: Waiting for selector failed: 10000ms exceeded" |}
              eq_refl eq_refl eq_refl eq_refl eq_refl eq_refl eq_refl)
    as (_ & _ & H & Hne).
  split; [|exact (Hne eq_refl)].
  refine (proj1 (H _ _ _ _)); vm_compute; left; reflexivity.
Defined.

(** C2, as the specification states it, fails: when the result table does
    not appear within the timeout, nothing is written under the
    snapshot's name and no snapshot is in the store. *)
Lemma missing_table_persists_nothing :
  waitForSelector Sample.table_missing = Sample.timeout
  /\ extraction Sample.table_missing
     = Throw {| thrown_by := OpWaitForSelector;
                message := "TimeoutError: Waiting for selector failed: 10000ms exceeded" |}
  /\ writes_to BLOB_FILENAME (run_events Sample.table_missing empty_world) = []
  /\ snapshot (snd (scrape Sample.table_missing empty_world)) = None
  /\ notify_calls (run_events Sample.table_missing empty_world) = [([], None)].
Proof.
  split; [reflexivity|]. split; [vm_compute; reflexivity|].
  split; [vm_compute; reflexivity|]. split; vm_compute; reflexivity.
Qed.

Lemma timeout_is_extraction_failure env reason :
  search_performed env ->
  waitForSelector env = Rejected reason ->
  extraction env = Throw {| thrown_by := OpWaitForSelector; message := reason |}.
Proof.
  intros (H1 & H2 & H3 & H4 & H5 & H6 & H7) H8.
  unfold extraction, extraction_steps. exec. reflexivity.
Qed.

(** Steps 1 to 6 succeed exactly when the search goes through, the wait
    for the table succeeds and the page gives the table; they yield what
    the row extraction makes of it. *)
Lemma extraction_normal env regs :
  extraction env = Normal regs
  <-> search_performed env
      /\ waitForSelector env = Fulfilled tt
      /\ exists table,
           resultsTable env = Fulfilled table
           /\ regs = Dom.extractRegistrations table.
Proof.
  unfold search_performed. split.
  - unfold extraction, extraction_steps. exec; units; cbn [fst];
      intros H; try discriminate H.
    injection H as <-. repeat split. eexists. split; reflexivity.
  - intros ((H1 & H2 & H3 & H4 & H5 & H6 & H7) & H8 & table & H9 & ->).
    unfold extraction, extraction_steps. exec. reflexivity.
Qed.

(** The written document parses back to the snapshot. *)
Lemma load_snapshot_body env regs :
  load (snapshot_body env regs) = Some (snapshot_data env regs).
Proof.
  unfold load, snapshot_body.
  rewrite JsonFacts.parse_stringify_data. apply data_of_json_of_data.
Qed.

Lemma snapshot_body_registrations env regs regs' :
  snapshot_body env regs = snapshot_body env regs' -> regs = regs'.
Proof.
  intros H. apply (f_equal load) in H. rewrite !load_snapshot_body in H.
  now injection H.
Qed.

(** C2, amended.  When the script reaches step 6 and the result table
    does not appear within the timeout, [waitForSelector] rejects and the
    run takes the failure path: steps 1 to 6 fail with that exception,
    nothing is written under the snapshot's name and the stored snapshot
    is as before, a screenshot is attempted, [sendEmail] is called once,
    with an empty set and no link, and what it hands to the mail channel
    is the "no results" message.  The snapshot of an empty set is written
    exactly when steps 1 to 6 succeed without a registration, that is
    when the search goes through, the wait succeeds and the selector
    finds no row in the table; it is then persisted when the store
    accepts the write. *)
Theorem missing_table_takes_the_failure_path env w :
  launch env = Fulfilled tt ->
  (forall reason,
      search_performed env ->
      waitForSelector env = Rejected reason ->
      extraction env
      = Throw {| thrown_by := OpWaitForSelector; message := reason |}
      /\ writes_to BLOB_FILENAME (run_events env w) = []
      /\ snapshot (snd (scrape env w)) = snapshot w
      /\ In page_screenshot (run_events env w)
      /\ notify_calls (run_events env w) = [([], None)]
      /\ (forall m, In m (sent_messages (run_events env w)) ->
                    m = no_results_message env))
  /\ (forall location,
        extraction env = Normal [] ->
        put env BLOB_FILENAME (snapshot_body env []) = Fulfilled location ->
        writes_to BLOB_FILENAME (run_events env w) = [snapshot_body env []]
        /\ snapshot (snd (scrape env w))
           = Some {| pathname := BLOB_FILENAME; url := location;
                     content := snapshot_body env [];
                     contentType := "application/json" |}
        /\ In ([], Some location) (notify_calls (run_events env w)))
  /\ (writes_to BLOB_FILENAME (run_events env w) = [snapshot_body env []]
      <-> extraction env = Normal [])
  /\ (extraction env = Normal []
      <-> search_performed env
          /\ waitForSelector env = Fulfilled tt
          /\ exists table,
               resultsTable env = Fulfilled table
               /\ Dom.querySelectorAll_tr_not_first_child table = []).
Proof.
  intros Hl.
  destruct (run_observed env w Hl)
    as (c & w' & Hb & -> & -> & -> & Hin & _ & -> & _).
  destruct (try_and_catch_notifications env _ c w' (page_after_launch w) Hb)
    as (Hsent & _ & Hcalls & Hshot).
  destruct (try_and_catch_storage env _ c w' (page_after_launch w) Hb)
    as (Hwrites & Hsnap).
  split; [|split; [|split]].
  - intros reason Hsearch Hwait.
    pose proof (timeout_is_extraction_failure env reason Hsearch Hwait) as Hx.
    rewrite Hx in *. destruct Hsearch as (Hp & _). rewrite Hp in Hcalls.
    split; [reflexivity|]. split; [exact Hwrites|]. split; [exact Hsnap|].
    split; [apply Hin, Hshot; rewrite Hcalls; now left|].
    split; [exact Hcalls|].
    intros m Hm. destruct (Hsent m Hm) as [-> | (regs & loc & Hx' & _)];
      [reflexivity | discriminate Hx'].
  - intros location Hx Hput. rewrite Hx in *. rewrite Hput in *.
    split; [exact Hwrites|]. split; [exact Hsnap|].
    destruct Hcalls as [-> | [-> _]]; now left.
  - rewrite Hwrites. split.
    + destruct (extraction env) as [regs|e]; [|discriminate].
      intros H. apply (f_equal (hd ""%string)) in H. cbn [hd] in H.
      now rewrite (snapshot_body_registrations env regs [] H).
    + now intros ->.
  - rewrite (extraction_normal env []). unfold Dom.extractRegistrations.
    split; intros (Hsearch & Hwait & table & Ht & Hr);
      (split; [exact Hsearch|]); (split; [exact Hwait|]);
      exists table; (split; [exact Ht|]).
    + destruct (Dom.querySelectorAll_tr_not_first_child table);
        [reflexivity | discriminate Hr].
    + now rewrite Hr.
Qed.

Lemma missing_table_takes_the_failure_path_witness :
  snapshot (snd (scrape Sample.table_missing empty_world)) = None
  /\ notify_calls (run_events Sample.table_missing empty_world) = [([], None)].
Proof.
  destruct (missing_table_takes_the_failure_path Sample.table_missing empty_world
              eq_refl) as [H _].
  destruct (H "TimeoutError: Waiting for selector failed: 10000ms exceeded"
              (conj eq_refl (conj eq_refl (conj eq_refl (conj eq_refl
                 (conj eq_refl (conj eq_refl eq_refl))))))
              eq_refl) as (_ & _ & H3 & _ & H5 & _).
  split; [exact H3 | exact H5].
Defined.

(* ------------------------------------------------------------------ *)
(** ** A failed write of the snapshot *)
(* ------------------------------------------------------------------ *)

(** C4, as the specification states it, fails: when the store rejects
    the snapshot, the run still hands a message to the mail channel, and
    it is delivered. *)
Lemma failed_write_is_followed_by_a_notification :
  extraction Sample.store_rejects
  = Normal (Dom.extractRegistrations Sample.two_rows)
  /\ put Sample.store_rejects BLOB_FILENAME
       (snapshot_body Sample.store_rejects
          (Dom.extractRegistrations Sample.two_rows))
     = Rejected "store unavailable"
  /\ sent_messages (run_events Sample.store_rejects empty_world)
     = [no_results_message Sample.store_rejects]
  /\ run_delivered Sample.store_rejects empty_world
     = [no_results_message Sample.store_rejects]
  /\ fst (scrape Sample.store_rejects empty_world) = Normal tt.
Proof.
  split; [vm_compute; reflexivity|]. split; [reflexivity|].
  split; [vm_compute; reflexivity|]. split; vm_compute; reflexivity.
Qed.

(** C4, amended.  When extraction succeeds and the store rejects the
    snapshot, [saveData] rethrows the rejection, so that the call of
    [sendEmail] with the extracted registrations is never made; the
    [catch] block takes over: a screenshot is attempted and [sendEmail]
    is called once, with an empty set and no link.  With both addresses
    set, exactly one message is handed to the mail channel, the "no
    results" message, and it is delivered when the channel accepts it;
    with an address missing nothing is handed over.  No message is that
    of a non-empty extraction, the stored snapshot is as before, and the
    run does not reject with the store's exception. *)
Theorem failed_write_replaces_the_notification env w regs reason :
  launch env = Fulfilled tt ->
  extraction env = Normal regs ->
  put env BLOB_FILENAME (snapshot_body env regs) = Rejected reason ->
  (forall w0, fst (saveData env regs w0)
              = Throw {| thrown_by := OpPut; message := reason |})
  /\ notify_calls (run_events env w) = [([], None)]
  /\ In page_screenshot (run_events env w)
  /\ (forall m, In m (sent_messages (run_events env w)) ->
        m = no_results_message env
        /\ (regs <> [] -> forall blobUrl, m <> message_for env regs blobUrl))
  /\ snapshot (snd (scrape env w)) = snapshot w
  /\ (forall e, fst (scrape env w) = Throw e -> is_StorageError e = false)
  /\ (configured env = true ->
      sent_messages (run_events env w) = [no_results_message env]
      /\ ((forall t m, send env t m = Fulfilled tt) ->
          run_delivered env w = [no_results_message env]))
  /\ (configured env = false -> sent_messages (run_events env w) = []).
Proof.
  intros Hl Hx Hput.
  destruct (run_observed env w Hl)
    as (c & w' & Hb & -> & -> & _ & Hin & -> & -> & Hfst).
  destruct (try_and_catch_counts env _ c w' (page_after_launch w) Hb)
    as (_ & Hunconf & Hlen & _ & Hone).
  pose proof (extraction_outcome env) as Hpage. rewrite Hx in Hpage.
  destruct (try_and_catch_notifications env _ c w' (page_after_launch w) Hb)
    as (Hsent & _ & Hcalls & Hshot).
  destruct (try_and_catch_storage env _ c w' (page_after_launch w) Hb)
    as (_ & Hsnap).
  destruct (try_and_catch_completion env _ c w' (page_after_launch w) Hb)
    as (_ & _ & _ & Hc).
  rewrite Hx in *. rewrite Hput in *.
  split; [intros w0; now rewrite (saveData_rejected env regs w0 reason Hput)|].
  split; [exact Hcalls|].
  split; [apply Hin, Hshot; rewrite Hcalls; now left|].
  assert (Hno : forall m,
             In m (sent_messages (events_since (world_after_launch w) w')) ->
             m = no_results_message env).
  { intros m Hm.
    destruct (Hsent m Hm) as [-> | (regs' & loc & Hx' & Hput' & _)];
      [reflexivity|].
    injection Hx' as <-. rewrite Hput in Hput'. discriminate Hput'. }
  split; [|split; [exact Hsnap|split; [|split]]].
  - intros m Hm. split; [now apply Hno|].
    rewrite (Hno m Hm). intros Hregs blobUrl Heq.
    destruct regs as [|r regs]; [now apply Hregs|].
    now apply (message_for_data_differs env r regs blobUrl).
  - intros e He. rewrite He in Hfst.
    destruct (close env) as [[]|r].
    + subst c. destruct Hc as (Hop & _).
      unfold is_StorageError. now rewrite Hop.
    + injection Hfst as ->. reflexivity.
  - intros Hconf. specialize (Hlen Hconf). rewrite Hcalls in Hlen.
    assert (Hone' : sent_messages (events_since (world_after_launch w) w')
                    = [no_results_message env]).
    { destruct (sent_messages (events_since (world_after_launch w) w'))
        as [|m [|m' l]]; try discriminate Hlen.
      f_equal. apply Hno. now left. }
    split; [exact Hone'|]. intros Hall.
    destruct (Hone Hconf Hpage Hall) as (_ & -> & _). exact Hone'.
  - intros Hconf. now destruct (Hunconf Hconf).
Qed.

Lemma failed_write_replaces_the_notification_witness :
  notify_calls (run_events Sample.store_rejects empty_world) = [([], None)].
Proof.
  destruct (failed_write_replaces_the_notification Sample.store_rejects
              empty_world (Dom.extractRegistrations Sample.two_rows)
              "store unavailable" eq_refl) as (_ & H & _).
  - vm_compute. reflexivity.
  - reflexivity.
  - exact H.
Defined.

(* ------------------------------------------------------------------ *)
(** ** Saving and loading *)
(* ------------------------------------------------------------------ *)

(** The read route answers with the text that the download of the
    snapshot's address gives, whatever the status of the download. *)
Lemma GET_snapshot env w blob code text :
  listBlobs env = Fulfilled tt ->
  snapshot w = Some blob ->
  fetchUrl env (url blob)
  = Fulfilled {| fetched_status := code; fetched_text := Fulfilled text |} ->
  fst (GET env w)
  = Normal {| status := 200; body := text;
              headers := [("Content-Type", "application/json");
                          ("Cache-Control", "no-cache")] |}.
Proof.
  intros Hl Hs Hf. unfold GET. exec.
  change (find_blob BLOB_FILENAME ?w0) with (Normal (snapshot w0), w0).
  rewrite snapshot_add_event, Hs. exec. reflexivity.
Qed.

Lemma GET_not_found env w :
  listBlobs env = Fulfilled tt ->
  snapshot w = None ->
  fst (GET env w) = Normal (json_response 404 "No data found").
Proof.
  intros Hl Hs. unfold GET. exec.
  change (find_blob BLOB_FILENAME ?w0) with (Normal (snapshot w0), w0).
  rewrite snapshot_add_event, Hs. reflexivity.
Qed.

(** C10.  For every registration sequence, [saveData] writes under the
    one name [BLOB_FILENAME], with content type JSON, a document that
    parses as the object of a [timestamp] text and of the [registrations]
    array of the given sequence, so that reading it back gives these very
    registrations, in their order.  For a clock within the years 1970 to
    9999 the time stamp is a well-formed ISO-8601 date-time and denotes
    the time the clock gave at the call.  Once the store has accepted the
    write, the snapshot in the store holds that document, and a read
    route whose download of the blob's address gives the stored content
    answers 200 with a body that reads back as these registrations. *)
Theorem save_load_round_trip env regs w :
  (exists rest,
      events_since w (snd (saveData env regs w))
      = call_saveData regs
          :: blob_put BLOB_FILENAME (snapshot_body env regs) "application/json"
          :: rest)
  /\ writes_to BLOB_FILENAME (events_since w (snd (saveData env regs w)))
     = [snapshot_body env regs]
  /\ (exists ts,
        Json.parse (snapshot_body env regs)
        = Some (Json.Obj
                  [("timestamp", Json.Str ts);
                   ("registrations",
                    Json.Arr (map json_of_registration regs))]%string)
        /\ load (snapshot_body env regs)
           = Some {| timestamp := ts; registrations := regs |}
        /\ ((0 <= Date_now env < 253402300800000)%Z ->
            JsDate.is_iso8601 ts = true
            /\ JsDate.time_value ts = Some (Date_now env)))
  /\ (forall location,
        put env BLOB_FILENAME (snapshot_body env regs) = Fulfilled location ->
        fst (saveData env regs w) = Normal location
        /\ snapshot (snd (saveData env regs w))
           = Some {| pathname := BLOB_FILENAME; url := location;
                     content := snapshot_body env regs;
                     contentType := "application/json" |}
        /\ (forall reader code,
              listBlobs reader = Fulfilled tt ->
              fetchUrl reader location
              = Fulfilled {| fetched_status := code;
                             fetched_text := Fulfilled (snapshot_body env regs) |} ->
              exists response ts,
                fst (GET reader (snd (saveData env regs w))) = Normal response
                /\ status response = 200%Z
                /\ load (body response)
                   = Some {| timestamp := ts; registrations := regs |})).
Proof.
  split; [|split; [|split]].
  - destruct (put env BLOB_FILENAME (snapshot_body env regs)) as [loc|reason] eqn:Hput;
      [ rewrite (saveData_fulfilled env regs w loc Hput)
      | rewrite (saveData_rejected env regs w reason Hput) ];
      eexists; since; reflexivity.
  - destruct (put env BLOB_FILENAME (snapshot_body env regs)) as [loc|reason] eqn:Hput;
      [ rewrite (saveData_fulfilled env regs w loc Hput)
      | rewrite (saveData_rejected env regs w reason Hput) ];
      since; tally; reflexivity.
  - exists (JsDate.toISOString (Date_now env)).
    split; [apply JsonFacts.parse_stringify_data|].
    split; [apply load_snapshot_body|].
    intros Hclock. split.
    + now apply JsDateFacts.toISOString_iso8601.
    + now apply JsDateFacts.time_value_toISOString.
  - intros location Hput.
    rewrite (saveData_fulfilled env regs w location Hput). cbn [fst snd].
    assert (Hsnap :
      snapshot
        (add_event
           (put_blob
              (add_event (add_event w (call_saveData regs))
                 (blob_put BLOB_FILENAME (snapshot_body env regs)
                    "application/json"))
              {| pathname := BLOB_FILENAME; url := location;
                 content := snapshot_body env regs;
                 contentType := "application/json" |})
           (console_log ("✓ Data saved successfully to " ++ location)%string))
      = Some {| pathname := BLOB_FILENAME; url := location;
                content := snapshot_body env regs;
                contentType := "application/json" |}).
    { rewrite snapshot_add_event. now apply snapshot_put_snapshot. }
    split; [reflexivity|]. split; [exact Hsnap|].
    intros reader code Hl Hf. eexists. exists (JsDate.toISOString (Date_now env)).
    split; [apply (GET_snapshot _ _ _ code _ Hl Hsnap Hf)|].
    split; [reflexivity|]. apply load_snapshot_body.
Qed.

Lemma save_load_round_trip_witness :
  exists ts,
    load (snapshot_body Sample.found (Dom.extractRegistrations Sample.two_rows))
    = Some {| timestamp := ts;
              registrations := Dom.extractRegistrations Sample.two_rows |}
    /\ JsDate.time_value ts = Some (Date_now Sample.found).
Proof.
  destruct (save_load_round_trip Sample.found
              (Dom.extractRegistrations Sample.two_rows) empty_world)
    as (_ & _ & (ts & _ & Hload & Hclock) & _).
  exists ts. split; [exact Hload|]. apply Hclock. cbn. lia.
Defined.

Section SuccessPath.
Variable env : Env.

Lemma try_and_catch_success w0 c w' regs location :
  page w0 = false ->
  extraction env = Normal regs ->
  put env BLOB_FILENAME (snapshot_body env regs) = Fulfilled location ->
  configured env = true ->
  (forall t m, send env t m = Fulfilled tt) ->
  try_and_catch env w0 = (c, w') ->
  c = Normal tt
  /\ (exists steps,
       forallb browsing steps = true
       /\ events_since w0 w' =
          steps ++
          [ console_log (nl ++ "=== RESULTS FOUND ===")%string;
            console_log ("▸ Total registrations: "
                         ++ JsString.of_nat (length regs))%string;
            console_table regs;
            call_saveData regs;
            blob_put BLOB_FILENAME (snapshot_body env regs) "application/json";
            console_log ("✓ Data saved successfully to " ++ location)%string;
            call_sendEmail regs (Some location);
            sgMail_send (message_for env regs (Some location));
            console_log "✓ Email sent successfully" ])
  /\ delivered_since w0 w' = [message_for env regs (Some location)]
  /\ snapshot w' = Some {| pathname := BLOB_FILENAME; url := location;
                           content := snapshot_body env regs;
                           contentType := "application/json" |}.
Proof.
  intros Hp0 Hx Hput Hconf Hsend.
  destruct (extraction_steps_footprint env w0)
    as (w1 & steps & Hstep & Ht & Hq & Hb & Ho & Hp).
  match goal with |- _ -> ?concl => remember concl as G eqn:HG end.
  cbv beta iota delta [try_and_catch try_block catch_block].
  exec. rewrite Hstep, Hx.
  repeat (exec; first [step_save | step_send]); exec; try absurd_path.
  intros Hrun; injection Hrun as <- <-; subst G. injection Hput as ->.
  split; [reflexivity|]. split.
  - exists steps. split; [exact Hq|]. since. reflexivity.
  - split; [since; reflexivity|].
    rewrite snapshot_add_event, snapshot_add_outbox, !snapshot_add_event.
    now apply snapshot_put_snapshot.
Qed.

End SuccessPath.

(* ------------------------------------------------------------------ *)
(** ** A run that finds, stores and notifies *)
(* ------------------------------------------------------------------ *)

(** X1.  When the browser is launched and closed, steps 1 to 6 yield the
    registrations [regs], the store accepts the snapshot at [location],
    both addresses are set and the mail channel accepts what it is given,
    the run returns normally and its events are, in order: the opening
    line and the launch, the browsing steps, the report on the console,
    [saveData] with its one write, [sendEmail] called with [regs] and
    [location] and its one message, the closing of the browser and the
    two final lines.  That message is delivered and the snapshot is in
    the store. *)
Theorem successful_run_saves_then_notifies env w regs location :
  launch env = Fulfilled tt ->
  extraction env = Normal regs ->
  put env BLOB_FILENAME (snapshot_body env regs) = Fulfilled location ->
  configured env = true ->
  (forall t m, send env t m = Fulfilled tt) ->
  close env = Fulfilled tt ->
  fst (scrape env w) = Normal tt
  /\ (exists steps,
        forallb browsing steps = true
        /\ run_events env w =
           [starting; puppeteer_launch] ++ steps ++
           [ console_log (nl ++ "=== RESULTS FOUND ===")%string;
             console_log ("▸ Total registrations: "
                          ++ JsString.of_nat (length regs))%string;
             console_table regs;
             call_saveData regs;
             blob_put BLOB_FILENAME (snapshot_body env regs) "application/json";
             console_log ("✓ Data saved successfully to " ++ location)%string;
             call_sendEmail regs (Some location);
             sgMail_send (message_for env regs (Some location));
             console_log "✓ Email sent successfully";
             browser_close;
             console_log (nl ++ "=== Process completed ===")%string;
             console_log "▸ Browser closed" ])
  /\ run_delivered env w = [message_for env regs (Some location)]
  /\ snapshot (snd (scrape env w))
     = Some {| pathname := BLOB_FILENAME; url := location;
               content := snapshot_body env regs;
               contentType := "application/json" |}.
Proof.
  intros Hl Hx Hput Hconf Hsend Hclose.
  unfold run_events, run_delivered.
  rewrite (scrape_launch_fulfilled env w Hl). unfold tryFinally.
  destruct (try_and_catch env (world_after_launch w)) as [c w'] eqn:Hb.
  destruct (try_and_catch_success env _ c w' regs location
              (page_after_launch w) Hx Hput Hconf Hsend Hb)
    as (-> & (steps & Hsteps & Hev) & Hd & Hsnap).
  rewrite (finally_block_fulfilled env w' Hclose). cbn [fst snd].
  assert (Ht : trace w' = trace (world_after_launch w) ++ events_since (world_after_launch w) w').
  { destruct (try_and_catch_extends env _ _ w' (page_after_launch w) Hb)
      as (evs & ms & Ht & _).
    now rewrite (events_since_app _ _ _ Ht). }
  assert (Ho : outbox w' = outbox (world_after_launch w) ++ delivered_since (world_after_launch w) w').
  { destruct (try_and_catch_extends env _ _ w' (page_after_launch w) Hb)
      as (evs & ms & _ & Ho).
    now rewrite (delivered_since_app _ _ _ Ho). }
  rewrite Hev in Ht. rewrite Hd in Ho.
  unfold world_after_launch in Ht, Ho. project_in Ht. project_in Ho.
  split; [reflexivity|]. split.
  - exists steps. split; [exact Hsteps|]. since. cbn [app]. reflexivity.
  - split; [since; reflexivity|].
    now rewrite !snapshot_add_event.
Qed.

Lemma successful_run_saves_then_notifies_witness :
  fst (scrape Sample.found empty_world) = Normal tt
  /\ run_delivered Sample.found empty_world
     = [message_for Sample.found (Dom.extractRegistrations Sample.two_rows)
          (Some "https://blob.example/basketball-registrations.json")].
Proof.
  assert (Hx : extraction Sample.found
               = Normal (Dom.extractRegistrations Sample.two_rows))
    by (vm_compute; reflexivity).
  destruct (successful_run_saves_then_notifies Sample.found empty_world
              (Dom.extractRegistrations Sample.two_rows)
              "https://blob.example/basketball-registrations.json"
              eq_refl Hx eq_refl eq_refl (fun t m => eq_refl) eq_refl)
    as (H1 & _ & H3 & _).
  split; [exact H1 | exact H3].
Defined.

(** X2.  Whenever a run calls [sendEmail] with a link, steps 1 to 6 had
    yielded the registrations of that call, the store had accepted their
    snapshot at the address of the link, and after the run the store
    holds that snapshot: a document that reads back as these very
    registrations. *)
Theorem notified_link_is_the_stored_snapshot env w regs location :
  In (regs, Some location) (notify_calls (run_events env w)) ->
  extraction env = Normal regs
  /\ put env BLOB_FILENAME (snapshot_body env regs) = Fulfilled location
  /\ snapshot (snd (scrape env w))
     = Some {| pathname := BLOB_FILENAME; url := location;
               content := snapshot_body env regs;
               contentType := "application/json" |}
  /\ load (snapshot_body env regs)
     = Some {| timestamp := JsDate.toISOString (Date_now env);
               registrations := regs |}.
Proof.
  intros Hin.
  destruct (launch env) as [[]|reason] eqn:Hl.
  - destruct (run_observed env w Hl)
      as (c & w' & Hb & _ & Hcalls & _ & _ & _ & Hsnap & _).
    rewrite Hcalls in Hin. rewrite Hsnap.
    destruct (try_and_catch_notifications env _ c w' (page_after_launch w) Hb)
      as (_ & _ & Hn & _).
    destruct (try_and_catch_storage env _ c w' (page_after_launch w) Hb)
      as (_ & Hs).
    destruct (extraction env) as [regs'|e] eqn:Hx.
    + destruct (put env BLOB_FILENAME (snapshot_body env regs'))
        as [loc|r] eqn:Hput.
      * assert (E : (regs, Some location) = (regs', Some loc)).
        { destruct Hn as [Hn | [Hn _]]; rewrite Hn in Hin;
            repeat (destruct Hin as [Hin | Hin];
                    [first [symmetry; exact Hin | discriminate Hin]|]);
            contradiction. }
        injection E as -> ->.
        split; [reflexivity|]. split; [exact Hput|]. split; [exact Hs|].
        apply load_snapshot_body.
      * rewrite Hn in Hin. destruct Hin as [Hin | []]. discriminate Hin.
    + destruct (newPage env); rewrite Hn in Hin;
        [destruct Hin as [Hin | []]; discriminate Hin | contradiction].
  - destruct (run_without_browser env w reason Hl) as (Hev & _).
    rewrite Hev in Hin. contradiction.
Qed.

Lemma notified_link_is_the_stored_snapshot_witness :
  snapshot (snd (scrape Sample.found empty_world))
  = Some {| pathname := BLOB_FILENAME;
            url := "https://blob.example/basketball-registrations.json";
            content := snapshot_body Sample.found
                         (Dom.extractRegistrations Sample.two_rows);
            contentType := "application/json" |}.
Proof.
  assert (Hin : In (Dom.extractRegistrations Sample.two_rows,
                    Some "https://blob.example/basketball-registrations.json")
                   (notify_calls (run_events Sample.found empty_world)))
    by (vm_compute; left; reflexivity).
  exact (proj1 (proj2 (proj2
           (notified_link_is_the_stored_snapshot Sample.found empty_world
              _ _ Hin)))).
Defined.

(* ------------------------------------------------------------------ *)
(** ** The launch and the closing of the browser *)
(* ------------------------------------------------------------------ *)

(** X3.  [puppeteer.launch] is awaited outside the [try]: when it
    rejects, the run rejects with that exception after its opening line
    and the launch call and nothing else: no line about the error, no
    screenshot, no notification, no closing of a browser; the store and
    the outbox are as before, and [start] rejects in the same way, the
    interval never registered. *)
Theorem launch_failure_ends_the_run_at_once env w reason :
  launch env = Rejected reason ->
  fst (scrape env w) = Throw {| thrown_by := OpLaunch; message := reason |}
  /\ run_events env w = [starting; puppeteer_launch]
  /\ blobs (snd (scrape env w)) = blobs w
  /\ outbox (snd (scrape env w)) = outbox w
  /\ start env w = scrape env w
  /\ existsb is_setInterval (events_since w (snd (start env w))) = false.
Proof.
  intros Hl.
  destruct (run_without_browser env w reason Hl) as (Hev & _ & _ & Hfst).
  assert (Hstart : start env w = scrape env w).
  { rewrite (start_after_failed_run env w _ Hfst), <- Hfst.
    now destruct (scrape env w). }
  split; [exact Hfst|]. split; [exact Hev|].
  rewrite Hstart. fold (run_events env w). rewrite Hev.
  rewrite (scrape_launch_rejected env w _ Hl). repeat split.
Qed.

Lemma launch_failure_ends_the_run_at_once_witness :
  run_events Cases.no_browser empty_world = [starting; puppeteer_launch].
Proof.
  exact (proj1 (proj2
           (launch_failure_ends_the_run_at_once Cases.no_browser empty_world
              "Failed to launch the browser process" eq_refl))).
Defined.

(** X4.  The exception of a rejected [browser.close()] replaces the
    outcome of the run: the run rejects with it even after the snapshot
    was stored and the message delivered, the close is the last event of
    the run (the two final lines are not written), and what [try] and
    [catch] did stays done. *)
Theorem close_failure_rejects_the_run env w reason :
  launch env = Fulfilled tt ->
  close env = Rejected reason ->
  fst (scrape env w) = Throw {| thrown_by := OpClose; message := reason |}
  /\ (exists before,
        run_events env w = before ++ [browser_close]
        /\ filter is_close before = [])
  /\ (forall regs location,
        extraction env = Normal regs ->
        put env BLOB_FILENAME (snapshot_body env regs) = Fulfilled location ->
        snapshot (snd (scrape env w))
        = Some {| pathname := BLOB_FILENAME; url := location;
                  content := snapshot_body env regs;
                  contentType := "application/json" |}
        /\ (configured env = true ->
            (forall t m, send env t m = Fulfilled tt) ->
            run_delivered env w = [message_for env regs (Some location)])).
Proof.
  intros Hl Hclose.
  unfold run_events, run_delivered.
  rewrite (scrape_launch_fulfilled env w Hl). unfold tryFinally.
  destruct (try_and_catch env (world_after_launch w)) as [c w'] eqn:Hb.
  rewrite (finally_block_rejected env w' _ Hclose). cbn [fst snd].
  destruct (try_and_catch_extends env _ c w' (page_after_launch w) Hb)
    as (evs & ms & Ht & Ho).
  destruct (try_and_catch_completion env _ c w' (page_after_launch w) Hb)
    as (Hnoclose & _).
  rewrite (events_since_app _ _ _ Ht) in Hnoclose.
  unfold world_after_launch in Ht, Ho. project_in Ht. project_in Ho.
  split; [reflexivity|]. split.
  - exists ([starting; puppeteer_launch] ++ evs). split.
    + since. reflexivity.
    + tally. reflexivity.
  - intros regs location Hx Hput.
    rewrite snapshot_add_event. split.
    + destruct (try_and_catch_storage env _ c w' (page_after_launch w) Hb)
        as (_ & Hs).
      now rewrite Hx, Hput in Hs.
    + intros Hconf Hsend.
      destruct (try_and_catch_success env _ c w' regs location
                  (page_after_launch w) Hx Hput Hconf Hsend Hb)
        as (_ & _ & Hd & _).
      rewrite <- Hd. unfold delivered_since, world_after_launch. project.
      reflexivity.
Qed.

Lemma close_failure_rejects_the_run_witness :
  fst (scrape Cases.close_fails empty_world)
  = Throw {| thrown_by := OpClose;
             message := "Protocol error: Connection closed" |}.
Proof.
  exact (proj1 (close_failure_rejects_the_run Cases.close_fails empty_world
                  "Protocol error: Connection closed" eq_refl eq_refl)).
Defined.

(* ------------------------------------------------------------------ *)
(** ** What a run leaves alone *)
(* ------------------------------------------------------------------ *)

Section Keeps.

Variable R : World -> World -> Prop.
Hypothesis HR : stable R.

Lemma keeps_ret {A : Type} (a : A) : keeps R (ret a).
Proof. intros w. apply (stable_refl R HR). Qed.

Lemma keeps_throw {A : Type} (e : Error) : keeps R (@throw A e).
Proof. intros w. apply (stable_refl R HR). Qed.

Lemma keeps_bind {A B : Type} (m : M A) (k : A -> M B) :
  keeps R m -> (forall a, keeps R (k a)) -> keeps R (bind m k).
Proof.
  intros Hm Hk w. unfold bind. specialize (Hm w).
  destruct (m w) as [[a|e] w1]; cbn [snd] in *.
  - apply (stable_trans R HR _ w1); [exact Hm | apply Hk].
  - exact Hm.
Qed.

Lemma keeps_tryCatch {A : Type} (body : M A) (handler : Error -> M A) :
  keeps R body -> (forall e, keeps R (handler e)) ->
  keeps R (tryCatch body handler).
Proof.
  intros Hm Hk w. unfold tryCatch. specialize (Hm w).
  destruct (body w) as [[a|e] w1]; cbn [snd] in *.
  - exact Hm.
  - apply (stable_trans R HR _ w1); [exact Hm | apply Hk].
Qed.

Lemma keeps_tryFinally {A : Type} (body : M A) (final : M unit) :
  keeps R body -> keeps R final -> keeps R (tryFinally body final).
Proof.
  intros Hm Hf w. unfold tryFinally. specialize (Hm w).
  destruct (body w) as [c w1]. specialize (Hf w1).
  destruct (final w1) as [[[]|e] w2]; cbn [snd] in *;
    apply (stable_trans R HR _ w1); assumption.
Qed.

Lemma keeps_emit (e : Event) : keeps R (emit e).
Proof. intros w. apply (stable_event R HR). Qed.

Lemma keeps_await {A : Type} (op : Op) (e : Event) (s : Settled A) :
  keeps R (await op e s).
Proof.
  unfold await, settle. apply keeps_bind; [apply keeps_emit|].
  intros _. destruct s; [apply keeps_ret | apply keeps_throw].
Qed.

Lemma keeps_assign_page (b : bool) : keeps R (assign_page b).
Proof. intros w. apply (stable_page R HR). Qed.

Lemma keeps_read_page : keeps R read_page.
Proof. intros w. apply (stable_refl R HR). Qed.

Lemma keeps_logical_time : keeps R logical_time.
Proof. intros w. apply (stable_refl R HR). Qed.

Lemma keeps_deliver (m : Msg) : keeps R (deliver m).
Proof. intros w. apply (stable_outbox R HR). Qed.

End Keeps.

(** A program is taken apart along its structure. *)
Ltac keeps_structure :=
  repeat first
    [ apply keeps_ret; assumption
    | apply keeps_throw; assumption
    | apply keeps_emit; assumption
    | apply keeps_await; assumption
    | apply keeps_assign_page; assumption
    | apply keeps_read_page; assumption
    | apply keeps_logical_time; assumption
    | apply keeps_deliver; assumption
    | apply keeps_bind; [assumption | | intros ?]
    | apply keeps_tryCatch; [assumption | | intros ?]
    | apply keeps_tryFinally; [assumption | | ]
    | match goal with
      | |- keeps _ (match ?x with Fulfilled _ => _ | Rejected _ => _ end) =>
          destruct x
      | |- keeps _ (if ?x then _ else _) => destruct x
      | |- keeps _ (let _ := _ in _) => cbv zeta
      end ].

Lemma same_blob_stable name : stable (same_blob name).
Proof.
  constructor; unfold same_blob; try reflexivity.
  intros a b c H1 H2. now rewrite H2.
Qed.

Lemma blob_named_put_other (name : string) (w : World) (b : Blob) :
  pathname b <> name ->
  blob_named name (put_blob w b) = blob_named name w.
Proof.
  intros Hb. unfold blob_named, put_blob. cbn [blobs find].
  destruct (String.eqb_spec (pathname b) name) as [E|_]; [contradiction|].
  apply find_filter_weaker.
  intros x Hx. apply String.eqb_eq in Hx.
  destruct (String.eqb_spec (pathname x) (pathname b)) as [E|E]; [|reflexivity].
  congruence.
Qed.

Lemma keeps_store name (b : Blob) :
  pathname b <> name -> keeps (same_blob name) (store b).
Proof.
  intros Hn w. unfold store, same_blob. cbn [snd].
  now apply blob_named_put_other.
Qed.

Lemma scrape_keeps_other_blobs env name :
  name <> BLOB_FILENAME -> name <> "error-screenshot.png"%string ->
  keeps (same_blob name) (scrape env).
Proof.
  intros H1 H2. pose proof (same_blob_stable name) as HR.
  unfold scrape, try_block, catch_block, capture_screenshot, saveData,
    blob_put_call, sendEmail, sgMail_send_call, extraction_steps,
    finally_block, log, log_error.
  keeps_structure; apply keeps_store; cbn [pathname]; congruence.
Qed.

(** X5.  A run writes under two names only: the blob of every other
    pathname is after the run what it was before, whatever the run does;
    and a run never removes the snapshot. *)
Theorem run_leaves_other_blobs_alone env w name :
  name <> BLOB_FILENAME -> name <> "error-screenshot.png"%string ->
  blob_named name (snd (scrape env w)) = blob_named name w
  /\ (snapshot w <> None -> snapshot (snd (scrape env w)) <> None).
Proof.
  intros H1 H2. split; [apply (scrape_keeps_other_blobs env name H1 H2)|].
  intros Hs. destruct (launch env) as [[]|reason] eqn:Hl.
  - destruct (run_observed env w Hl)
      as (c & w' & Hb & _ & _ & _ & _ & _ & -> & _).
    destruct (try_and_catch_storage env _ c w' (page_after_launch w) Hb)
      as (_ & ->).
    change (snapshot (world_after_launch w)) with (snapshot w).
    destruct (extraction env); [destruct (put env _ _)|]; congruence.
  - destruct (run_without_browser env w reason Hl) as (_ & _ & -> & _).
    exact Hs.
Qed.

Lemma run_leaves_other_blobs_alone_witness :
  blob_named "notes.txt" (snd (scrape Sample.unreachable Cases.with_notes))
  = blob_named "notes.txt" Cases.with_notes.
Proof.
  refine (proj1 (run_leaves_other_blobs_alone Sample.unreachable
                   Cases.with_notes "notes.txt" _ _)); discriminate.
Defined.

(* ------------------------------------------------------------------ *)
(** ** The stored screenshot *)
(* ------------------------------------------------------------------ *)

Lemma keeps_sendEmail_blob env regs blobUrl name :
  keeps (same_blob name) (sendEmail env regs blobUrl).
Proof.
  pose proof (same_blob_stable name) as HR.
  unfold sendEmail, sgMail_send_call, log, log_error. keeps_structure.
Qed.

Lemma keeps_finally_block_blob env name :
  keeps (same_blob name) (finally_block env).
Proof.
  pose proof (same_blob_stable name) as HR.
  unfold finally_block, log. keeps_structure.
Qed.

Lemma blob_named_put_same (w : World) (b : Blob) :
  blob_named (pathname b) (put_blob w b) = Some b.
Proof.
  unfold blob_named, put_blob. cbn [blobs find].
  now rewrite String.eqb_refl.
Qed.

(** X6.  When steps 1 to 6 fail on an open page, the screenshot is taken
    and the store accepts it, the run leaves the image in the store
    under the name [error-screenshot.png], with the content type of a
    PNG image and the address the store gave, whatever the notification
    and the closing of the browser do afterwards; the snapshot is as
    before. *)
Theorem failure_screenshot_is_stored env w e image location :
  launch env = Fulfilled tt ->
  newPage env = Fulfilled tt ->
  extraction env = Throw e ->
  screenshot env = Fulfilled image ->
  put env "error-screenshot.png" image = Fulfilled location ->
  blob_named "error-screenshot.png" (snd (scrape env w))
  = Some {| pathname := "error-screenshot.png"; url := location;
            content := image; contentType := "image/png" |}
  /\ snapshot (snd (scrape env w)) = snapshot w
  /\ In (console_log ("▸ Error screenshot saved to " ++ location)%string)
        (run_events env w).
Proof.
  intros Hl Hn Hx Hshot Hput.
  split; [|split].
  - rewrite (scrape_launch_fulfilled env w Hl).
    unfold tryFinally, try_and_catch, tryCatch, try_block, bind.
    destruct (extraction_steps_footprint env (world_after_launch w))
      as (w1 & evs & Hstep & _ & _ & _ & _ & Hp).
    rewrite Hstep, Hx. rewrite Hn in Hp.
    unfold catch_block, capture_screenshot, blob_put_call.
    exec. change (read_page ?w0) with (Normal (page w0), w0). project.
    rewrite Hp. exec.
    match goal with
    | |- context [sendEmail env [] None ?w2] =>
        pose proof (keeps_sendEmail_blob env [] None "error-screenshot.png" w2)
          as Hsend;
        destruct (sendEmail env [] None w2) as [c3 w3]
    end.
    pose proof (keeps_finally_block_blob env "error-screenshot.png" w3) as Hfin.
    destruct (finally_block env w3) as [[[]|e4] w4];
      unfold same_blob in *; cbn [snd] in *;
      rewrite Hfin, Hsend;
      match goal with
      | |- blob_named _ (add_event (put_blob ?w0 ?b) _) = _ =>
          exact (blob_named_put_same w0 b)
      end.
  - destruct (run_observed env w Hl)
      as (c & w' & Hb & _ & _ & _ & _ & _ & -> & _).
    destruct (try_and_catch_storage env _ c w' (page_after_launch w) Hb)
      as (_ & ->).
    now rewrite Hx.
  - destruct (run_observed env w Hl)
      as (c & w' & Hb & _ & _ & _ & Hin & _).
    apply Hin. revert Hb.
    unfold try_and_catch, tryCatch, try_block, bind.
    destruct (extraction_steps_footprint env (world_after_launch w))
      as (w1 & evs & Hstep & Ht & _ & _ & _ & Hp).
    rewrite Hstep, Hx. rewrite Hn in Hp.
    unfold catch_block, capture_screenshot, blob_put_call.
    exec. change (read_page ?w0) with (Normal (page w0), w0). project.
    rewrite Hp. exec.
    match goal with
    | |- context [sendEmail env [] None ?w2] =>
        set (w2' := w2);
        assert (Hw2 : In (console_log ("▸ Error screenshot saved to " ++ location)%string)
                         (events_since (world_after_launch w) w2'))
          by (subst w2'; since; in_list)
    end.
    intros Hb.
    assert (Hext : exists more, trace w' = trace w2' ++ more).
    { assert (Hs : sendEmail env [] None w2' = (c, w')) by exact Hb.
      clear Hb. revert Hs. unfold sendEmail.
      destruct (negb (JsString.truthy (RECIPIENT_EMAIL env))
                || negb (JsString.truthy (FROM_EMAIL env)))%bool;
        unfold sgMail_send_call; exec;
        intros Hs; injection Hs as _ <-; eexists; project;
        repeat rewrite <- app_assoc; reflexivity. }
    destruct Hext as (more & Hmore).
    unfold events_since in *. rewrite Hmore, skipn_app.
    apply in_or_app. left. exact Hw2.
Qed.

Lemma failure_screenshot_is_stored_witness :
  blob_named "error-screenshot.png" (snd (scrape Sample.unreachable empty_world))
  = Some {| pathname := "error-screenshot.png";
            url := "https://blob.example/error-screenshot.png";
            content := "PNG"; contentType := "image/png" |}.
Proof.
  assert (Hx : extraction Sample.unreachable
               = Throw {| thrown_by := OpGoto;
                          message := "net::ERR_NAME_NOT_RESOLVED" |})
    by (vm_compute; reflexivity).
  exact (proj1 (failure_screenshot_is_stored Sample.unreachable empty_world
                  _ "PNG" "https://blob.example/error-screenshot.png"
                  eq_refl eq_refl Hx eq_refl eq_refl)).
Defined.

(* ------------------------------------------------------------------ *)
(** ** The read route, case by case *)
(* ------------------------------------------------------------------ *)


(** X7.  The read route always answers and changes neither the store nor
    the outbox.  It lists the store; when the listing fails it answers
    500; when no blob bears the snapshot's name it answers 404 without
    fetching anything; otherwise it fetches the address of that blob and
    answers 200 with the text the download gives, whatever the status of
    the download (the status is not looked at, so the body of a download
    that was answered with an error is passed on with status 200); it
    answers 500 when the fetch or the reading of its body fails.  The two
    error bodies are the JSON objects of one member [error]. *)
Theorem read_route_case_by_case env w :
  exists response,
    fst (GET env w) = Normal response
    /\ blobs (snd (GET env w)) = blobs w
    /\ outbox (snd (GET env w)) = outbox w
    /\ match listBlobs env, snapshot w with
       | Rejected _, _ =>
           response = json_response 500 "Failed to fetch data"
           /\ events_since w (snd (GET env w)) = [blob_list]
       | Fulfilled _, None =>
           response = json_response 404 "No data found"
           /\ events_since w (snd (GET env w)) = [blob_list]
       | Fulfilled _, Some blob =>
           match fetchUrl env (url blob) with
           | Rejected _ =>
               response = json_response 500 "Failed to fetch data"
               /\ events_since w (snd (GET env w))
                  = [blob_list; http_fetch (url blob)]
           | Fulfilled download =>
               events_since w (snd (GET env w))
               = [blob_list; http_fetch (url blob); response_text]
               /\ response =
                  match fetched_text download with
                  | Fulfilled text =>
                      {| status := 200; body := text;
                         headers := [("Content-Type", "application/json");
                                     ("Cache-Control", "no-cache")]%string |}
                  | Rejected _ => json_response 500 "Failed to fetch data"
                  end
           end
       end
    /\ body (json_response 404 "No data found")
       = ("{" ++ Json.dq ++ "error" ++ Json.dq ++ ":"
              ++ Json.dq ++ "No data found" ++ Json.dq ++ "}")%string
    /\ body (json_response 500 "Failed to fetch data")
       = ("{" ++ Json.dq ++ "error" ++ Json.dq ++ ":"
              ++ Json.dq ++ "Failed to fetch data" ++ Json.dq ++ "}")%string.
Proof.
  unfold GET.
  destruct (listBlobs env) as [[]|reason] eqn:Hl; exec.
  - change (find_blob BLOB_FILENAME ?w0) with (Normal (snapshot w0), w0).
    rewrite snapshot_add_event.
    destruct (snapshot w) as [blob|] eqn:Hs.
    + destruct (fetchUrl env (url blob)) as [[code [text|reason]]|reason] eqn:Hf;
        exec; cbn [fetched_text];
        eexists; (split; [reflexivity|]); project;
        repeat split; since; reflexivity.
    + eexists. split; [reflexivity|]. project.
      repeat split; since; reflexivity.
  - eexists. split; [reflexivity|]. project.
    repeat split; since; reflexivity.
Qed.

Lemma read_route_case_by_case_witness :
  fst (GET (Cases.reader 404 "Not Found") Cases.with_snapshot)
  = Normal {| status := 200; body := "Not Found";
              headers := [("Content-Type", "application/json");
                          ("Cache-Control", "no-cache")]%string |}.
Proof.
  destruct (read_route_case_by_case (Cases.reader 404 "Not Found")
              Cases.with_snapshot) as (response & Hget & _ & _ & Hcase & _).
  cbn [listBlobs Cases.reader snapshot Cases.with_snapshot blobs find
       pathname Cases.stored] in Hcase.
  change (String.eqb BLOB_FILENAME BLOB_FILENAME) with true in Hcase.
  cbn [fetchUrl fetched_text] in Hcase.
  destruct Hcase as [_ ->]. exact Hget.
Defined.

(* ------------------------------------------------------------------ *)
(** ** What the row extraction reads *)
(* ------------------------------------------------------------------ *)

Lemma cell_text_of_texts (cols : list Dom.Node) (i : nat) :
  Dom.cell_text cols i
  = JsString.or_empty
      (option_map JsString.trim (nth_error (map Dom.textContent cols) i)).
Proof. unfold Dom.cell_text. now rewrite nth_error_map. Qed.

Lemma nth_error_window {A : Type} (l : list A) (k : nat) :
  k < 5 -> nth_error l (S k) = nth_error (firstn 5 (skipn 1 l)) k.
Proof.
  intros Hk. rewrite nth_error_firstn, nth_error_skipn.
  apply Nat.ltb_lt in Hk. now rewrite Hk.
Qed.

(** X8.  The registration of a row depends on the texts of the second to
    the sixth [td] element under it only, at whatever depth these are:
    rows that agree on these texts yield the same registration, and a
    row with at most one [td] under it (a row of [th] cells, for one)
    yields the registration of five empty fields.  A child of the row
    that is not a [td] and holds none is not counted.  A [td] counts
    together with the [td] elements nested in it, which follow it in the
    count.  And since the selector drops the first row of every parent,
    a table whose header row is alone in a row group of its own loses
    the first row of the next group. *)
Theorem extraction_reads_cells_one_to_five :
  (forall row row' : Dom.Node,
      firstn 5 (skipn 1 (map Dom.textContent (Dom.querySelectorAll_td row)))
      = firstn 5 (skipn 1 (map Dom.textContent (Dom.querySelectorAll_td row'))) ->
      Dom.row_to_registration row = Dom.row_to_registration row')
  /\ (forall row : Dom.Node,
        length (Dom.querySelectorAll_td row) <= 1 ->
        Dom.row_to_registration row = blank_registration)
  /\ (forall (tag : Dom.Tag) (before : list Dom.Node) (c : Dom.Node)
             (after : list Dom.Node),
        Dom.is_td c = false -> Dom.free_of Dom.is_td c = true ->
        Dom.row_to_registration (Dom.Element tag (before ++ c :: after))
        = Dom.row_to_registration (Dom.Element tag (before ++ after)))
  /\ (forall (tag : Dom.Tag) (before content after : list Dom.Node),
        Dom.querySelectorAll_td
          (Dom.Element tag (before ++ Dom.Element Dom.TD content :: after))
        = Dom.querySelectorAll_td (Dom.Element tag before)
            ++ Dom.Element Dom.TD content
            :: Dom.querySelectorAll_td (Dom.Element Dom.TD content)
            ++ Dom.querySelectorAll_td (Dom.Element tag after))
  /\ (forall (header first : Dom.Node) (rest : list Dom.Node),
        forallb Dom.plain_row (header :: first :: rest) = true ->
        Dom.extractRegistrations
          (Dom.Element Dom.TABLE
             [Dom.Element Dom.THEAD [header];
              Dom.Element Dom.TBODY (first :: rest)])
        = map Dom.row_to_registration rest).
Proof.
  split; [|split; [|split; [|split]]].
  - intros row row' H. unfold Dom.row_to_registration.
    rewrite !cell_text_of_texts.
    rewrite !(nth_error_window (map _ (Dom.querySelectorAll_td row)))
      by (repeat constructor).
    rewrite !(nth_error_window (map _ (Dom.querySelectorAll_td row')))
      by (repeat constructor).
    now rewrite H.
  - intros row H. unfold Dom.row_to_registration, Dom.cell_text.
    destruct (Dom.querySelectorAll_td row) as [|c [|c' l]];
      [reflexivity | reflexivity | cbn in H; lia].
  - intros tag before c after Hc Hfree. unfold Dom.row_to_registration.
    rewrite !querySelectorAll_td_children, !flat_map_app.
    cbn [flat_map]. now rewrite Hc, (free_of_td c Hfree).
  - intros tag before content after.
    rewrite !querySelectorAll_td_children, flat_map_app.
    cbn [flat_map Dom.is_td app]. now rewrite querySelectorAll_td_children.
  - intros header first rest H.
    cbn [forallb] in H. apply andb_prop in H as [Hh H].
    apply andb_prop in H as [Hf Hrest].
    destruct (among_plain_rows rest Hrest) as [Hsel _].
    unfold Dom.plain_row in Hh, Hf.
    apply andb_prop in Hh as [Hh _]. apply andb_prop in Hh as [Hh1 Hh2].
    apply andb_prop in Hf as [Hf _]. apply andb_prop in Hf as [Hf1 Hf2].
    destruct header as [d|[] hs]; try discriminate Hh1.
    destruct first as [d|[] fs]; try discriminate Hf1.
    unfold Dom.free_of in Hh2, Hf2.
    unfold Dom.extractRegistrations, Dom.querySelectorAll_tr_not_first_child.
    f_equal.
    change (Dom.descendants
              (Dom.Element Dom.TABLE
                 [Dom.Element Dom.THEAD [Dom.Element Dom.TR hs];
                  Dom.Element Dom.TBODY (Dom.Element Dom.TR fs :: rest)]))
      with ((true, Dom.Element Dom.THEAD [Dom.Element Dom.TR hs])
              :: ((true, Dom.Element Dom.TR hs)
                    :: Dom.descendants (Dom.Element Dom.TR hs) ++ [])
              ++ (false, Dom.Element Dom.TBODY (Dom.Element Dom.TR fs :: rest))
              :: ((true, Dom.Element Dom.TR fs)
                    :: Dom.descendants (Dom.Element Dom.TR fs)
                    ++ Dom.among Dom.descendants false rest)
              ++ []).
    rewrite !app_nil_r.
    cbn [filter fst snd Dom.is_tr andb negb app].
    rewrite !filter_app. cbn [filter fst snd Dom.is_tr andb negb app].
    rewrite !filter_app.
    rewrite (filter_nothing _ _ _ Hh2), (filter_nothing _ _ _ Hf2).
    + exact Hsel.
    + intros x Hx. now apply andb_prop in Hx as [Hx _].
    + intros x Hx. now apply andb_prop in Hx as [Hx _].
Qed.

(* ------------------------------------------------------------------ *)
(** ** The message of a non-empty set *)
(* ------------------------------------------------------------------ *)

Section Contains.

Local Open Scope string_scope.

Lemma contains_here (part rest : string) : contains (part ++ rest) part.
Proof. now exists "", rest. Qed.

Lemma contains_skip (skipped text part : string) :
  contains text part -> contains (skipped ++ text) part.
Proof.
  intros (a & b & ->). exists (skipped ++ a), b.
  now rewrite JsonFacts.append_assoc.
Qed.

Lemma contains_all (part : string) : contains part part.
Proof. exists "", "". cbn [append]. now rewrite JsonFacts.append_nil_r. Qed.

Lemma contains_trans (text middle part : string) :
  contains text middle -> contains middle part -> contains text part.
Proof.
  intros (a & b & ->) (c & d & ->). exists (a ++ c), (d ++ b).
  now rewrite !JsonFacts.append_assoc.
Qed.

End Contains.

(** A part that is one of the operands of a concatenation. *)
Ltac find_part :=
  repeat first [ apply contains_here | apply contains_all | apply contains_skip ].

Lemma join_contains_each {A : Type} (f : A -> string) (l : list A) (x : A) :
  In x l -> contains (JsString.join (map f l)) (f x).
Proof.
  induction l as [|y l IH]; intros Hin; [contradiction|].
  change (JsString.join (map f (y :: l)))
    with (f y ++ JsString.join (map f l))%string.
  destruct Hin as [-> | Hin].
  - apply contains_here.
  - apply contains_skip. now apply IH.
Qed.

(** X9.  For a non-empty set the message has the subject of new
    registrations, and its page holds the table row of every
    registration of the set, each row holding the five fields as they
    are, with no escaping; with a non-empty address the page holds the
    link to that address, and with an empty address it is the page
    without link. *)
Theorem results_message_holds_rows_and_link env all blobUrl :
  all <> [] ->
  subject (message_for env all blobUrl) = "🏀 Nuevas Inscripciones Disponibles!"%string
  /\ (forall item, In item all ->
        contains (html (message_for env all blobUrl)) (Mail.tableRow item))
  /\ (forall item,
        contains (Mail.tableRow item) (polideportivo item)
        /\ contains (Mail.tableRow item) (categoria item)
        /\ contains (Mail.tableRow item) (actividad item)
        /\ contains (Mail.tableRow item) (subcategoria item)
        /\ contains (Mail.tableRow item) (horario item))
  /\ (forall address, blobUrl = Some address -> address <> ""%string ->
        contains (html (message_for env all blobUrl)) (Mail.jsonLink blobUrl)
        /\ Mail.jsonLink blobUrl
           = ("<p style=" ++ Json.dq ++ "margin: 5px 0;" ++ Json.dq
              ++ ">🔗 <a href=" ++ Json.dq ++ address ++ Json.dq
              ++ ">Ver datos en formato JSON</a></p>")%string)
  /\ (blobUrl = Some ""%string ->
      message_for env all blobUrl = message_for env all None).
Proof.
  intros Hne. destruct all as [|r regs]; [contradiction|].
  unfold message_for, Mail.message. cbn [subject html].
  unfold Mail.htmlContent, Mail.subjectLine. cbn [length Nat.ltb Nat.leb].
  split; [reflexivity|]. split; [|split; [|split]].
  - intros item Hin.
    apply (contains_trans _ (JsString.join (map Mail.tableRow (r :: regs)))).
    + unfold Mail.resultsHtml. cbv zeta. find_part.
    + now apply join_contains_each.
  - intros item. unfold Mail.tableRow. repeat split; find_part.
  - intros address -> Ha. split.
    + unfold Mail.resultsHtml. cbv zeta. find_part.
    + unfold Mail.jsonLink, JsString.truthy.
      destruct (String.eqb_spec address ""); [contradiction|reflexivity].
  - intros ->. reflexivity.
Qed.

Lemma results_message_holds_rows_and_link_witness :
  subject (message_for Sample.found [Dom.row_to_registration Sample.row1] None)
  = "🏀 Nuevas Inscripciones Disponibles!"%string.
Proof.
  refine (proj1 (results_message_holds_rows_and_link Sample.found
                   [Dom.row_to_registration Sample.row1] None _)).
  discriminate.
Defined.

(* ------------------------------------------------------------------ *)
(** ** Trimmed fields *)
(* ------------------------------------------------------------------ *)

Section TrimTwice.

Import JsString.
Local Open Scope string_scope.

Lemma join_app (a b : list string) : join (a ++ b)%list = join a ++ join b.
Proof.
  induction a as [|x a IH]; [reflexivity|].
  cbn [app join fold_right]. fold (join (a ++ b)%list). fold (join a).
  now rewrite IH, JsonFacts.append_assoc.
Qed.

(** The first character of a text: it is split off in the same way when
    the rest of the text is cut short. *)
Lemma chars_first (c1 : ascii) (s1 : string) :
  exists chunk rest,
    chars (String c1 s1) = chunk :: chars rest
    /\ String c1 s1 = chunk ++ rest
    /\ String.length rest <= String.length s1
    /\ (forall x y, rest = x ++ y -> chars (chunk ++ x) = chunk :: chars x).
Proof.
  assert (Hcut : forall x, lead_kind c1 <= 1 \/ 5 <= lead_kind c1
                           \/ String.length x + 2 <= lead_kind c1 ->
                           chars (String c1 x) = String c1 "" :: chars x).
  { intros x H. cbn [chars].
    destruct (lead_kind c1) as [|[|[|[|[|k]]]]]; try reflexivity;
      destruct x as [|c2 [|c3 [|c4 x]]]; try reflexivity;
      cbn [String.length] in H; lia. }
  assert (Hshort : forall x y z : string,
             z = x ++ y -> String.length x <= String.length z).
  { intros x y z ->. induction x as [|a x IH]; cbn [append String.length].
    - lia.
    - change (String a x ++ y) with (String a (x ++ y)).
      cbn [String.length]. lia. }
  destruct (lead_kind c1) as [|[|[|[|[|k]]]]] eqn:E.
  1, 2, 6:
    exists (String c1 ""), s1;
    (split; [apply Hcut; lia|]); (split; [reflexivity|]);
    (split; [lia|]); intros x y _; apply Hcut; lia.
  - destruct s1 as [|c2 s2].
    + exists (String c1 ""), "".
      split; [apply Hcut; cbn [String.length]; lia|].
      split; [reflexivity|]. split; [lia|].
      intros x y H. apply Hcut. apply Hshort in H. cbn [String.length] in H. lia.
    + exists (String c1 (String c2 "")), s2.
      split; [cbn [chars]; now rewrite E|].
      split; [reflexivity|]. split; [cbn [String.length]; lia|].
      intros x y _. change (String c1 (String c2 "") ++ x)
                      with (String c1 (String c2 x)).
      cbn [chars]. now rewrite E.
  - destruct s1 as [|c2 [|c3 s3]].
    1, 2:
      eexists (String c1 ""), _;
      (split; [apply Hcut; cbn [String.length]; lia|]);
      (split; [reflexivity|]); (split; [lia|]);
      intros x y H; apply Hcut; apply Hshort in H;
      cbn [String.length] in H; lia.
    exists (String c1 (String c2 (String c3 ""))), s3.
    split; [cbn [chars]; now rewrite E|].
    split; [reflexivity|]. split; [cbn [String.length]; lia|].
    intros x y _. change (String c1 (String c2 (String c3 "")) ++ x)
                    with (String c1 (String c2 (String c3 x))).
    cbn [chars]. now rewrite E.
  - destruct s1 as [|c2 [|c3 [|c4 s4]]].
    1, 2, 3:
      eexists (String c1 ""), _;
      (split; [apply Hcut; cbn [String.length]; lia|]);
      (split; [reflexivity|]); (split; [lia|]);
      intros x y H; apply Hcut; apply Hshort in H;
      cbn [String.length] in H; lia.
    exists (String c1 (String c2 (String c3 (String c4 "")))), s4.
    split; [cbn [chars]; now rewrite E|].
    split; [reflexivity|]. split; [cbn [String.length]; lia|].
    intros x y _. change (String c1 (String c2 (String c3 (String c4 ""))) ++ x)
                    with (String c1 (String c2 (String c3 (String c4 x)))).
    cbn [chars]. now rewrite E.
Qed.

(** The characters after some first ones, and the characters before some
    last ones, are the characters of the text they make up. *)
Lemma chars_of_later_chars n : forall s before l,
  String.length s <= n -> chars s = (before ++ l)%list -> chars (join l) = l.
Proof.
  induction n as [|n IH]; intros s before l Hn Hs.
  - destruct s; [|cbn in Hn; lia].
    destruct before, l; try discriminate Hs. reflexivity.
  - destruct s as [|c1 s1].
    + destruct before, l; try discriminate Hs. reflexivity.
    + destruct (chars_first c1 s1) as (chunk & rest & Hc & _ & Hlen & _).
      destruct before as [|b before].
      * cbn [app] in Hs. subst l. now rewrite chars_join.
      * rewrite Hc in Hs. injection Hs as Hb Hs.
        apply (IH rest before l); [cbn [String.length] in Hn; lia | exact Hs].
Qed.

Lemma chars_of_earlier_chars n : forall s l after,
  String.length s <= n -> chars s = (l ++ after)%list -> chars (join l) = l.
Proof.
  induction n as [|n IH]; intros s l after Hn Hs.
  - destruct s; [|cbn in Hn; lia].
    destruct l; [reflexivity | discriminate Hs].
  - destruct s as [|c1 s1].
    + destruct l; [reflexivity | discriminate Hs].
    + destruct (chars_first c1 s1) as (chunk & rest & Hc & _ & Hlen & Hcut).
      destruct l as [|b l]; [reflexivity|].
      rewrite Hc in Hs. injection Hs as Hb Hs; subst b.
      assert (Hl : chars (join l) = l)
        by (apply (IH rest l after); [cbn [String.length] in Hn; lia | exact Hs]).
      change (join (chunk :: l)) with (chunk ++ join l).
      rewrite (Hcut (join l) (join after)); [now rewrite Hl|].
      now rewrite <- join_app, <- Hs, chars_join.
Qed.

Lemma drop_white_nothing l :
  match l with ch :: _ => is_white_space ch = false | [] => True end ->
  drop_white l = l.
Proof. destruct l as [|ch l]; [reflexivity|]. cbn [drop_white]. now intros ->. Qed.

(** A trimmed text neither begins nor ends with white space. *)
Lemma trim_chars s :
  match chars (trim s) with
  | ch :: _ => is_white_space ch = false
  | [] => True
  end
  /\ match rev (chars (trim s)) with
     | ch :: _ => is_white_space ch = false
     | [] => True
     end.
Proof.
  destruct (trim_strips_both_ends s)
    as (before & mid & after & Hs & -> & _ & _ & Hfirst & Hlast).
  assert (Hmid : chars (join mid) = mid).
  { apply (chars_of_earlier_chars _ (join (mid ++ after)%list) mid after (le_n _)).
    apply (chars_of_later_chars _ s before _ (le_n _) Hs). }
  now rewrite Hmid.
Qed.

(** Trimming a trimmed text changes nothing. *)
Lemma trim_trim s : trim (trim s) = trim s.
Proof.
  destruct (trim_strips_both_ends s)
    as (before & mid & after & Hs & -> & _ & _ & Hfirst & Hlast).
  assert (Hmid : chars (join mid) = mid).
  { apply (chars_of_earlier_chars _ (join (mid ++ after)%list) mid after (le_n _)).
    apply (chars_of_later_chars _ s before _ (le_n _) Hs). }
  unfold trim. rewrite Hmid, (drop_white_nothing mid Hfirst).
  now rewrite (drop_white_nothing (rev mid) Hlast), rev_involutive.
Qed.

End TrimTwice.

(** X10.  No field of an extracted registration begins or ends with
    white space, whatever the table holds, and trimming a field again
    changes nothing. *)
Theorem extracted_fields_are_trimmed (t : Dom.Node) (r : BasketballRegistration) :
  In r (Dom.extractRegistrations t) ->
  forall field,
    In field [polideportivo r; categoria r; actividad r; subcategoria r;
              horario r] ->
    begins_with_white_space field = false
    /\ ends_with_white_space field = false
    /\ JsString.trim field = field.
Proof.
  unfold Dom.extractRegistrations. intros Hin.
  apply in_map_iff in Hin as (row & <- & _).
  assert (H : forall i,
             let field := Dom.cell_text (Dom.querySelectorAll_td row) i in
             begins_with_white_space field = false
             /\ ends_with_white_space field = false
             /\ JsString.trim field = field).
  { intros i. cbv zeta. unfold Dom.cell_text.
    destruct (nth_error (Dom.querySelectorAll_td row) i) as [c|];
      cbn [option_map]; [|repeat split; reflexivity].
    rewrite or_empty_trim.
    destruct (trim_chars (Dom.textContent c)) as [Hfirst Hlast].
    unfold begins_with_white_space, ends_with_white_space.
    split; [|split; [|apply trim_trim]].
    - destruct (JsString.chars (JsString.trim (Dom.textContent c)));
        [reflexivity | exact Hfirst].
    - destruct (rev (JsString.chars (JsString.trim (Dom.textContent c))));
        [reflexivity | exact Hlast]. }
  unfold Dom.row_to_registration.
  cbn [polideportivo categoria actividad subcategoria horario].
  intros field Hf.
  repeat (destruct Hf as [<- | Hf]; [apply H|]). contradiction.
Qed.

Lemma extracted_fields_are_trimmed_witness :
  begins_with_white_space (polideportivo (Dom.row_to_registration Sample.row1))
  = false
  /\ ends_with_white_space (polideportivo (Dom.row_to_registration Sample.row1))
     = false.
Proof.
  destruct (extracted_fields_are_trimmed Sample.two_rows
              (Dom.row_to_registration Sample.row1) (or_introl eq_refl)
              (polideportivo (Dom.row_to_registration Sample.row1))
              (or_introl eq_refl)) as (H1 & H2 & _).
  split; [exact H1 | exact H2].
Defined.

(* ------------------------------------------------------------------ *)
(** ** The refresh route *)
(* ------------------------------------------------------------------ *)

(** A run is its part up to the first [await], then the rest. *)
Lemma scrape_in_two_parts env w :
  scrape env w
  = scrape_from_first_await env (snd (scrape_until_first_await w)).
Proof. reflexivity. Qed.

(** The rest of a run with its handler never rejects. *)
Lemma pending_scrape_returns env w1 :
  fst (Refresh.pending_scrape env w1) = Normal tt.
Proof.
  unfold Refresh.pending_scrape, tryCatch.
  destruct (scrape_from_first_await env w1) as [[[]|e] w2]; reflexivity.
Qed.

(** The run started by the refresh route, from the world in which its
    first part has run. *)
Lemma pending_scrape_settles env w :
  trace (snd (Refresh.pending_scrape env (snd (scrape_until_first_await w))))
  = trace w ++ run_events env w
    ++ match fst (scrape env w) with
       | Normal _ => []
       | Throw e => [console_error "Error during manual scrape:" (Some e)]
       end
  /\ blobs (snd (Refresh.pending_scrape env (snd (scrape_until_first_await w))))
     = blobs (snd (scrape env w))
  /\ outbox (snd (Refresh.pending_scrape env (snd (scrape_until_first_await w))))
     = outbox (snd (scrape env w)).
Proof.
  unfold Refresh.pending_scrape, tryCatch.
  pose proof (scrape_trace env w) as Ht.
  rewrite scrape_in_two_parts in Ht |- *.
  destruct (scrape_from_first_await env (snd (scrape_until_first_await w)))
    as [[[]|e] w2]; cbn [fst snd] in *.
  - split; [|split; reflexivity]. now rewrite app_nil_r.
  - unfold log_error. exec. cbn [fst snd]. split; [|split; reflexivity].
    project. rewrite Ht. now rewrite <- app_assoc.
Qed.

(** X11.  The refresh route answers 200 and "success" in every
    environment, and it answers when the run it starts has got as far as
    its first [await]: after the route's line on the console, the opening
    line of the run and the call of [puppeteer.launch], and before
    anything else of the run, of which the response says nothing.  What
    is left of the run never rejects.  The request followed until the run
    has settled returns that same response; its events are the route's
    line, then those of a whole run of [scrape], then the line that
    reports the exception when the run rejects; and the store and the
    outbox are left as the run leaves them. *)
Theorem refresh_answers_before_the_run env w :
  exists response pending,
    Refresh.GET env w
    = (Normal (response, pending),
       add_event
         (add_event
            (add_event w (console_log "Manual scrape initiated via API"))
            starting)
         puppeteer_launch)
    /\ response
       = {| status := 200;
            body := ("{" ++ Json.dq ++ "status" ++ Json.dq ++ ":"
                     ++ Json.dq ++ "success" ++ Json.dq ++ ","
                     ++ Json.dq ++ "message" ++ Json.dq ++ ":"
                     ++ Json.dq ++ "Basketball data refresh initiated"
                     ++ Json.dq ++ "}")%string;
            headers := [("Content-Type", "application/json")]%string |}
    /\ (forall w1, fst (pending w1) = Normal tt)
    /\ fst (Refresh.request env w) = Normal response
    /\ (let w0 := add_event w (console_log "Manual scrape initiated via API") in
        events_since w (snd (Refresh.request env w))
        = console_log "Manual scrape initiated via API"
            :: run_events env w0
            ++ match fst (scrape env w0) with
               | Normal _ => []
               | Throw e =>
                   [console_error "Error during manual scrape:" (Some e)]
               end
        /\ blobs (snd (Refresh.request env w)) = blobs (snd (scrape env w0))
        /\ outbox (snd (Refresh.request env w)) = outbox (snd (scrape env w0))).
Proof.
  eexists. exists (Refresh.pending_scrape env).
  split; [reflexivity|]. split; [reflexivity|].
  split; [intros w1; apply pending_scrape_returns|].
  unfold Refresh.request, bind.
  change (Refresh.GET env w)
    with (Normal ({| status := 200;
                     body := Refresh.outcome_body "success"
                               "Basketball data refresh initiated";
                     headers := [("Content-Type", "application/json")]%string |},
                  Refresh.pending_scrape env),
          snd (scrape_until_first_await
                 (add_event w (console_log "Manual scrape initiated via API")))).
  cbn [fst snd].
  set (w0 := add_event w (console_log "Manual scrape initiated via API")).
  pose proof (pending_scrape_returns env (snd (scrape_until_first_await w0)))
    as Hn.
  destruct (pending_scrape_settles env w0) as (Hev & Hb & Ho).
  destruct (Refresh.pending_scrape env (snd (scrape_until_first_await w0)))
    as [c w2].
  cbn [fst snd] in *. subst c. split; [reflexivity|].
  change (snd (ret ?r w2)) with w2.
  split; [|split; assumption].
  unfold events_since. rewrite Hev. unfold w0 at 1. project.
  rewrite <- app_assoc. now rewrite skipn_app_length.
Qed.

(* ------------------------------------------------------------------ *)
(** ** The dashboard *)
(* ------------------------------------------------------------------ *)

Lemma toISOString_truthy t :
  JsString.truthy (Some (JsDate.toISOString t)) = true.
Proof.
  unfold JsDate.toISOString, JsString.truthy.
  destruct (JsDate.civil_from_days (t / JsDate.msPerDay)) as [[y m] d].
  match goal with
  | |- context [(?a ++ "-" ++ ?b)%string] =>
      change (a ++ "-" ++ b)%string with (a ++ String "-" b)%string;
      now destruct a
  end.
Qed.

(** X12.  What [saveData] stored is what the dashboard shows, as far as
    the store serves what it holds: once the store has accepted the
    snapshot of [regs], let the dashboard's [fetch] be answered by a read
    route that can list the store and whose download of the blob's
    address gives the stored document (with whatever status).  Then
    [fetchData] leaves the component, whatever its state was, idle and
    without error, holding the parsed snapshot; the page shows the time
    stamp and one card per registration, in the order of [regs], or the
    notice of an empty set when there is none. *)
Theorem dashboard_shows_what_was_saved env reader code w regs location s :
  put env BLOB_FILENAME (snapshot_body env regs) = Fulfilled location ->
  listBlobs reader = Fulfilled tt ->
  fetchUrl reader location
  = Fulfilled {| fetched_status := code;
                 fetched_text := Fulfilled (snapshot_body env regs) |} ->
  Dashboard.fetchData_settle
    (Dashboard.served reader (snd (saveData env regs w))) s
  = ({| Dashboard.data :=
          Json.Obj [("timestamp", Json.Str (JsDate.toISOString (Date_now env)));
                    ("registrations",
                     Json.Arr (map json_of_registration regs))]%string;
        Dashboard.loading := false;
        Dashboard.error := None;
        Dashboard.refreshing := false |}, None)
  /\ Dashboard.render
       (fst (Dashboard.fetchData_settle
               (Dashboard.served reader (snd (saveData env regs w))) s))
     = Some {| Dashboard.updated := Some (JsDate.toISOString (Date_now env));
               Dashboard.disabled := false;
               Dashboard.spinning := false;
               Dashboard.main :=
                 match regs with
                 | [] => Dashboard.EmptyNotice
                 | _ :: _ => Dashboard.Grid (map Dashboard.card regs)
                 end |}.
Proof.
  intros Hput Hl Hf.
  assert (Hserved :
    Dashboard.served reader (snd (saveData env regs w))
    = Fulfilled {| status := 200; body := snapshot_body env regs;
                   headers := [("Content-Type", "application/json");
                               ("Cache-Control", "no-cache")]%string |}).
  { unfold Dashboard.served.
    rewrite (GET_snapshot reader _
               {| pathname := BLOB_FILENAME; url := location;
                  content := snapshot_body env regs;
                  contentType := "application/json" |} code
               (snapshot_body env regs) Hl); [reflexivity| |exact Hf].
    rewrite (saveData_fulfilled env regs w location Hput). cbn [snd].
    rewrite snapshot_add_event. now apply snapshot_put_snapshot. }
  rewrite Hserved.
  assert (Hsettle :
    Dashboard.fetchData_settle
      (Fulfilled {| status := 200; body := snapshot_body env regs;
                    headers := [("Content-Type", "application/json");
                                ("Cache-Control", "no-cache")]%string |}) s
    = ({| Dashboard.data := json_of_data (snapshot_data env regs);
          Dashboard.loading := false;
          Dashboard.error := None;
          Dashboard.refreshing := false |}, None)).
  { unfold Dashboard.fetchData_settle, Dashboard.fetchData_try, Dashboard.ok.
    cbn [status body Z.leb Z.compare Pos.compare Pos.compare_cont andb negb].
    unfold snapshot_body at 1. now rewrite JsonFacts.parse_stringify_data. }
  rewrite Hsettle. split; [reflexivity|]. cbn [fst].
  unfold Dashboard.render.
  cbn [Dashboard.data Dashboard.loading Dashboard.error Dashboard.refreshing].
  change (Dashboard.typed (json_of_data (snapshot_data env regs)))
    with (option_map Some (data_of_json (json_of_data (snapshot_data env regs)))).
  rewrite data_of_json_of_data. cbn [option_map].
  cbn [snapshot_data timestamp registrations].
  rewrite toISOString_truthy.
  now destruct regs.
Qed.

Lemma dashboard_shows_what_was_saved_witness :
  Dashboard.render
    (fst (Dashboard.fetchData_settle
            (Dashboard.served
               (Cases.reader 200
                  (snapshot_body Sample.found
                     [Dom.row_to_registration Sample.row1]))
               (snd (saveData Sample.found
                       [Dom.row_to_registration Sample.row1] empty_world)))
            Dashboard.initial))
  = Some {| Dashboard.updated :=
              Some (JsDate.toISOString (Date_now Sample.found));
            Dashboard.disabled := false;
            Dashboard.spinning := false;
            Dashboard.main :=
              Dashboard.Grid
                [Dashboard.card (Dom.row_to_registration Sample.row1)] |}.
Proof.
  exact (proj2 (dashboard_shows_what_was_saved Sample.found
                  (Cases.reader 200
                     (snapshot_body Sample.found
                        [Dom.row_to_registration Sample.row1]))
                  200%Z empty_world
                  [Dom.row_to_registration Sample.row1]
                  "https://blob.example/basketball-registrations.json"
                  Dashboard.initial eq_refl eq_refl eq_refl)).
Defined.





(** X15.  In every state the component reaches from its initial state,
    whatever is fetched and in whatever order fetches begin and settle:
    [refreshing] holds only while [loading] does, so the button is
    disabled exactly while [loading] holds; and the error is absent or
    the one text of [fetchData].  An idle component need not hold data
    or an error, though: an answer that is [ok] and whose body is the
    JSON text [null] leaves it idle with no data and no error, and the
    page then shows an empty grid, neither the notice of an empty set nor
    an error. *)
Theorem dashboard_state_invariant (actions : list Dashboard.Action) :
  let s := Dashboard.after actions in
  (Dashboard.refreshing s = true -> Dashboard.loading s = true)
  /\ Dashboard.button_disabled s = Dashboard.loading s
  /\ (Dashboard.error s = None
      \/ Dashboard.error s = Some Dashboard.LOAD_ERROR)
  /\ (forall response,
        Dashboard.ok response = true ->
        Json.parse (body response) = Some Json.Null ->
        Dashboard.step s (Dashboard.Settle (Fulfilled response))
        = {| Dashboard.data := Json.Null; Dashboard.loading := false;
             Dashboard.error := None; Dashboard.refreshing := false |}
        /\ Dashboard.render
             (Dashboard.step s (Dashboard.Settle (Fulfilled response)))
           = Some {| Dashboard.updated := None;
                     Dashboard.disabled := false;
                     Dashboard.spinning := false;
                     Dashboard.main := Dashboard.Grid [] |}).
Proof.
  cbv zeta. unfold Dashboard.after.
  set (Inv := fun s : Dashboard.State =>
    (Dashboard.refreshing s = true -> Dashboard.loading s = true)
    /\ (Dashboard.error s = None
        \/ Dashboard.error s = Some Dashboard.LOAD_ERROR)).
  assert (Hstep : forall s a, Inv s -> Inv (Dashboard.step s a)).
  { intros [d l e r] a (H1 & H2). unfold Inv in *.
    cbn [Dashboard.data Dashboard.loading Dashboard.error Dashboard.refreshing]
      in *.
    destruct a as [| | |answer].
    - cbn. repeat split; auto; discriminate.
    - cbn. repeat split; auto; discriminate.
    - unfold Dashboard.step, Dashboard.button_disabled.
      cbn [Dashboard.loading Dashboard.refreshing].
      destruct (l || r)%bool eqn:E; cbn; repeat split; auto; discriminate.
    - unfold Dashboard.step, Dashboard.fetchData_settle.
      destruct (Dashboard.fetchData_try answer); cbn;
        repeat split; auto; discriminate. }
  assert (Hall : forall l s, Inv s -> Inv (fold_left Dashboard.step l s)).
  { induction l as [|a l IH]; intros s Hs; [exact Hs|].
    cbn [fold_left]. apply IH. now apply Hstep. }
  assert (H0 : Inv Dashboard.initial).
  { unfold Inv. cbn. repeat split; auto; discriminate. }
  destruct (Hall actions _ H0) as (H1 & H2).
  split; [exact H1|]. split; [|split; [exact H2|]].
  - unfold Dashboard.button_disabled.
    destruct (Dashboard.loading
                (fold_left Dashboard.step actions Dashboard.initial));
      [reflexivity|].
    destruct (Dashboard.refreshing
                (fold_left Dashboard.step actions Dashboard.initial));
      [now specialize (H1 eq_refl) | reflexivity].
  - intros response Hok Hnull.
    unfold Dashboard.step, Dashboard.fetchData_settle, Dashboard.fetchData_try.
    rewrite Hok, Hnull. cbn [negb fst]. split; reflexivity.
Qed.

Lemma dashboard_state_invariant_witness :
  Dashboard.render
    (Dashboard.step (Dashboard.after [Dashboard.Mount])
       (Dashboard.Settle
          (Fulfilled {| status := 200; body := "null"; headers := [] |})))
  = Some {| Dashboard.updated := None;
            Dashboard.disabled := false;
            Dashboard.spinning := false;
            Dashboard.main := Dashboard.Grid [] |}.
Proof.
  destruct (dashboard_state_invariant [Dashboard.Mount]) as (_ & _ & _ & H).
  exact (proj2 (H {| status := 200; body := "null"; headers := [] |}
                  eq_refl eq_refl)).
Defined.

(* ------------------------------------------------------------------ *)
(** ** The earlier scraper *)
(* ------------------------------------------------------------------ *)

Module LegacyFacts.

Import Legacy.

Ltac run_step :=
  match goal with
  | |- context [emit ?e ?w] => change (emit e w) with (Normal tt, add_event w e)
  | |- context [assign_page ?b ?w] =>
      change (assign_page b w) with (Normal tt, set_page w b)
  | |- context [write ?p ?d ?w] =>
      change (write p d w) with (Normal tt, put_file w p d)
  | |- context [deliver ?b ?w] =>
      change (deliver b w) with (Normal tt, add_outbox w b)
  | |- context [logical_time ?w] =>
      change (logical_time w) with (Normal (length (trace w)), w)
  | |- context [read_page ?w] =>
      change (read_page w) with (Normal (page w), w)
  | H : ?s = _ |- context [match ?s with Fulfilled _ => _ | Rejected _ => _ end] =>
      rewrite H
  | |- context [match ?s with Fulfilled _ => _ | Rejected _ => _ end] =>
      destruct s eqn:?
  end.

Ltac run :=
  cbv beta iota delta [await log log_error bind tryCatch tryFinally ret throw];
  repeat (cbv beta iota; run_step); cbv beta iota.

Ltac fields :=
  cbn [trace files outbox page add_event set_page put_file add_outbox fst snd].

Ltac fields_in H :=
  cbn [trace files outbox page add_event set_page put_file add_outbox fst snd]
    in H.

Lemma earlier_extraction_footprint env w :
  exists w' evs,
    extraction_steps env w = (extraction env, w')
    /\ trace w' = trace w ++ evs
    /\ forallb browsing evs = true
    /\ files w' = files w
    /\ outbox w' = outbox w
    /\ page w' = match newPage env with
                 | Fulfilled _ => true
                 | Rejected _ => page w
                 end.
Proof.
  unfold extraction, extraction_steps. run.
  all: eexists; eexists; split; [reflexivity|]; fields;
    repeat rewrite <- app_assoc; cbn [app];
    split; [reflexivity|]; split; [reflexivity|]; auto.
Qed.

Lemma earlier_events_since w0 w' evs :
  trace w' = trace w0 ++ evs -> events_since w0 w' = evs.
Proof. unfold events_since. intros ->. apply skipn_app_length. Qed.

Lemma earlier_browsing_quiet evs :
  forallb browsing evs = true ->
  notify_calls evs = [] /\ sent_messages evs = []
  /\ forallb (fun e => match e with setInterval _ => false | _ => true end) evs
     = true.
Proof.
  induction evs as [|e evs IH]; intros H; [now repeat split|].
  apply andb_prop in H as [He Hevs]. destruct (IH Hevs) as (I1 & I2 & I3).
  destruct e; try discriminate He; cbn; now repeat split.
Qed.

End LegacyFacts.

(** X16.  In the earlier scraper the [catch] block awaits the screenshot
    with no [try] of its own: when steps 1 to 6 fail on an open page and
    the screenshot fails too, the exception of the screenshot leaves the
    [catch] block before [sendEmail] is reached.  The run calls
    [sendEmail] not once and hands nothing to the mail channel, closes
    the browser and rejects (with the exception of the screenshot, or
    with that of the closing); files and outbox are as before. *)
Theorem earlier_screenshot_failure_blocks_notification env w e reason :
  Legacy.launch env = Fulfilled tt ->
  Legacy.newPage env = Fulfilled tt ->
  Legacy.extraction env = Legacy.Throw e ->
  Legacy.screenshot env = Rejected reason ->
  Legacy.notify_calls (Legacy.run_events env w) = []
  /\ Legacy.sent_messages (Legacy.run_events env w) = []
  /\ In (Legacy.page_screenshot "error-screenshot.png") (Legacy.run_events env w)
  /\ In Legacy.browser_close (Legacy.run_events env w)
  /\ fst (Legacy.scrape env w)
     = Legacy.Throw
         match Legacy.close env with
         | Fulfilled _ =>
             {| Legacy.thrown_by := Legacy.OpScreenshot;
                Legacy.message := reason |}
         | Rejected r =>
             {| Legacy.thrown_by := Legacy.OpClose; Legacy.message := r |}
         end
  /\ Legacy.files (snd (Legacy.scrape env w)) = Legacy.files w
  /\ Legacy.outbox (snd (Legacy.scrape env w)) = Legacy.outbox w.
Proof.
  intros Hl Hn Hx Hs.
  unfold Legacy.run_events, Legacy.scrape, Legacy.try_block.
  destruct (Legacy.close env) as [[]|r] eqn:Hc.
  all: LegacyFacts.run.
  all: match goal with
       | |- context [Legacy.extraction_steps ?env0 ?w0] =>
           destruct (LegacyFacts.earlier_extraction_footprint env0 w0)
             as (w1 & evs & Hstep & Ht & Hb & Hf & Ho & Hp)
       end.
  all: rewrite Hstep, Hx; rewrite Hn in Hp.
  all: destruct (LegacyFacts.earlier_browsing_quiet evs Hb) as (Hq1 & Hq2 & _).
  all: unfold Legacy.catch_block, Legacy.page_screenshot_call,
         Legacy.finally_block.
  all: LegacyFacts.fields_in Ht; LegacyFacts.fields_in Hf;
    LegacyFacts.fields_in Ho.
  all: LegacyFacts.run; LegacyFacts.fields; rewrite Hp; LegacyFacts.run.
  all: LegacyFacts.fields; rewrite ?Hf, ?Ho.
  all: unfold Legacy.events_since; LegacyFacts.fields.
  all: rewrite Ht.
  all: repeat rewrite <- app_assoc; rewrite skipn_app_length; cbn [app].
  all: unfold Legacy.notify_calls, Legacy.sent_messages in *.
  all: cbn [flat_map app]; rewrite !flat_map_app, Hq1, Hq2; cbn [flat_map app].
  all: repeat split; auto.
  all: repeat first [ left; reflexivity | right | apply in_or_app; right ].
Qed.

Lemma earlier_screenshot_failure_blocks_notification_witness :
  Legacy.notify_calls
    (Legacy.run_events Legacy.unreachable_no_capture Legacy.empty_world) = []
  /\ fst (Legacy.scrape Legacy.unreachable_no_capture Legacy.empty_world)
     = Legacy.Throw {| Legacy.thrown_by := Legacy.OpScreenshot;
                       Legacy.message := "Target closed" |}.
Proof.
  assert (Hx : Legacy.extraction Legacy.unreachable_no_capture
               = Legacy.Throw {| Legacy.thrown_by := Legacy.OpGoto;
                                 Legacy.message := "net::ERR_NAME_NOT_RESOLVED" |})
    by (vm_compute; reflexivity).
  destruct (earlier_screenshot_failure_blocks_notification
              Legacy.unreachable_no_capture Legacy.empty_world _ "Target closed"
              eq_refl eq_refl Hx eq_refl)
    as (H1 & _ & _ & _ & H5 & _).
  split; [exact H1 | exact H5].
Defined.

(** The earlier read route gives the file that is there. *)
Lemma earlier_GET_file env w data :
  Legacy.readFile env Legacy.DATA_FILE_PATH = Fulfilled tt ->
  Legacy.file_at Legacy.DATA_FILE_PATH w = Some data ->
  fst (Legacy.GET env w)
  = Legacy.Normal {| status := 200; body := data;
                     headers := [("Content-Type", "application/json");
                                 ("Cache-Control", "no-cache")]%string |}.
Proof.
  intros Hr Hf. unfold Legacy.GET, Legacy.fs_readFile_call. LegacyFacts.run.
  change (Legacy.file_at Legacy.DATA_FILE_PATH (Legacy.add_event w ?e))
    with (Legacy.file_at Legacy.DATA_FILE_PATH w).
  now rewrite Hf.
Qed.

(** X17.  The earlier read route always answers and changes nothing.  It
    reads the one file: when the file is there and can be read it
    answers 200 with the content of the file as it is; in every other
    case, a file that was never written included, it answers 500 with
    the body of the failed fetch.  It has no answer 404. *)
Theorem earlier_read_route_case_by_case env w :
  exists response,
    fst (Legacy.GET env w) = Legacy.Normal response
    /\ Legacy.files (snd (Legacy.GET env w)) = Legacy.files w
    /\ Legacy.events_since w (snd (Legacy.GET env w))
       = [Legacy.fs_readFile Legacy.DATA_FILE_PATH]
    /\ response =
       match Legacy.readFile env Legacy.DATA_FILE_PATH,
             Legacy.file_at Legacy.DATA_FILE_PATH w with
       | Fulfilled _, Some data =>
           {| status := 200; body := data;
              headers := [("Content-Type", "application/json");
                          ("Cache-Control", "no-cache")]%string |}
       | _, _ => json_response 500 "Failed to fetch data"
       end
    /\ status response <> 404%Z.
Proof.
  unfold Legacy.GET, Legacy.fs_readFile_call.
  destruct (Legacy.readFile env Legacy.DATA_FILE_PATH) as [[]|reason] eqn:Hr;
    LegacyFacts.run.
  - change (Legacy.file_at Legacy.DATA_FILE_PATH (Legacy.add_event w ?e))
      with (Legacy.file_at Legacy.DATA_FILE_PATH w).
    destruct (Legacy.file_at Legacy.DATA_FILE_PATH w) as [data|];
      eexists; (split; [reflexivity|]); LegacyFacts.fields;
      (split; [reflexivity|]);
      (split; [apply LegacyFacts.earlier_events_since; reflexivity|]);
      split; [reflexivity | discriminate | reflexivity | discriminate].
  - eexists. split; [reflexivity|]. LegacyFacts.fields.
    split; [reflexivity|].
    split; [apply LegacyFacts.earlier_events_since; reflexivity|].
    split; [reflexivity | discriminate].
Qed.


Section EarlierSave.

Import Legacy.

Lemma earlier_file_at_put_same w path data :
  file_at path (put_file w path data) = Some data.
Proof.
  unfold file_at, put_file. cbn [files find fst].
  now rewrite String.eqb_refl.
Qed.

Lemma earlier_file_at_put_other w path other data :
  other <> path ->
  file_at other (put_file w path data) = file_at other w.
Proof.
  intros Hn. unfold file_at, put_file. cbn [files find fst].
  destruct (String.eqb_spec path other) as [E|_]; [congruence|].
  f_equal. apply find_filter_weaker.
  intros x Hx. apply String.eqb_eq in Hx.
  destruct (String.eqb_spec (fst x) path) as [E|E]; [congruence | reflexivity].
Qed.

End EarlierSave.

(** X18.  The earlier [saveData] and read route make a round trip: when
    the directory can be made and the file written, [saveData] returns
    normally, the file holds the document of the snapshot (the clock's
    [toISOString()] and the given registrations), every other file is as
    before, the document reads back as that snapshot, and the read route
    then answers 200 with a body that reads back as that snapshot. *)
Theorem earlier_save_load_round_trip env regs w :
  Legacy.mkdir env = Fulfilled tt ->
  Legacy.writeFile env Legacy.DATA_FILE_PATH (Legacy.snapshot_body env regs)
  = Fulfilled tt ->
  fst (Legacy.saveData env regs w) = Legacy.Normal tt
  /\ Legacy.file_at Legacy.DATA_FILE_PATH (snd (Legacy.saveData env regs w))
     = Some (Legacy.snapshot_body env regs)
  /\ (forall path, path <> Legacy.DATA_FILE_PATH ->
        Legacy.file_at path (snd (Legacy.saveData env regs w))
        = Legacy.file_at path w)
  /\ load (Legacy.snapshot_body env regs)
     = Some {| timestamp := JsDate.toISOString (Legacy.Date_now env);
               registrations := regs |}
  /\ (Legacy.readFile env Legacy.DATA_FILE_PATH = Fulfilled tt ->
      exists response,
        fst (Legacy.GET env (snd (Legacy.saveData env regs w)))
        = Legacy.Normal response
        /\ status response = 200%Z
        /\ load (body response)
           = Some {| timestamp := JsDate.toISOString (Legacy.Date_now env);
                     registrations := regs |}).
Proof.
  intros Hm Hw.
  assert (Hload : load (Legacy.snapshot_body env regs)
     = Some {| timestamp := JsDate.toISOString (Legacy.Date_now env);
               registrations := regs |}).
  { unfold load, Legacy.snapshot_body.
    rewrite JsonFacts.parse_stringify_data. apply data_of_json_of_data. }
  assert (Hsave : Legacy.saveData env regs w
    = (Legacy.Normal tt,
       Legacy.add_event
         (Legacy.put_file
            (Legacy.add_event
               (Legacy.add_event
                  (Legacy.add_event w (Legacy.call_saveData regs))
                  (Legacy.fs_mkdir Legacy.DATA_DIRECTORY))
               (Legacy.fs_writeFile Legacy.DATA_FILE_PATH
                  (Legacy.snapshot_body env regs)))
            Legacy.DATA_FILE_PATH (Legacy.snapshot_body env regs))
         (Legacy.console_log "✓ Data saved successfully"))).
  { unfold Legacy.saveData, Legacy.fs_writeFile_call, Legacy.snapshot_body in *.
    LegacyFacts.run. reflexivity. }
  rewrite Hsave. cbn [fst snd].
  assert (Hfile : forall e w0 path,
             Legacy.file_at path (Legacy.add_event w0 e) = Legacy.file_at path w0)
    by reflexivity.
  split; [reflexivity|]. split; [|split; [|split; [exact Hload|]]].
  - rewrite Hfile. apply earlier_file_at_put_same.
  - intros path Hp. rewrite Hfile.
    rewrite (earlier_file_at_put_other _ _ _ _ Hp). now rewrite !Hfile.
  - intros Hr. eexists.
    split; [apply (earlier_GET_file env _ (Legacy.snapshot_body env regs) Hr);
            rewrite Hfile; apply earlier_file_at_put_same|].
    split; [reflexivity | exact Hload].
Qed.

Lemma earlier_save_load_round_trip_witness :
  Legacy.file_at Legacy.DATA_FILE_PATH
    (snd (Legacy.saveData Legacy.works [Dom.row_to_registration Sample.row1]
            Legacy.empty_world))
  = Some (Legacy.snapshot_body Legacy.works
            [Dom.row_to_registration Sample.row1]).
Proof.
  exact (proj1 (proj2
           (earlier_save_load_round_trip Legacy.works
              [Dom.row_to_registration Sample.row1] Legacy.empty_world
              eq_refl eq_refl))).
Defined.

Section EarlierAlways.

Import Legacy.

Variable P : Event -> bool.

Lemma adds_refl w : adds P w w.
Proof. exists []. now rewrite app_nil_r. Qed.

Lemma adds_trans a b c : adds P a b -> adds P b c -> adds P a c.
Proof.
  intros (e1 & H1 & P1) (e2 & H2 & P2). exists (e1 ++ e2).
  rewrite H2, H1, app_assoc, forallb_app, P1, P2. now split.
Qed.

Lemma always_ret {A : Type} (a : A) : always P (ret a).
Proof. intros w. apply adds_refl. Qed.

Lemma always_throw {A : Type} (e : Error) : always P (@throw A e).
Proof. intros w. apply adds_refl. Qed.

Lemma always_bind {A B : Type} (m : M A) (k : A -> M B) :
  always P m -> (forall a, always P (k a)) -> always P (bind m k).
Proof.
  intros Hm Hk w. unfold bind. specialize (Hm w).
  destruct (m w) as [[a|e] w1]; cbn [snd] in *.
  - apply (adds_trans _ w1); [exact Hm | apply Hk].
  - exact Hm.
Qed.

Lemma always_tryCatch {A : Type} (body : M A) (handler : Error -> M A) :
  always P body -> (forall e, always P (handler e)) ->
  always P (tryCatch body handler).
Proof.
  intros Hm Hk w. unfold tryCatch. specialize (Hm w).
  destruct (body w) as [[a|e] w1]; cbn [snd] in *.
  - exact Hm.
  - apply (adds_trans _ w1); [exact Hm | apply Hk].
Qed.

Lemma always_tryFinally {A : Type} (body : M A) (final : M unit) :
  always P body -> always P final -> always P (tryFinally body final).
Proof.
  intros Hm Hf w. unfold tryFinally. specialize (Hm w).
  destruct (body w) as [c w1]. specialize (Hf w1).
  destruct (final w1) as [[[]|e] w2]; cbn [snd] in *;
    apply (adds_trans _ w1); assumption.
Qed.

Lemma always_emit (e : Event) : P e = true -> always P (emit e).
Proof.
  intros He w. exists [e]. cbn [emit snd add_event trace forallb].
  now rewrite He.
Qed.

Lemma always_silent {A : Type} (m : M A) :
  (forall w, trace (snd (m w)) = trace w) -> always P m.
Proof. intros H w. exists []. now rewrite H, app_nil_r. Qed.

End EarlierAlways.

Ltac earlier_structure :=
  repeat first
    [ apply always_ret
    | apply always_throw
    | apply always_emit; reflexivity
    | apply always_silent; reflexivity
    | apply always_bind; [| intros ?]
    | apply always_tryCatch; [| intros ?]
    | apply always_tryFinally
    | match goal with
      | |- Legacy.always _ (match ?x with Fulfilled _ => _ | Rejected _ => _ end) =>
          destruct x
      | |- Legacy.always _ (if ?x then _ else _) => destruct x
      | |- Legacy.always _ (let _ := _ in _) => cbv zeta
      end ].

Lemma earlier_scrape_registers_no_timer env :
  Legacy.always (fun e => negb (Legacy.is_setInterval e)) (Legacy.scrape env).
Proof.
  unfold Legacy.scrape, Legacy.try_block, Legacy.catch_block,
    Legacy.extraction_steps, Legacy.saveData, Legacy.sendEmail,
    Legacy.finally_block, Legacy.page_screenshot_call,
    Legacy.fs_writeFile_call, Legacy.sgMail_send_call,
    Legacy.await, Legacy.log, Legacy.log_error.
  earlier_structure.
Qed.

(** X19.  The earlier module starts the scraper when it is loaded, with
    [console.error] as the handler of a rejection: loading never
    rejects.  When the first run returns normally the interval of six
    hours is registered after it; when the first run rejects, the
    exception is written to the console and no interval is registered,
    so that no later run takes place. *)
Theorem earlier_start_failure_is_logged env w :
  fst (Legacy.on_load env w) = Legacy.Normal tt
  /\ snd (Legacy.on_load env w)
     = match fst (Legacy.scrape env w) with
       | Legacy.Normal _ =>
           Legacy.add_event
             (Legacy.add_event (snd (Legacy.scrape env w))
                (Legacy.setInterval 21600000))
             (Legacy.console_log "Scheduled to run every 6 hours")
       | Legacy.Throw e =>
           Legacy.add_event (snd (Legacy.scrape env w))
             (Legacy.console_error "" (Some e))
       end
  /\ existsb Legacy.is_setInterval
       (Legacy.events_since w (snd (Legacy.on_load env w)))
     = match fst (Legacy.scrape env w) with
       | Legacy.Normal _ => true
       | Legacy.Throw _ => false
       end.
Proof.
  destruct (earlier_scrape_registers_no_timer env w) as (evs & Ht & Hevs).
  assert (Hno : existsb Legacy.is_setInterval evs = false).
  { clear Ht. induction evs as [|e evs IH]; [reflexivity|].
    cbn [forallb existsb] in *. apply andb_prop in Hevs as [He Hevs].
    apply negb_true_iff in He. now rewrite He, IH. }
  destruct (Legacy.scrape env w) as [c w1] eqn:Hrun.
  unfold Legacy.on_load, Legacy.start.
  cbv beta iota delta [Legacy.tryCatch Legacy.bind]. rewrite Hrun.
  cbn [fst snd] in *.
  destruct c as [[]|e]; LegacyFacts.run; cbn [fst snd];
    (split; [reflexivity|]); (split; [reflexivity|]);
    unfold Legacy.events_since; LegacyFacts.fields; rewrite Ht;
    repeat rewrite <- app_assoc; rewrite skipn_app_length;
    rewrite existsb_app, Hno; reflexivity.
Qed.

(** X20.  When the directory cannot be made or the file cannot be
    written, the earlier [saveData] reports the exception on the console
    and rejects with it, and every file is as before; when the directory
    cannot be made, the write is not attempted. *)
Theorem earlier_save_failure_writes_nothing env regs w :
  (forall reason,
      Legacy.mkdir env = Rejected reason ->
      Legacy.saveData env regs w
      = (Legacy.Throw {| Legacy.thrown_by := Legacy.OpMkdir;
                         Legacy.message := reason |},
         Legacy.add_event
           (Legacy.add_event
              (Legacy.add_event w (Legacy.call_saveData regs))
              (Legacy.fs_mkdir Legacy.DATA_DIRECTORY))
           (Legacy.console_error "✗ Error saving data:"
              (Some {| Legacy.thrown_by := Legacy.OpMkdir;
                       Legacy.message := reason |}))))
  /\ (forall reason,
        Legacy.mkdir env = Fulfilled tt ->
        Legacy.writeFile env Legacy.DATA_FILE_PATH
          (Legacy.snapshot_body env regs) = Rejected reason ->
        fst (Legacy.saveData env regs w)
        = Legacy.Throw {| Legacy.thrown_by := Legacy.OpWriteFile;
                          Legacy.message := reason |}
        /\ Legacy.files (snd (Legacy.saveData env regs w)) = Legacy.files w
        /\ In (Legacy.console_error "✗ Error saving data:"
                 (Some {| Legacy.thrown_by := Legacy.OpWriteFile;
                          Legacy.message := reason |}))
              (Legacy.events_since w (snd (Legacy.saveData env regs w)))).
Proof.
  split.
  - intros reason Hm. unfold Legacy.saveData. LegacyFacts.run. reflexivity.
  - intros reason Hm Hw.
    unfold Legacy.saveData, Legacy.fs_writeFile_call, Legacy.snapshot_body in *.
    LegacyFacts.run. cbn [fst snd]. split; [reflexivity|].
    split; [reflexivity|].
    unfold Legacy.events_since. LegacyFacts.fields.
    repeat rewrite <- app_assoc. rewrite skipn_app_length.
    cbn. auto.
Qed.

(** X21.  A run of the earlier scraper in which everything works: the
    browser is launched and closed, steps 1 to 6 yield [regs], the
    directory is made and the file written, both addresses are set and
    the mail channel accepts.  The run returns normally; its events are,
    in order, the opening line and the launch, the browsing steps, the
    report on the console, [saveData] with the making of the directory
    and the one write, [sendEmail] called with [regs] and its one
    message, the closing and the two final lines; the file holds the
    document of the snapshot and the message is delivered. *)
Theorem earlier_successful_run_saves_then_notifies env w regs :
  Legacy.launch env = Fulfilled tt ->
  Legacy.extraction env = Legacy.Normal regs ->
  Legacy.mkdir env = Fulfilled tt ->
  Legacy.writeFile env Legacy.DATA_FILE_PATH (Legacy.snapshot_body env regs)
  = Fulfilled tt ->
  JsString.truthy (Legacy.RECIPIENT_EMAIL env) = true ->
  JsString.truthy (Legacy.FROM_EMAIL env) = true ->
  (forall t m, Legacy.send env t m = Fulfilled tt) ->
  Legacy.close env = Fulfilled tt ->
  fst (Legacy.scrape env w) = Legacy.Normal tt
  /\ (exists steps,
        forallb Legacy.browsing steps = true
        /\ Legacy.run_events env w =
           [ Legacy.console_log
               (Legacy.nl ++ "=== Starting scraping process ===")%string;
             Legacy.puppeteer_launch ] ++ steps ++
           [ Legacy.console_log (Legacy.nl ++ "=== RESULTS FOUND ===")%string;
             Legacy.console_log ("▸ Total registrations: "
                                 ++ JsString.of_nat (length regs))%string;
             Legacy.console_table regs;
             Legacy.call_saveData regs;
             Legacy.fs_mkdir Legacy.DATA_DIRECTORY;
             Legacy.fs_writeFile Legacy.DATA_FILE_PATH
               (Legacy.snapshot_body env regs);
             Legacy.console_log "✓ Data saved successfully";
             Legacy.call_sendEmail regs;
             Legacy.sgMail_send (Legacy.message_for env regs);
             Legacy.console_log "✓ Email sent successfully";
             Legacy.browser_close;
             Legacy.console_log (Legacy.nl ++ "=== Process completed ===")%string;
             Legacy.console_log "▸ Browser closed" ])
  /\ Legacy.file_at Legacy.DATA_FILE_PATH (snd (Legacy.scrape env w))
     = Some (Legacy.snapshot_body env regs)
  /\ Legacy.outbox (snd (Legacy.scrape env w))
     = Legacy.outbox w ++ [Legacy.message_for env regs].
Proof.
  intros Hl Hx Hm Hw Hr Hf Hsend Hc.
  unfold Legacy.run_events, Legacy.scrape, Legacy.try_block.
  LegacyFacts.run.
  match goal with
  | |- context [Legacy.extraction_steps env ?w0] =>
      destruct (LegacyFacts.earlier_extraction_footprint env w0)
        as (w1 & steps & Hstep & Ht & Hb & Hfiles & Ho & _)
  end.
  rewrite Hstep, Hx.
  unfold Legacy.saveData, Legacy.fs_writeFile_call, Legacy.sendEmail,
    Legacy.sgMail_send_call, Legacy.finally_block, Legacy.snapshot_body in *.
  rewrite Hr, Hf. cbn [negb orb].
  LegacyFacts.fields_in Ht. LegacyFacts.fields_in Hfiles.
  LegacyFacts.fields_in Ho.
  LegacyFacts.run;
    try match goal with
        | E : Legacy.send _ _ _ = Rejected _ |- _ =>
            rewrite Hsend in E; discriminate E
        end.
  cbn [fst snd]. split; [reflexivity|]. split; [|split].
  - exists steps. split; [exact Hb|].
    unfold Legacy.events_since. LegacyFacts.fields. rewrite Ht.
    repeat rewrite <- app_assoc. rewrite skipn_app_length. reflexivity.
  - unfold Legacy.file_at. LegacyFacts.fields. cbn [find fst].
    now rewrite String.eqb_refl.
  - LegacyFacts.fields. now rewrite Ho.
Qed.

Lemma earlier_successful_run_saves_then_notifies_witness :
  fst (Legacy.scrape Legacy.works Legacy.empty_world) = Legacy.Normal tt
  /\ Legacy.outbox (snd (Legacy.scrape Legacy.works Legacy.empty_world))
     = [Legacy.message_for Legacy.works
          (Dom.extractRegistrations Sample.two_rows)].
Proof.
  assert (Hx : Legacy.extraction Legacy.works
               = Legacy.Normal (Dom.extractRegistrations Sample.two_rows))
    by (vm_compute; reflexivity).
  destruct (earlier_successful_run_saves_then_notifies Legacy.works
              Legacy.empty_world (Dom.extractRegistrations Sample.two_rows)
              eq_refl Hx eq_refl eq_refl eq_refl eq_refl
              (fun t m => eq_refl) eq_refl)
    as (H1 & _ & _ & H4).
  split; [exact H1 | exact H4].
Defined.
